(** * go-edn: the EDN encoder ([Marshal], [Encoder.Encode])

    A shallow embedding of package [edn] (encode.go, the extra types and the
    stream encoder) with the properties of its specification.

    Go strings and byte slices are sequences of bytes: they are Rocq
    [string]s, whose characters are the 8-bit [ascii].  Integers are [Z],
    floating-point numbers are the IEEE-754 data of [SpecFloat.spec_float].
    The [reflect] package is modelled by an inductive type of type
    descriptors ([rtype]) and an inductive type of values that carry their
    dynamic type ([value]). *)

From Stdlib Require Import ZArith List String Ascii Bool Lia DecimalString.
From Stdlib Require Import DecimalPos DecimalZ.
From Stdlib Require Import SpecFloat.
Import ListNotations.

Set Warnings "-register-all".

Local Open Scope string_scope.
Local Open Scope Z_scope.

(** ** Bytes and strings *)

Definition byte_of_Z (z : Z) : ascii := ascii_of_N (Z.to_N (z mod 256)).
Definition Z_of_byte (c : ascii) : Z := Z.of_N (N_of_ascii c).

Definition str1 (c : ascii) : string := String c EmptyString.

(** The double quote, as a character and as a one-byte string. *)
Definition dquote : ascii := "034"%char.
Definition dq : string := str1 dquote.

Fixpoint bytes_of_string (s : string) : list ascii :=
  match s with
  | EmptyString => []
  | String c s' => c :: bytes_of_string s'
  end.

(** [strings.HasPrefix]. *)
Definition HasPrefix (s pre : string) : bool := String.prefix pre s.

(** ** reflect.Kind and reflect.Type *)

Inductive Kind : Set :=
  | Invalid | Bool | Int | Int8 | Int16 | Int32 | Int64
  | Uint | Uint8 | Uint16 | Uint32 | Uint64 | Uintptr
  | Float32 | Float64 | Complex64 | Complex128
  | Array | Chan | Func | Interface | Map | Ptr | Slice | String_ | Struct
  | UnsafePointer.

Definition Kind_eq_dec (a b : Kind) : {a = b} + {a <> b}.
Proof. decide equality. Defined.

Definition Kind_eqb (a b : Kind) : bool :=
  if Kind_eq_dec a b then true else false.

(** The predeclared types. *)
Inductive basic : Set :=
  | Bbool | Bint | Bint8 | Bint16 | Bint32 | Bint64
  | Buint | Buint8 | Buint16 | Buint32 | Buint64 | Buintptr
  | Bfloat32 | Bfloat64 | Bcomplex64 | Bcomplex128 | Bstring
  | BunsafePointer.

Definition basic_kind (b : basic) : Kind :=
  match b with
  | Bbool => Bool | Bint => Int | Bint8 => Int8 | Bint16 => Int16
  | Bint32 => Int32 | Bint64 => Int64
  | Buint => Uint | Buint8 => Uint8 | Buint16 => Uint16 | Buint32 => Uint32
  | Buint64 => Uint64 | Buintptr => Uintptr
  | Bfloat32 => Float32 | Bfloat64 => Float64
  | Bcomplex64 => Complex64 | Bcomplex128 => Complex128
  | Bstring => String_ | BunsafePointer => UnsafePointer
  end.

(** Where a defined type has [MarshalText() ([]byte, error)] in its method
    sets: with the value receiver [T] (then [T] and [*T] have it) or with
    the pointer receiver [*T] (then only [*T] has it). *)
Inductive receiver : Set := ValueRecv | PtrRecv.

(** Type descriptors.  Two descriptors are the same Go type exactly when they
    are equal.  A defined type [Tnamed] has its qualified name, the receiver
    of its [MarshalText] (if it has one) and its underlying type; an
    interface type lists the names of its methods; struct, func and chan types
    are only identified (the encoder never looks inside them).  Descriptors
    are finite trees: a type that refers to itself is outside the model. *)
Inductive rtype : Set :=
  | Tbasic (b : basic)
  | Tarray (len : nat) (elem : rtype)
  | Tslice (elem : rtype)
  | Tmap (key elem : rtype)
  | Tptr (elem : rtype)
  | Tchan (elem : rtype)
  | Tfunc (signature : string)
  | Tiface (methods : list string)
  | Tstruct (fields : string)
  | Tnamed (name : string) (mt : option receiver) (under : rtype).

Definition rtype_eq_dec (a b : rtype) : {a = b} + {a <> b}.
Proof.
  decide equality;
    try apply string_dec; try apply Nat.eq_dec;
    try (apply list_eq_dec; apply string_dec);
    try (decide equality; decide equality).
Defined.

(** [t == u] on [reflect.Type]. *)
Definition rtype_eqb (a b : rtype) : bool :=
  if rtype_eq_dec a b then true else false.

(** [t.Kind()]. *)
Fixpoint kindOf (t : rtype) : Kind :=
  match t with
  | Tbasic b => basic_kind b
  | Tarray _ _ => Array
  | Tslice _ => Slice
  | Tmap _ _ => Map
  | Tptr _ => Ptr
  | Tchan _ => Chan
  | Tfunc _ => Func
  | Tiface _ => Interface
  | Tstruct _ => Struct
  | Tnamed _ _ u => kindOf u
  end.

(** [t.Elem()] and [t.Key()], for the kinds that have them. *)
Fixpoint elemOf (t : rtype) : option rtype :=
  match t with
  | Tarray _ e | Tslice e | Tmap _ e | Tptr e | Tchan e => Some e
  | Tnamed _ _ u => elemOf u
  | _ => None
  end.

Fixpoint keyOf (t : rtype) : option rtype :=
  match t with
  | Tmap k _ => Some k
  | Tnamed _ _ u => keyOf u
  | _ => None
  end.

(** [reflect.PtrTo(t)]. *)
Definition PtrTo (t : rtype) : rtype := Tptr t.

(** [t.Implements(textMarshalerType)]: the method set of [t] contains
    [MarshalText].  A defined type has the methods declared on its value
    receiver, a pointer to a defined type has those of both receivers, an
    interface type has the methods it lists. *)
Definition hasMarshalText (ms : list string) : bool :=
  existsb (String.eqb "MarshalText") ms.

Definition Implements (t : rtype) : bool :=
  match t with
  | Tnamed _ (Some ValueRecv) _ => true
  | Tnamed _ _ (Tiface ms) => hasMarshalText ms
  | Tiface ms => hasMarshalText ms
  | Tptr (Tnamed _ (Some _) _) => true
  | _ => false
  end.

(** The types the encoder knows by identity. *)
Definition timeType : rtype := Tnamed "time.Time" (Some ValueRecv) (Tstruct "sec int64; nsec uintptr; loc *Location").
Definition listType : rtype := Tnamed "list.List" None (Tstruct "root Element; len int").
Definition uuidType : rtype := Tnamed "uuid.UUID" None (Tslice (Tbasic Buint8)).
Definition emptyInterface : rtype := Tiface [].
Definition setType : rtype := Tnamed "edn.Set" None (Tmap emptyInterface (Tbasic Bbool)).
Definition keywordType : rtype := Tnamed "edn.Keyword" None (Tbasic Bstring).
Definition symbolType : rtype := Tnamed "edn.Symbol" None (Tbasic Bstring).
Definition keywordMapType : rtype := Tnamed "edn.KMap" None (Tmap (Tbasic Bstring) emptyInterface).
Definition byteSliceType : rtype := Tslice (Tbasic Buint8).

(** ** The Go library functions the encoder calls

    These are models of functions of Go's standard library (and of the uuid
    package), written from their documented behaviour; the encoder itself
    starts at [encodeState] below. *)

Module utf8.

Definition RuneError : Z := 65533.   (* U+FFFD *)
Definition MaxRune : Z := 1114111.   (* U+10FFFF *)
Definition RuneSelf : Z := 128.

Definition isCont (c : Z) : bool := (128 <=? c) && (c <? 192).

(** [utf8.DecodeRuneInString]: the first rune of [s] and its width in
    bytes; [(RuneError, 1)] for an encoding that is not valid UTF-8, and
    [(RuneError, 0)] for the empty string. *)
Definition DecodeRuneInString (s : string) : Z * nat :=
  let bad := (RuneError, 1%nat) in
  match s with
  | EmptyString => (RuneError, 0%nat)
  | String b0 s1 =>
    let c0 := Z_of_byte b0 in
    if c0 <? 128 then (c0, 1%nat)
    else if c0 <? 192 then bad
    else match s1 with
    | EmptyString => bad
    | String b1 s2 =>
      let c1 := Z_of_byte b1 in
      if negb (isCont c1) then bad
      else if c0 <? 224 then
        let r := Z.lor (Z.shiftl (Z.land c0 31) 6) (Z.land c1 63) in
        if r <=? 127 then bad else (r, 2%nat)
      else match s2 with
      | EmptyString => bad
      | String b2 s3 =>
        let c2 := Z_of_byte b2 in
        if negb (isCont c2) then bad
        else if c0 <? 240 then
          let r := Z.lor (Z.lor (Z.shiftl (Z.land c0 15) 12)
                                (Z.shiftl (Z.land c1 63) 6)) (Z.land c2 63) in
          if r <=? 2047 then bad
          else if (55296 <=? r) && (r <=? 57343) then bad
          else (r, 3%nat)
        else match s3 with
        | EmptyString => bad
        | String b3 _ =>
          let c3 := Z_of_byte b3 in
          if negb (isCont c3) then bad
          else if c0 <? 248 then
            let r := Z.lor (Z.lor (Z.lor (Z.shiftl (Z.land c0 7) 18)
                                         (Z.shiftl (Z.land c1 63) 12))
                                  (Z.shiftl (Z.land c2 63) 6)) (Z.land c3 63) in
            if (r <=? 65535) || (MaxRune <? r) then bad else (r, 4%nat)
          else bad
        end
      end
    end
  end.

(** [utf8.EncodeRune]. *)
Definition EncodeRune (r : Z) : string :=
  let cont (x : Z) := byte_of_Z (Z.lor 128 (Z.land x 63)) in
  let r := if (r <? 0) || (MaxRune <? r) || ((55296 <=? r) && (r <=? 57343))
           then RuneError else r in
  if r <=? 127 then str1 (byte_of_Z r)
  else if r <=? 2047 then
    String (byte_of_Z (Z.lor 192 (Z.shiftr r 6))) (str1 (cont r))
  else if r <=? 65535 then
    String (byte_of_Z (Z.lor 224 (Z.shiftr r 12)))
      (String (cont (Z.shiftr r 6)) (str1 (cont r)))
  else
    String (byte_of_Z (Z.lor 240 (Z.shiftr r 18)))
      (String (cont (Z.shiftr r 12))
         (String (cont (Z.shiftr r 6)) (str1 (cont r)))).

End utf8.

Module strconv.

(** [strconv.FormatInt(i, 10)] and [strconv.FormatUint(u, 10)]: decimal
    digits, no leading zeros, [-] for a negative number. *)
Definition FormatInt (i : Z) : string :=
  DecimalString.NilZero.string_of_int (Z.to_int i).

Definition FormatUint (u : Z) : string := FormatInt u.

Definition lowerhex (n : Z) : ascii :=
  if n <? 10 then byte_of_Z (48 + n) else byte_of_Z (87 + n).

(** [strconv.IsPrint] up to U+00FF; above, the answer is in Unicode tables
    that are taken as a parameter [wide]. *)
Definition IsPrint (wide : Z -> bool) (r : Z) : bool :=
  if r <=? 255 then
    if (32 <=? r) && (r <? 127) then true
    else if 161 <=? r then negb (r =? 173)
    else false
  else wide r.

Fixpoint hexDigits (n : nat) (r : Z) : string :=
  match n with
  | O => EmptyString
  | S n' =>
      String (lowerhex (Z.land (Z.shiftr r (4 * Z.of_nat n')) 15))
             (hexDigits n' r)
  end.

Fixpoint drop (n : nat) (s : string) : string :=
  match n, s with
  | O, _ => s
  | S n', String _ s' => drop n' s'
  | S _, EmptyString => EmptyString
  end.

(** One step of the loop of [strconv.Quote]: the escaped form of the first
    rune of [s] (which is not empty), and its width.  This is the Go of the
    time of the package; later versions write U+007F as an escape of two
    hexadecimal digits. *)
Definition quoteRune (wide : Z -> bool) (s : string) : string * nat :=
  let c0 := match s with String b _ => Z_of_byte b | EmptyString => 0 end in
  let '(r, width) :=
    if utf8.RuneSelf <=? c0 then utf8.DecodeRuneInString s
    else (c0, 1%nat) in
  let hex2 := String "\" (String "x" (hexDigits 2 c0)) in
  let out :=
    if Nat.eqb width 1 && (r =? utf8.RuneError) then hex2
    else if (r =? 34) || (r =? 92) then String "\" (str1 (byte_of_Z r))
    else if IsPrint wide r then utf8.EncodeRune r
    else if r =? 7 then "\a"
    else if r =? 8 then "\b"
    else if r =? 12 then "\f"
    else if r =? 10 then "\n"
    else if r =? 13 then "\r"
    else if r =? 9 then "\t"
    else if r =? 11 then "\v"
    else if r <? 32 then hex2
    else if utf8.MaxRune <? r then String "\" (String "u" (hexDigits 4 65533))
    else if r <? 65536 then String "\" (String "u" (hexDigits 4 r))
    else String "\" (String "U" (hexDigits 8 r)) in
  (out, width).

Fixpoint quoteLoop (wide : Z -> bool) (fuel : nat) (s : string) : string :=
  match fuel, s with
  | _, EmptyString => EmptyString
  | O, _ => EmptyString
  | S fuel', _ =>
      let '(out, width) := quoteRune wide s in
      out ++ quoteLoop wide fuel' (drop width s)
  end.

(** [strconv.Quote(s)], which is what [fmt.Sprintf("%#v", s)] returns for a
    string: a double-quoted Go string literal in which the quote
    and the backslash are preceded by a backslash, and control characters
    and what [IsPrint] rejects are written as escapes. *)
Definition Quote (wide : Z -> bool) (s : string) : string :=
  dq ++ quoteLoop wide (String.length s) s ++ dq.

(** *** Floating point: [strconv.FormatFloat(f, 'g', -1, bitSize)] *)

(** The decimal digits of a number and the position of its decimal point:
    the value is [0.digits * 10^dp]. *)
Record decimalSlice : Set := mkDecimal { digits : string; dp : Z }.

Definition nd (x : decimalSlice) : Z := Z.of_nat (String.length (digits x)).

Fixpoint trimZeros (s : string) : string :=
  match s with
  | EmptyString => EmptyString
  | String c s' =>
      let t := trimZeros s' in
      match t with
      | EmptyString => if Ascii.eqb c "0" then EmptyString else str1 c
      | _ => String c t
      end
  end.

Fixpoint zeros (n : nat) : string :=
  match n with O => EmptyString | S n' => String "0" (zeros n') end.

Section Shortest.
(** A positive float [m * 2^e] of a format with [prec] bits of mantissa
    and least exponent [emin]. *)
Variables (prec emin : Z) (m : positive) (e : Z).

(** Every real strictly between [lower] and [upper] (and the two bounds
    too when the mantissa is even) is read back as this float.  The
    three numbers are kept as numerators over the common unit
    [2^(e-2)]. *)
Let s : Z := e - 2.
Let mid : Z := 4 * Zpos m.
Let upper : Z := 4 * Zpos m + 2.
Let lower : Z :=
  if (Zpos m =? 2 ^ (prec - 1)) && (emin <? e)
  then 4 * Zpos m - 1 else 4 * Zpos m - 2.
Let inclusive : bool := Z.even (Zpos m).

(** The multiple of [10^k] to print when one next to the float is within
    the bounds: the one below, the one above, or the nearer of the two
    (the even one when they are equally near). *)
Definition pick (k : Z) : option Z :=
  let a := 2 ^ Z.max s 0 * 10 ^ Z.max (- k) 0 in
  let b := 10 ^ Z.max k 0 * 2 ^ Z.max (- s) 0 in
  let q := (mid * a) / b in
  let r := (mid * a) mod b in
  let okdown :=
    if inclusive then lower * a <=? q * b else lower * a <? q * b in
  let okup :=
    if inclusive then (q + 1) * b <=? upper * a
    else (q + 1) * b <? upper * a in
  match okdown, okup with
  | true, true =>
      Some (if (b <? 2 * r) || ((2 * r =? b) && Z.odd q) then q + 1 else q)
  | true, false => Some q
  | false, true => Some (q + 1)
  | false, false => None
  end.

Fixpoint search (fuel : nat) (k : Z) : decimalSlice :=
  match fuel with
  | O => mkDecimal EmptyString 0
  | S fuel' =>
      match pick k with
      | Some c =>
          let ds := FormatInt c in
          mkDecimal (trimZeros ds) (Z.of_nat (String.length ds) + k)
      | None => search fuel' (k - 1)
      end
  end.

(** The shortest decimal that is read back as the float: the search
    goes from a power of ten above [upper] down to the last digit of the
    exact decimal expansion. *)
Definition roundShortest : decimalSlice :=
  let bits := Z.log2 upper + 1 + s in
  let kstart := if bits <=? 0 then 0 else bits / 3 + 1 in
  let kend := Z.min s 0 in
  search (Z.to_nat (kstart - kend + 1)) kstart.
End Shortest.

Definition digitAt (x : decimalSlice) (j : Z) : ascii :=
  if (0 <=? j) && (j <? nd x) then
    match String.get (Z.to_nat j) (digits x) with
    | Some c => c
    | None => "0"%char
    end
  else "0"%char.

(** [%e]: [d.ddddde±dd]. *)
Definition fmtE (neg : bool) (x : decimalSlice) (prec : Z) : string :=
  let sign := if neg then "-" else "" in
  let first := str1 (if nd x =? 0 then "0"%char else digitAt x 0) in
  let frac :=
    if 0 <? prec then
      let m := Z.min (nd x) (prec + 1) in
      let i := if 1 <? m then m else 1 in
      "." ++ String.substring 1 (Z.to_nat (m - 1)) (digits x)
          ++ zeros (Z.to_nat (prec - i + 1))
    else "" in
  let exp := if nd x =? 0 then 0 else dp x - 1 in
  let esign := if exp <? 0 then "-" else "+" in
  let exp := Z.abs exp in
  let edigits :=
    if exp <? 10 then String "0" (str1 (byte_of_Z (exp + 48)))
    else if exp <? 100 then
      String (byte_of_Z (exp / 10 + 48)) (str1 (byte_of_Z (exp mod 10 + 48)))
    else
      String (byte_of_Z (exp / 100 + 48))
        (String (byte_of_Z ((exp / 10) mod 10 + 48))
           (str1 (byte_of_Z (exp mod 10 + 48)))) in
  sign ++ first ++ frac ++ "e" ++ esign ++ edigits.

Fixpoint fraction (x : decimalSlice) (n : nat) (i : Z) : string :=
  match n with
  | O => EmptyString
  | S n' => String (digitAt x (dp x + i)) (fraction x n' (i + 1))
  end.

(** [%f]: [ddddd.ddddd]. *)
Definition fmtF (neg : bool) (x : decimalSlice) (prec : Z) : string :=
  let sign := if neg then "-" else "" in
  let int :=
    if 0 <? dp x then
      let m := Z.min (nd x) (dp x) in
      String.substring 0 (Z.to_nat m) (digits x) ++ zeros (Z.to_nat (dp x - m))
    else "0" in
  let frac :=
    if 0 <? prec then "." ++ fraction x (Z.to_nat prec) 0 else "" in
  sign ++ int ++ frac.

(** [%g] with the shortest digits: [%e] when the exponent is below -4 or
    at least 6 (the precision that this decision uses for shortest
    digits), else [%f]. *)
Definition formatDigits (neg : bool) (x : decimalSlice) : string :=
  let eprec := 6 in
  let exp := dp x - 1 in
  if (exp <? -4) || (eprec <=? exp) then fmtE neg x (nd x - 1)
  else fmtF neg x (Z.max (nd x - dp x) 0).

(** [strconv.FormatFloat(f, 'g', -1, bitSize)].  The float is first
    converted to the format of [bitSize] bits (no change for a float that
    came out of that format). *)
Definition FormatFloat (f : spec_float) (bitSize : Z) : string :=
  let '(prec, emax) := if bitSize =? 32 then (24, 128) else (53, 1024) in
  let f' :=
    match f with
    | S754_finite sx mx ex => binary_round prec emax sx mx ex
    | _ => f
    end in
  match f' with
  | S754_nan => "NaN"
  | S754_infinity true => "-Inf"
  | S754_infinity false => "+Inf"
  | S754_zero neg => formatDigits neg (mkDecimal EmptyString 0)
  | S754_finite neg m e =>
      formatDigits neg (roundShortest prec (emin prec emax) m e)
  end.

End strconv.

Module base64.

Definition encodeStd : string :=
  "ABCDEFGHIJKLMNOPQRSTUVWXYZabcdefghijklmnopqrstuvwxyz0123456789+/".

Definition enc (n : Z) : ascii :=
  match String.get (Z.to_nat (Z.land n 63)) encodeStd with
  | Some c => c
  | None => "="%char
  end.

(** [base64.StdEncoding.EncodeToString]: four characters of the standard
    alphabet for every three bytes, the last group padded with [=]. *)
Fixpoint Encode (src : string) : string :=
  match src with
  | EmptyString => EmptyString
  | String b0 EmptyString =>
      let v := Z.shiftl (Z_of_byte b0) 16 in
      String (enc (Z.shiftr v 18)) (String (enc (Z.shiftr v 12)) "==")
  | String b0 (String b1 EmptyString) =>
      let v := Z.lor (Z.shiftl (Z_of_byte b0) 16) (Z.shiftl (Z_of_byte b1) 8) in
      String (enc (Z.shiftr v 18))
        (String (enc (Z.shiftr v 12)) (String (enc (Z.shiftr v 6)) "="))
  | String b0 (String b1 (String b2 rest)) =>
      let v := Z.lor (Z.lor (Z.shiftl (Z_of_byte b0) 16)
                            (Z.shiftl (Z_of_byte b1) 8)) (Z_of_byte b2) in
      String (enc (Z.shiftr v 18))
        (String (enc (Z.shiftr v 12))
           (String (enc (Z.shiftr v 6)) (String (enc v) (Encode rest))))
  end.

(** [base64.StdEncoding.EncodedLen]. *)
Definition EncodedLen (n : nat) : nat := ((n + 2) / 3 * 4)%nat.

End base64.

Module uuid.

Fixpoint hex (s : string) : string :=
  match s with
  | EmptyString => EmptyString
  | String b s' =>
      String (strconv.lowerhex (Z.shiftr (Z_of_byte b) 4))
        (String (strconv.lowerhex (Z.land (Z_of_byte b) 15)) (hex s'))
  end.

(** [UUID.String]: the form xxxxxxxx-xxxx-xxxx-xxxx-xxxxxxxxxxxx of the 16
    bytes, and the empty string for a UUID that is not 16 bytes long. *)
Definition String_ (u : string) : string :=
  if negb (Nat.eqb (String.length u) 16) then ""
  else hex (String.substring 0 4 u) ++ "-" ++ hex (String.substring 4 2 u)
       ++ "-" ++ hex (String.substring 6 2 u) ++ "-"
       ++ hex (String.substring 8 2 u) ++ "-" ++ hex (String.substring 10 6 u).

End uuid.

Module time.

(** An instant: seconds since 1970-01-01T00:00:00Z and nanoseconds within
    the second.  The location is left out: the encoder formats [t.UTC()]. *)
Record Time : Set := mkTime { unixSec : Z; nsec : Z }.

Definition pad (width : nat) (n : Z) : string :=
  let ds := strconv.FormatInt (Z.abs n) in
  (if n <? 0 then "-" else "")
    ++ strconv.zeros (width - String.length ds) ++ ds.

(** The civil date of a day number counted from 1970-01-01. *)
Definition civil (days : Z) : Z * Z * Z :=
  let z := days + 719468 in
  let era := z / 146097 in
  let doe := z - era * 146097 in
  let yoe := (doe - doe / 1460 + doe / 36524 - doe / 146096) / 365 in
  let doy := doe - (365 * yoe + yoe / 4 - yoe / 100) in
  let mp := (5 * doy + 2) / 153 in
  let d := doy - (153 * mp + 2) / 5 + 1 in
  let m := if mp <? 10 then mp + 3 else mp - 9 in
  let y := yoe + era * 400 + (if m <=? 2 then 1 else 0) in
  (y, m, d).

(** [t.UTC().Format(time.RFC3339Nano)]: the fraction of the second loses
    its trailing zeros, and is left out when it is zero. *)
Definition FormatRFC3339NanoUTC (t : Time) : string :=
  let '(y, mo, d) := civil (unixSec t / 86400) in
  let sod := unixSec t mod 86400 in
  let frac := strconv.trimZeros (pad 9 (nsec t)) in
  pad 4 y ++ "-" ++ pad 2 mo ++ "-" ++ pad 2 d ++ "T"
    ++ pad 2 (sod / 3600) ++ ":" ++ pad 2 ((sod / 60) mod 60) ++ ":"
    ++ pad 2 (sod mod 60)
    ++ (match frac with EmptyString => "" | _ => "." ++ frac end) ++ "Z".

End time.

(** ** reflect.Value *)

(** A value together with its dynamic type.  [Vinvalid] is the zero
    [reflect.Value] (what [reflect.ValueOf(nil)] returns).  A nil pointer,
    slice, map or interface is [None].  A map lists its entries in the order
    in which [MapKeys] enumerates them.  [Vlist] is a [container/list.List]
    with the [Value] of its nodes, front to back, each an [interface{}]
    ([None] when nil).
    Values are finite trees: a value that contains itself is outside the
    model. *)
Inductive value : Set :=
  | Vinvalid
  | Vbool (t : rtype) (b : bool)
  | Vint (t : rtype) (i : Z)
  | Vuint (t : rtype) (u : Z)
  | Vfloat (t : rtype) (f : spec_float)
  | Vstring (t : rtype) (s : string)
  | Viface (t : rtype) (x : option value)
  | Vptr (t : rtype) (p : option value)
  | Vslice (t : rtype) (s : option (list value))
  | Varray (t : rtype) (a : list value)
  | Vmap (t : rtype) (m : option (list (value * value)))
  | Vstruct (t : rtype) (fields : list value)
  | Vtime (tm : time.Time)
  | Vlist (nodes : list (option value))
  | Vopaque (t : rtype).

(** A Go [interface{}]: nil, or a value with its dynamic type. *)
Definition iface : Set := option value.

(** [reflect.ValueOf]. *)
Definition ValueOf (i : iface) : value :=
  match i with
  | None => Vinvalid
  | Some v => v
  end.

(** [v.Type()], for a valid [v]. *)
Definition typeOf (v : value) : option rtype :=
  match v with
  | Vinvalid => None
  | Vbool t _ | Vint t _ | Vuint t _ | Vfloat t _ | Vstring t _
  | Viface t _ | Vptr t _ | Vslice t _ | Varray t _
  | Vmap t _ | Vstruct t _ | Vopaque t => Some t
  | Vtime _ => Some timeType
  | Vlist _ => Some listType
  end.

(** [v.Kind()]. *)
Definition Value_Kind (v : value) : Kind :=
  match typeOf v with
  | Some t => kindOf t
  | None => Invalid
  end.

(** [v.Bytes()] for a slice with the elements [xs], which are bytes. *)
Fixpoint bytesOf (xs : list value) : option string :=
  match xs with
  | [] => Some EmptyString
  | Vuint _ u :: xs' =>
      match bytesOf xs' with
      | Some s => Some (String (byte_of_Z u) s)
      | None => None
      end
  | _ :: _ => None
  end.

(** The slice of type [t] of the bytes of [s], as [[]byte(s)] makes it. *)
Definition byteSlice (t : rtype) (s : string) : value :=
  Vslice t (Some (map (fun c => Vuint (Tbasic Buint8) (Z_of_byte c))
                      (bytes_of_string s))).

(** [v.IsValid()]. *)
Definition IsValid (v : value) : bool :=
  match v with Vinvalid => false | _ => true end.

(** [k.String()]. *)
Definition kindString (k : Kind) : string :=
  match k with
  | Invalid => "invalid" | Bool => "bool" | Int => "int" | Int8 => "int8"
  | Int16 => "int16" | Int32 => "int32" | Int64 => "int64"
  | Uint => "uint" | Uint8 => "uint8" | Uint16 => "uint16"
  | Uint32 => "uint32" | Uint64 => "uint64" | Uintptr => "uintptr"
  | Float32 => "float32" | Float64 => "float64"
  | Complex64 => "complex64" | Complex128 => "complex128"
  | Array => "array" | Chan => "chan" | Func => "func"
  | Interface => "interface" | Map => "map" | Ptr => "ptr"
  | Slice => "slice" | String_ => "string" | Struct => "struct"
  | UnsafePointer => "unsafe.Pointer"
  end.

(** [t.String()]. *)
Definition basicString (b : basic) : string :=
  match b with
  | Bbool => "bool" | Bint => "int" | Bint8 => "int8" | Bint16 => "int16"
  | Bint32 => "int32" | Bint64 => "int64"
  | Buint => "uint" | Buint8 => "uint8" | Buint16 => "uint16"
  | Buint32 => "uint32" | Buint64 => "uint64" | Buintptr => "uintptr"
  | Bfloat32 => "float32" | Bfloat64 => "float64"
  | Bcomplex64 => "complex64" | Bcomplex128 => "complex128"
  | Bstring => "string" | BunsafePointer => "unsafe.Pointer"
  end.

Fixpoint typeString (t : rtype) : string :=
  match t with
  | Tbasic b => basicString b
  | Tarray n e => "[" ++ strconv.FormatInt (Z.of_nat n) ++ "]" ++ typeString e
  | Tslice e => "[]" ++ typeString e
  | Tmap k e => "map[" ++ typeString k ++ "]" ++ typeString e
  | Tptr e => "*" ++ typeString e
  | Tchan e => "chan " ++ typeString e
  | Tfunc sig => "func" ++ sig
  | Tiface [] => "interface {}"
  | Tiface ms => "interface { " ++ String.concat "; " ms ++ " }"
  | Tstruct fs => "struct { " ++ fs ++ " }"
  | Tnamed n _ _ => n
  end.

(** [v.String()]: the string of a value of kind String; for the other kinds
    it does not panic and names the type. *)
Definition Value_String (v : value) : string :=
  match v with
  | Vstring _ s => s
  | _ =>
      match typeOf v with
      | None => "<invalid Value>"
      | Some t => "<" ++ typeString t ++ " Value>"
      end
  end.

(** ** Errors and panics *)

Inductive error : Set :=
  | UnsupportedTypeError (Type_ : rtype)
  | UnsupportedValueError (Value : value) (Str : string)
  | MarshalerError (Type_ : rtype) (Err : error)
  | ValueError (Method : string) (Kind_ : Kind)     (* reflect.ValueError *)
  | errorString (s : string).                       (* errors.New(s) *)

Fixpoint Error (e : error) : string :=
  match e with
  | UnsupportedTypeError t => "edn: unsupported type: " ++ typeString t
  | UnsupportedValueError _ str => "edn: unsupported value: " ++ str
  | MarshalerError t err =>
      "edn: error calling MarshalEDN for type " ++ typeString t ++ ": "
        ++ Error err
  | ValueError m k =>
      match k with
      | Invalid => "reflect: call of " ++ m ++ " on zero Value"
      | _ => "reflect: call of " ++ m ++ " on " ++ kindString k ++ " Value"
      end
  | errorString s => s
  end.

(** What a panic carries: an [error], a [runtime.Error], or a string. *)
Inductive panicValue : Set :=
  | PanicError (err : error)
  | PanicRuntime (msg : string)
  | PanicString (msg : string).

Inductive result (A : Type) : Type :=
  | Done (a : A)
  | Panic (p : panicValue).
Arguments Done {A} a.
Arguments Panic {A} p.

(** ** encodeState *)

(** The accumulated output of one encoding.  (The [scratch] array of the Go
    struct only holds the digits of a number until they are written, and has
    no counterpart here.) *)
Record encodeState : Set := mkState { Bytes : string }.

(** Code that writes to an [encodeState] and may panic: it gets the state
    and returns the state it leaves, with its result or the panic. *)
Definition M (A : Type) : Type := encodeState -> encodeState * result A.

Definition ret {A : Type} (a : A) : M A := fun e => (e, Done a).

Definition bind {A B : Type} (c : M A) (k : A -> M B) : M B :=
  fun e =>
    match c e with
    | (e', Done a) => k a e'
    | (e', Panic p) => (e', Panic p)
    end.

Definition panic {A : Type} (p : panicValue) : M A := fun e => (e, Panic p).

Declare Scope go_scope.
Delimit Scope go_scope with go.
Notation "x <- c ;; k" := (bind c (fun x => k))
  (at level 61, c at next level, right associativity) : go_scope.
Notation "c ;; k" := (bind c (fun _ => k))
  (at level 61, right associativity) : go_scope.
Local Open Scope go_scope.

Definition Len : M nat := fun e => (e, Done (String.length (Bytes e))).

Definition WriteString (s : string) : M unit :=
  fun e => (mkState (Bytes e ++ s), Done tt).

Definition WriteByte (c : ascii) : M unit := WriteString (str1 c).

Definition Write (b : string) : M unit := WriteString b.

Definition when (b : bool) (c : M unit) : M unit := if b then c else ret tt.

(** [e.error(err)]. *)
Definition e_error {A : Type} (err : error) : M A := panic (PanicError err).

(** ** Encoders *)

(** The functions that [newTypeEncoder] returns.  The encoders of composite
    types are closures over the encoders of their parts ([mapEncoder],
    [sliceEncoder], [arrayEncoder], [ptrEncoder] and [condAddrEncoder] in
    the source); here a closure is the constructor with what it captures,
    and [encodeValue] below runs it. *)
Inductive encoderFunc : Set :=
  | invalidValueEncoder
  | timeEncoder
  | textMarshalerEncoder
  | addrTextMarshalerEncoder
  | boolEncoder
  | intEncoder
  | uintEncoder
  | floatEncoder (bits : Z)
  | stringEncoder
  | interfaceEncoder
  | unsupportedTypeEncoder
  | mapEncoder (keyEnc elemEnc : encoderFunc)
  | encodeByteSlice
  | encodeUuid
  | sliceEncoder (arrayEnc : encoderFunc)
  | arrayEncoder (elemEnc : encoderFunc)
  | ptrEncoder (elemEnc : encoderFunc)
  | condAddrEncoder (canAddrEnc elseEnc : encoderFunc)
  | listEncoder.

Definition float32Encoder : encoderFunc := floatEncoder 32.
Definition float64Encoder : encoderFunc := floatEncoder 64.

(** [newCondAddrEncoder]. *)
Definition newCondAddrEncoder (canAddrEnc elseEnc : encoderFunc) : encoderFunc :=
  condAddrEncoder canAddrEnc elseEnc.

(** The encoder of a predeclared type, by its kind (the first cases of the
    switch of [newTypeEncoder]). *)
Definition basicEncoder (b : basic) : encoderFunc :=
  match basic_kind b with
  | Bool => boolEncoder
  | Int | Int8 | Int16 | Int32 | Int64 => intEncoder
  | Uint | Uint8 | Uint16 | Uint32 | Uint64 | Uintptr => uintEncoder
  | Float32 => float32Encoder
  | Float64 => float64Encoder
  | String_ => stringEncoder
  | _ => unsupportedTypeEncoder
  end.

(** [newTypeEncoder(t, allowAddr)].  [typeEncoder(t)] is
    [newTypeEncoder(t, true)] kept in a cache, so the calls of [typeEncoder]
    for the parts of a type are the recursive calls here.  The switch on
    [t.Kind()] is [byKind], which goes through the name of a defined type to
    its underlying type; it is also what [newTypeEncoder(t, false)] returns
    when it is called for the second encoder of [newCondAddrEncoder], since
    the tests before the switch have failed by then. *)
Fixpoint newTypeEncoder (t : rtype) (allowAddr : bool) {struct t} : encoderFunc :=
  let byKind :=
    (fix byKind (u : rtype) {struct u} : encoderFunc :=
       match u with
       | Tbasic b => basicEncoder b
       | Tiface _ => interfaceEncoder
       | Tmap k e => mapEncoder (newTypeEncoder k true) (newTypeEncoder e true)
       | Tslice e =>
           (* newSliceEncoder *)
           if Kind_eqb (kindOf e) Uint8 then
             if rtype_eqb t uuidType then encodeUuid else encodeByteSlice
           else sliceEncoder (arrayEncoder (newTypeEncoder e true))
       | Tarray _ e => arrayEncoder (newTypeEncoder e true)
       | Tptr e => ptrEncoder (newTypeEncoder e true)
       | Tnamed _ _ u' => byKind u'
       | Tchan _ | Tfunc _ | Tstruct _ =>
           if rtype_eqb t listType then listEncoder else unsupportedTypeEncoder
       end) t in
  if rtype_eqb t timeType then timeEncoder
  else if Kind_eqb (kindOf t) Ptr
          && match elemOf t with
             | Some e => rtype_eqb e timeType
             | None => false
             end
  then byKind
  else if Implements t then textMarshalerEncoder
  else if negb (Kind_eqb (kindOf t) Ptr) && allowAddr && Implements (PtrTo t)
  then newCondAddrEncoder addrTextMarshalerEncoder byKind
  else byKind.

(** [typeEncoder(t)]: the cache [encoderCache] only saves the work of
    building the encoder of a type more than once. *)
Definition typeEncoder (t : rtype) : encoderFunc := newTypeEncoder t true.

(** [valueEncoder(v)]. *)
Definition valueEncoder (v : value) : encoderFunc :=
  if negb (IsValid v) then invalidValueEncoder
  else match typeOf v with
       | Some t => typeEncoder t
       | None => invalidValueEncoder
       end.

(** The constructors of the composite encoders, as in the source. *)
Definition newPtrEncoder (t : rtype) : encoderFunc :=
  match elemOf t with
  | Some e => ptrEncoder (typeEncoder e)
  | None => unsupportedTypeEncoder
  end.

Definition newArrayEncoder (t : rtype) : encoderFunc :=
  match elemOf t with
  | Some e => arrayEncoder (typeEncoder e)
  | None => unsupportedTypeEncoder
  end.

Definition newSliceEncoder (t : rtype) : encoderFunc :=
  match elemOf t with
  | Some e =>
      if Kind_eqb (kindOf e) Uint8 then
        if rtype_eqb t uuidType then encodeUuid else encodeByteSlice
      else sliceEncoder (newArrayEncoder t)
  | None => unsupportedTypeEncoder
  end.

Definition newMapEncoder (t : rtype) : encoderFunc :=
  match keyOf t, elemOf t with
  | Some k, Some e => mapEncoder (typeEncoder k) (typeEncoder e)
  | _, _ => unsupportedTypeEncoder
  end.

(** The switch of [newTypeEncoder] on [t.Kind()]. *)
Definition kindSwitch (t : rtype) : encoderFunc :=
  match kindOf t with
  | Bool => boolEncoder
  | Int | Int8 | Int16 | Int32 | Int64 => intEncoder
  | Uint | Uint8 | Uint16 | Uint32 | Uint64 | Uintptr => uintEncoder
  | Float32 => float32Encoder
  | Float64 => float64Encoder
  | String_ => stringEncoder
  | Interface => interfaceEncoder
  | Map => newMapEncoder t
  | Slice => newSliceEncoder t
  | Array => newArrayEncoder t
  | Ptr => newPtrEncoder t
  | _ => if rtype_eqb t listType then listEncoder else unsupportedTypeEncoder
  end.

Section Engine.

(** The Unicode tables of [strconv.IsPrint] above U+00FF. *)
Variable isPrintWide : Z -> bool.

(** The [MarshalText] methods of the program: [MarshalText m] is what
    [m.MarshalText()] returns for a value [m] whose dynamic type implements
    [encoding.TextMarshaler], the bytes and the error (nil is [None]). *)
Variable MarshalText : value -> string * option error.

(** [fmt.Sprintf("%#v", s)] for a string [s]. *)
Definition Sprintf_sharp_v (s : string) : string :=
  strconv.Quote isPrintWide s.

(** [e.string(s)]. *)
Definition e_string (s : string) : M (nat * option error) :=
  len0 <- Len ;;
  WriteString (Sprintf_sharp_v s) ;;
  len1 <- Len ;;
  ret ((len1 - len0)%nat, None).

(** [e.stringBytes(s)]. *)
Definition e_stringBytes (s : string) : M (nat * option error) :=
  len0 <- Len ;;
  WriteString (Sprintf_sharp_v s) ;;
  len1 <- Len ;;
  ret ((len1 - len0)%nat, None).

(** [v.Type()], which panics on the zero Value. *)
Definition Value_Type (v : value) : M rtype :=
  match typeOf v with
  | Some t => ret t
  | None => e_error (ValueError "reflect.Value.Type" Invalid)
  end.

(** [v.Interface().(encoding.TextMarshaler)]: the value as an interface
    (for a value of interface kind, what the interface holds), asserted to
    implement [TextMarshaler]. *)
Definition asTextMarshaler (v : value) : M value :=
  match v with
  | Vinvalid => e_error (ValueError "reflect.Value.Interface" Invalid)
  | Viface _ None =>
      panic (PanicRuntime
        "interface conversion: interface is nil, not encoding.TextMarshaler")
  | _ =>
      let m := match v with Viface _ (Some x) => x | _ => v end in
      match typeOf m with
      | Some t =>
          if Implements t then ret m
          else panic (PanicRuntime
            ("interface conversion: " ++ typeString t
               ++ " is not encoding.TextMarshaler: missing method MarshalText"))
      | None => e_error (ValueError "reflect.Value.Interface" Invalid)
      end
  end.

(** The common end of [textMarshalerEncoder] and
    [addrTextMarshalerEncoder]: call [m.MarshalText()], write the bytes
    with [stringBytes], and panic with a [MarshalerError] for the type of
    [v] when there is an error. *)
Definition marshalTextOf (v m : value) : M unit :=
  let '(b, err) := MarshalText m in
  err <- match err with
         | None => r <- e_stringBytes b ;; ret (snd r)
         | Some _ => ret err
         end ;;
  match err with
  | Some err => t <- Value_Type v ;; e_error (MarshalerError t err)
  | None => ret tt
  end.

Definition mismatch {A : Type} (method : string) (v : value) : M A :=
  e_error (ValueError method (Value_Kind v)).

(** [math.IsInf(f, 0) || math.IsNaN(f)]. *)
Definition IsInfOrNaN (f : spec_float) : bool :=
  match f with
  | S754_infinity _ | S754_nan => true
  | _ => false
  end.

(** Running an encoder on a value: [f(e, v)] for an [encoderFunc] [f].
    [addr] is [v.CanAddr()]: the elements of a slice and what a pointer
    points to are addressable, the elements of an array are when the array
    is, and the keys and values of a map, the content of an interface and
    the values of a list are not.  In Go an encoder only meets values of
    the type it was built for; here, an encoder run on a value of another
    kind panics as the method of [reflect] that it calls first does, which
    does not happen for a well-formed value ([wellFormed_expected]). *)
Fixpoint encodeValue (v : value) : encoderFunc -> bool -> M unit :=
  fix enc (f : encoderFunc) (addr : bool) {struct f} : M unit :=
    match f with
    | invalidValueEncoder => WriteString "nil"
    | timeEncoder =>
        match v with
        | Vtime t =>
            WriteString "#inst " ;;
            r <- e_string (time.FormatRFC3339NanoUTC t) ;;
            match snd r with
            | Some err => e_error err
            | None => ret tt
            end
        | _ => panic (PanicRuntime "interface conversion: not time.Time")
        end
    | textMarshalerEncoder =>
        if Kind_eqb (Value_Kind v) Ptr
           && match v with Vptr _ None => true | _ => false end
        then WriteString "nil"
        else m <- asTextMarshaler v ;; marshalTextOf v m
    | addrTextMarshalerEncoder =>
        if negb addr
        then panic (PanicString "reflect.Value.Addr of unaddressable value")
        else
          t <- Value_Type v ;;
          let va := Vptr (PtrTo t) (Some v) in
          m <- asTextMarshaler va ;; marshalTextOf v m
    | boolEncoder =>
        match v with
        | Vbool _ b => if b then WriteString "true" else WriteString "false"
        | _ => mismatch "reflect.Value.Bool" v
        end
    | intEncoder =>
        match v with
        | Vint _ i => Write (strconv.FormatInt i)
        | _ => mismatch "reflect.Value.Int" v
        end
    | uintEncoder =>
        match v with
        | Vuint _ u => Write (strconv.FormatUint u)
        | _ => mismatch "reflect.Value.Uint" v
        end
    | floatEncoder bits =>
        match v with
        | Vfloat _ f =>
            when (IsInfOrNaN f)
              (e_error (UnsupportedValueError v (strconv.FormatFloat f bits))) ;;
            Write (strconv.FormatFloat f bits)
        | _ => mismatch "reflect.Value.Float" v
        end
    | stringEncoder =>
        let s := Value_String v in
        t <- Value_Type v ;;
        if rtype_eqb t symbolType || rtype_eqb t keywordType then
          when (rtype_eqb t keywordType && negb (HasPrefix s ":"))
            (WriteByte ":") ;;
          WriteString s
        else
          _ <- e_string s ;; ret tt
    | interfaceEncoder =>
        match v with
        | Viface _ None => WriteString "nil"
        | Viface _ (Some x) => encodeValue x (valueEncoder x) false
        | _ => mismatch "reflect.Value.IsNil" v
        end
    | unsupportedTypeEncoder =>
        t <- Value_Type v ;; e_error (UnsupportedTypeError t)
    | mapEncoder keyEnc elemEnc =>
        t <- Value_Type v ;;
        let isSet := rtype_eqb t setType in
        let sep := if isSet then " " else ", " in
        when isSet (WriteByte "#") ;;
        match v with
        | Vmap _ None => WriteString "{}"
        | Vmap _ (Some kvs) =>
            WriteByte "{" ;;
            (fix range (i : nat) (kvs : list (value * value)) : M unit :=
               match kvs with
               | [] => ret tt
               | (k, x) :: kvs' =>
                   when (Nat.ltb 0 i) (WriteString sep) ;;
                   encodeValue k keyEnc false ;;
                   when (negb isSet)
                     (WriteByte " " ;; encodeValue x elemEnc false) ;;
                   range (S i) kvs'
               end) O kvs ;;
            WriteByte "}"
        | _ => mismatch "reflect.Value.IsNil" v
        end
    | encodeByteSlice =>
        match v with
        | Vslice _ None => WriteString "nil"
        | Vslice _ (Some xs) =>
            s <- match bytesOf xs with
                 | Some s => ret s
                 | None => mismatch "reflect.Value.Bytes" v
                 end ;;
            WriteString "#base64 " ;;
            WriteByte dquote ;;
            (if Nat.ltb (String.length s) 1024 then
               (* Encode into a buffer of EncodedLen bytes, then write it *)
               Write (base64.Encode s)
             else
               (* a base64 encoder that writes to e, written to and closed *)
               Write (base64.Encode s)) ;;
            WriteByte dquote
        | _ => mismatch "reflect.Value.Bytes" v
        end
    | encodeUuid =>
        match v with
        | Vslice _ b =>
            WriteString "#uuid " ;;
            s <- match b with
                 | None => ret EmptyString
                 | Some xs =>
                     match bytesOf xs with
                     | Some s => ret s
                     | None => mismatch "reflect.Value.Bytes" v
                     end
                 end ;;
            _ <- e_string (uuid.String_ s) ;; ret tt
        | _ => mismatch "reflect.Value.Bytes" v
        end
    | sliceEncoder arrayEnc =>
        match v with
        | Vslice _ None => WriteString "[]"
        | Vslice _ (Some _) => enc arrayEnc addr
        | _ => mismatch "reflect.Value.IsNil" v
        end
    | arrayEncoder elemEnc =>
        let elems (addr' : bool) :=
          fix loop (i : nat) (xs : list value) : M unit :=
            match xs with
            | [] => ret tt
            | x :: xs' =>
                when (Nat.ltb 0 i) (WriteByte " ") ;;
                encodeValue x elemEnc addr' ;;
                loop (S i) xs'
            end in
        match v with
        | Varray _ xs => WriteByte "[" ;; elems addr O xs ;; WriteByte "]"
        | Vslice _ (Some xs) =>
            WriteByte "[" ;; elems true O xs ;; WriteByte "]"
        | Vslice _ None => WriteByte "[" ;; WriteByte "]"
        | _ => mismatch "reflect.Value.Len" v
        end
    | ptrEncoder elemEnc =>
        match v with
        | Vptr _ None => WriteString "nil"
        | Vptr _ (Some x) => encodeValue x elemEnc true
        | _ => mismatch "reflect.Value.IsNil" v
        end
    | condAddrEncoder canAddrEnc elseEnc =>
        if addr then enc canAddrEnc addr else enc elseEnc addr
    | listEncoder =>
        match v with
        | Vlist nodes =>
            WriteByte "(" ;;
            (fix loop (i : nat) (ns : list (option value)) : M unit :=
               match ns with
               | [] => ret tt
               | n :: ns' =>
                   when (Nat.ltb 0 i) (WriteByte " ") ;;
                   (* e.reflectValue(reflect.ValueOf(node.Value)) *)
                   match n with
                   | None => WriteString "nil"
                   | Some x => encodeValue x (valueEncoder x) false
                   end ;;
                   loop (S i) ns'
               end) O nodes ;;
            WriteByte ")"
        | _ => panic (PanicRuntime "interface conversion: not list.List")
        end
    end.

(** [e.reflectValue(v)]. *)
Definition reflectValue (v : value) : M unit :=
  encodeValue v (valueEncoder v) false.

End Engine.

Section Marshal.

Variable isPrintWide : Z -> bool.
Variable MarshalText : value -> string * option error.

(** [e.marshal(v)]: the deferred function recovers a panic that carries an
    [error] and returns it; a [runtime.Error] or a string is panicked
    again. *)
Definition marshal (v : iface) : M (option error) :=
  fun e =>
    match reflectValue isPrintWide MarshalText (ValueOf v) e with
    | (e', Done _) => (e', Done None)
    | (e', Panic (PanicError err)) => (e', Done (Some err))
    | (e', Panic p) => (e', Panic p)
    end.

(** [e.Bytes()]: the unread part of the buffer, a nil slice ([None]) for a
    buffer that never got a byte. *)
Definition Buffer_Bytes (e : encodeState) : option string :=
  match Bytes e with
  | EmptyString => None
  | s => Some s
  end.

(** [Marshal(v)]: the bytes and the error that it returns, or the panic
    that leaves it. *)
Definition Marshal (v : iface) : result (option string * option error) :=
  let e := mkState EmptyString in
  match marshal v e with
  | (_, Done (Some err)) => Done (None, Some err)
  | (e', Done None) => Done (Buffer_Bytes e', None)
  | (_, Panic p) => Panic p
  end.

End Marshal.

(** ** The stream encoder *)

Section Stream.

Variable isPrintWide : Z -> bool.
Variable MarshalText : value -> string * option error.

(** The [io.Writer] under the encoder: the state of the sink, and what a
    [Write] of some bytes does to it and returns. *)
Variable Sink : Type.
Variable Sink_Write : Sink -> string -> Sink * (nat * option error).

(** An [Encoder] writes EDN objects to an output stream. *)
Record Encoder : Type := mkEncoder { w : Sink; err : option error }.

(** [NewEncoder(w)]. *)
Definition NewEncoder (w : Sink) : Encoder := mkEncoder w None.

(** [encodeStatePool], a channel that buffers up to 8 states. *)
Definition statePool : Set := list encodeState.

(** [e.Reset()]. *)
Definition Reset (e : encodeState) : encodeState := mkState EmptyString.

(** [newEncodeState()]: a state of the pool, reset, or a new one. *)
Definition newEncodeState (pool : statePool) : statePool * encodeState :=
  match pool with
  | e :: pool' => (pool', Reset e)
  | [] => (pool, mkState EmptyString)
  end.

(** [putEncodeState(e)]: back to the pool when it has room. *)
Definition putEncodeState (pool : statePool) (e : encodeState) : statePool :=
  if Nat.ltb (List.length pool) 8 then (pool ++ [e])%list else pool.

Definition newline : ascii := "010"%char.

(** [enc.Encode(v)]: the pool and the encoder after the call, and the
    error returned. *)
Definition Encode (pool : statePool) (enc : Encoder) (v : iface)
  : result (statePool * Encoder * option error) :=
  match err enc with
  | Some err => Done (pool, enc, Some err)
  | None =>
      let '(pool, e) := newEncodeState pool in
      match marshal isPrintWide MarshalText v e with
      | (_, Panic p) => Panic p
      | (_, Done (Some err)) => Done (pool, enc, Some err)
      | (e, Done None) =>
          (* Terminate each value with a newline. *)
          let e := fst (WriteByte newline e) in
          let '(w', (_, werr)) := Sink_Write (w enc) (Bytes e) in
          let enc :=
            match werr with
            | Some _ => mkEncoder w' werr      (* enc.err = err *)
            | None => mkEncoder w' (err enc)
            end in
          Done (putEncodeState pool e, enc, werr)
      end
  end.

(** A run of [Encode] for each value of a list, in order, from a pool and
    an encoder: the errors returned, and the pool and the encoder left.
    A panic ends the run. *)
Fixpoint EncodeAll (pool : statePool) (enc : Encoder) (vs : list iface)
  : result (statePool * Encoder * list (option error)) :=
  match vs with
  | [] => Done (pool, enc, [])
  | v :: vs' =>
      match Encode pool enc v with
      | Panic p => Panic p
      | Done (pool', enc', r) =>
          match EncodeAll pool' enc' vs' with
          | Panic p => Panic p
          | Done (pool'', enc'', rs) => Done (pool'', enc'', r :: rs)
          end
      end
  end.

End Stream.

Arguments mkEncoder {Sink} w err.
Arguments w {Sink} e.
Arguments err {Sink} e.
Arguments NewEncoder {Sink} w.
Arguments Encode isPrintWide MarshalText {Sink} Sink_Write pool enc v.
Arguments EncodeAll isPrintWide MarshalText {Sink} Sink_Write pool enc vs.

(** ** Values as Go has them

    [wellFormed v]: the value has the shape of its type, and so have its
    parts, whose type is the one that the type of [v] gives them; what an
    interface holds is not itself an interface, and has [MarshalText] when
    the interface declares it. *)

Definition intKind (k : Kind) : bool :=
  match k with Int | Int8 | Int16 | Int32 | Int64 => true | _ => false end.

Definition uintKind (k : Kind) : bool :=
  match k with
  | Uint | Uint8 | Uint16 | Uint32 | Uint64 | Uintptr => true
  | _ => false
  end.

Definition opaqueKind (k : Kind) : bool :=
  match k with
  | Chan | Func | Complex64 | Complex128 | UnsafePointer => true
  | _ => false
  end.

Fixpoint wellFormed (v : value) : Prop :=
  match v with
  | Vinvalid => False
  | Vbool t _ => kindOf t = Bool
  | Vint t _ => intKind (kindOf t) = true
  | Vuint t _ => uintKind (kindOf t) = true
  | Vfloat t _ => kindOf t = Float32 \/ kindOf t = Float64
  | Vstring t _ => kindOf t = String_
  | Viface t x =>
      kindOf t = Interface
      /\ match x with
         | None => True
         | Some y =>
             wellFormed y /\ Value_Kind y <> Interface
             /\ (Implements t = true ->
                 exists ty, typeOf y = Some ty /\ Implements ty = true)
         end
  | Vptr t p =>
      kindOf t = Ptr
      /\ match p with
         | None => True
         | Some y => wellFormed y /\ typeOf y = elemOf t
         end
  | Vslice t s =>
      kindOf t = Slice
      /\ match s with
         | None => True
         | Some xs =>
             (fix all (xs : list value) : Prop :=
                match xs with
                | [] => True
                | x :: xs' => (wellFormed x /\ typeOf x = elemOf t) /\ all xs'
                end) xs
         end
  | Varray t xs =>
      kindOf t = Array
      /\ (fix all (xs : list value) : Prop :=
            match xs with
            | [] => True
            | x :: xs' => (wellFormed x /\ typeOf x = elemOf t) /\ all xs'
            end) xs
  | Vmap t m =>
      kindOf t = Map
      /\ match m with
         | None => True
         | Some kvs =>
             (fix all (kvs : list (value * value)) : Prop :=
                match kvs with
                | [] => True
                | (k, x) :: kvs' =>
                    (wellFormed k /\ typeOf k = keyOf t
                     /\ wellFormed x /\ typeOf x = elemOf t) /\ all kvs'
                end) kvs
         end
  | Vstruct t _ => kindOf t = Struct /\ t <> timeType /\ t <> listType
  | Vtime _ => True
  | Vlist ns =>
      (fix all (ns : list (option value)) : Prop :=
         match ns with
         | [] => True
         | n :: ns' =>
             match n with
             | None => True
             | Some y => wellFormed y /\ Value_Kind y <> Interface
             end /\ all ns'
         end) ns
  | Vopaque t => opaqueKind (kindOf t) = true
  end.

(** The panics that the encoders mean: the errors of the package, and the
    failed conversion of a nil interface to [TextMarshaler].  The others
    come from a method of [reflect] called on a value of the wrong kind. *)
Definition nilTextMarshaler : string :=
  "interface conversion: interface is nil, not encoding.TextMarshaler".

Definition expectedPanic (p : panicValue) : Prop :=
  match p with
  | PanicError (UnsupportedTypeError _)
  | PanicError (UnsupportedValueError _ _)
  | PanicError (MarshalerError _ _) => True
  | PanicRuntime msg => msg = nilTextMarshaler
  | _ => False
  end.

Definition expected {A : Type} (x : encodeState * result A) : Prop :=
  match snd x with
  | Done _ => True
  | Panic p => expectedPanic p
  end.

(** ** Values and environments for the properties *)

(** The switch of [newTypeEncoder] as the recursion of the model has it:
    through the names of [u], with the sub-encoders of the parts of [u]. *)
Fixpoint byKindOf (t u : rtype) {struct u} : encoderFunc :=
  match u with
  | Tbasic b => basicEncoder b
  | Tiface _ => interfaceEncoder
  | Tmap k e => mapEncoder (typeEncoder k) (typeEncoder e)
  | Tslice e =>
      if Kind_eqb (kindOf e) Uint8 then
        if rtype_eqb t uuidType then encodeUuid else encodeByteSlice
      else sliceEncoder (arrayEncoder (typeEncoder e))
  | Tarray _ e => arrayEncoder (typeEncoder e)
  | Tptr e => ptrEncoder (typeEncoder e)
  | Tnamed _ _ u' => byKindOf t u'
  | Tchan _ | Tfunc _ | Tstruct _ =>
      if rtype_eqb t listType then listEncoder else unsupportedTypeEncoder
  end.

(** An environment to run examples in: no rune above U+00FF is printable,
    and the only [MarshalText] is the one of the type [coolness] of the
    tests, a struct with one boolean field. *)
Definition narrowOnly : Z -> bool := fun _ => false.

Definition coolness : rtype :=
  Tnamed "edn.coolness" (Some ValueRecv) (Tstruct "yes bool").

Definition testMarshalText (m : value) : string * option error :=
  match m with
  | Vstruct _ [Vbool _ yes] =>
      ("cool=" ++ (if yes then "true" else "false"), None)
  | _ => (EmptyString, Some (errorString "MarshalText: not a coolness"))
  end.

(** [K(k)] and [S(s)]. *)
Definition K (k : string) : value := Vstring keywordType k.
Definition S_ (s : string) : value := Vstring symbolType s.

(** [float64(n)] for a positive integer [n]. *)
Definition float64OfInt (n : positive) : spec_float :=
  binary_round 53 1024 false n 0.

(** The slice [[]float64{2, NaN}]. *)
Definition twoAndNaN : value :=
  Vslice (Tslice (Tbasic Bfloat64))
    (Some [Vfloat (Tbasic Bfloat64) (float64OfInt 2);
           Vfloat (Tbasic Bfloat64) S754_nan]).

Definition base64Char (c : ascii) : Prop :=
  In c (bytes_of_string base64.encodeStd) \/ c = "="%char.

(** The array [[3]byte{65, 66, 67}] of the tests. *)
Definition abcArray : value :=
  Varray (Tarray 3 (Tbasic Buint8))
    [Vuint (Tbasic Buint8) 65; Vuint (Tbasic Buint8) 66; Vuint (Tbasic Buint8) 67].

(** A value that [textMarshalerEncoder] hands to [MarshalText] itself: not
    the zero Value, not an interface and not a nil pointer. *)
Definition concrete (v : value) : bool :=
  match v with
  | Vinvalid | Viface _ _ | Vptr _ None => false
  | _ => true
  end.

(** A type with a [MarshalText] that returns the three bytes a, backslash,
    b. *)
Definition rawText : rtype := Tnamed "main.rawText" (Some ValueRecv) (Tstruct "").

Definition rawMarshalText (m : value) : string * option error := ("a\b", None).

(** Two sinks for examples: a closed pipe, where every write fails, and a
    buffer that keeps what is written. *)
Definition closedPipe (w : list string) (b : string)
  : list string * (nat * option error) :=
  (w, (O, Some (errorString "io: read/write on closed pipe"))).

Definition bufferSink (w : list string) (b : string)
  : list string * (nat * option error) :=
  ((w ++ [b])%list, (String.length b, None)).

(** Values of the tests of the repository.  [vector] and [ednMap] are the
    types of the tests; a float is given by its mantissa and exponent. *)
Definition vector : rtype := Tnamed "edn.vector" None (Tslice emptyInterface).
Definition ednMap : rtype :=
  Tnamed "edn.ednMap" None (Tmap emptyInterface emptyInterface).

Definition int_ (n : Z) : value := Vint (Tbasic Bint) n.
Definition string_ (s : string) : value := Vstring (Tbasic Bstring) s.
Definition bool_ (b : bool) : value := Vbool (Tbasic Bbool) b.
Definition float64_ (neg : bool) (m : positive) (e : Z) : value :=
  Vfloat (Tbasic Bfloat64) (S754_finite neg m e).
Definition float32_ (neg : bool) (m : positive) (e : Z) : value :=
  Vfloat (Tbasic Bfloat32) (S754_finite neg m e).

(** A value in a slot of type [interface{}]. *)
Definition any (v : value) : value := Viface emptyInterface (Some v).

(** The Cyrillic letters from U+0410 to U+044F, which are printable. *)
Definition cyrillic (r : Z) : bool := (1040 <=? r) && (r <=? 1103).

(** The time and the UUID of [TestPrimitives]. *)
Definition aTime : value := Vtime (time.mkTime 1394812799 123456789).
Definition aUuid : value :=
  Vslice uuidType
    (Some (map (Vuint (Tbasic Buint8))
             [117; 148; 89; 156; 45; 246; 65; 47;
              140; 160; 142; 243; 20; 72; 217; 35])).


(** ** Definitions for the further properties *)

(** [c] only appends to the buffer: from any state it leaves the bytes that
    were there followed by the bytes it writes from the empty state, with
    the same result. *)
Definition appends {A : Type} (c : M A) : Prop :=
  forall e : encodeState,
    c e = (mkState (Bytes e ++ Bytes (fst (c (mkState EmptyString)))),
           snd (c (mkState EmptyString))).

(** An encoder that never looks at [v.CanAddr()]: one without
    [condAddrEncoder] and [addrTextMarshalerEncoder] among its parts. *)
Fixpoint addrFree (f : encoderFunc) : bool :=
  match f with
  | addrTextMarshalerEncoder | condAddrEncoder _ _ => false
  | mapEncoder k e => addrFree k && addrFree e
  | sliceEncoder a | arrayEncoder a | ptrEncoder a => addrFree a
  | _ => true
  end.

(** A type none of whose parts has [MarshalText] on the pointer receiver
    only. *)
Fixpoint noPtrRecv (t : rtype) : bool :=
  match t with
  | Tnamed _ (Some PtrRecv) _ => false
  | Tnamed _ _ u => noPtrRecv u
  | Tarray _ e | Tslice e | Tptr e | Tchan e => noPtrRecv e
  | Tmap k e => noPtrRecv k && noPtrRecv e
  | _ => true
  end.

(** The kinds with no encoder of their own. *)
Definition unsupportedKind (k : Kind) : bool :=
  match k with
  | Invalid | Complex64 | Complex128 | Chan | Func | Struct | UnsafePointer =>
      true
  | _ => false
  end.

(** A string of printable ASCII characters other than the double quote and
    the backslash. *)
Definition plainChar (c : ascii) : bool :=
  let n := Z_of_byte c in
  (32 <=? n) && (n <? 127) && negb (n =? 34) && negb (n =? 92).

Fixpoint plainASCII (s : string) : bool :=
  match s with
  | EmptyString => true
  | String c s' => plainChar c && plainASCII s'
  end.

(** The bytes of a byte slice that [Marshal] returned ([nil] has none). *)
Definition bytesOrEmpty (bs : option string) : string :=
  match bs with
  | Some s => s
  | None => EmptyString
  end.

(** Reading a decimal integer literal. *)
Definition parseInt (s : string) : option Z :=
  match DecimalString.NilZero.int_of_string s with
  | Some d => Some (Z.of_int d)
  | None => None
  end.

(** *** The type [Set]

    [Set] is [map[interface{}]bool].  The keys are taken from a type with a
    decidable equality, which stands for the dynamic values that Go can
    hash and compare with [==] (and equal themselves: no NaN).  A map is nil
    ([None]) or has its entries, with distinct keys, in the order of
    iteration, which Go does not specify: a new key is put last here. *)
Section SetType.

Variable key : Type.
Variable key_eqb : key -> key -> bool.

Definition Set_ : Type := option (list (key * bool)).

(** [v, ok := m[k]]. *)
Fixpoint mapaccess (m : list (key * bool)) (k : key) : option bool :=
  match m with
  | [] => None
  | (k', b) :: m' => if key_eqb k' k then Some b else mapaccess m' k
  end.

(** [m[k] = b]. *)
Fixpoint mapassign (m : list (key * bool)) (k : key) (b : bool)
  : list (key * bool) :=
  match m with
  | [] => [(k, b)]
  | (k', b') :: m' =>
      if key_eqb k' k then (k', b) :: m' else (k', b') :: mapassign m' k b
  end.

(** [delete(m, k)]. *)
Fixpoint mapdelete (m : list (key * bool)) (k : key) : list (key * bool) :=
  match m with
  | [] => []
  | (k', b') :: m' =>
      if key_eqb k' k then m' else (k', b') :: mapdelete m' k
  end.

(** [set.Add(keys...)]: the assignment to an entry of a nil map is a
    run-time panic. *)
Fixpoint Set_Add (set : Set_) (keys : list key) : result Set_ :=
  match keys with
  | [] => Done set
  | k :: keys' =>
      match set with
      | None => Panic (PanicRuntime "assignment to entry in nil map")
      | Some m => Set_Add (Some (mapassign m k true)) keys'
      end
  end.

(** [set.Discard(k)]. *)
Definition Set_Discard (set : Set_) (k : key) : Set_ :=
  match set with
  | None => None
  | Some m => Some (mapdelete m k)
  end.

(** [set.Has(k)]. *)
Definition Set_Has (set : Set_) (k : key) : bool :=
  match set with
  | None => false
  | Some m =>
      match mapaccess m k with
      | Some _ => true
      | None => false
      end
  end.

(** The keys of a set, and its number of elements. *)
Definition Set_keys (set : Set_) : list key :=
  match set with
  | None => []
  | Some m => map fst m
  end.

End SetType.

Arguments mapaccess {key} key_eqb m k.
Arguments mapassign {key} key_eqb m k b.
Arguments mapdelete {key} key_eqb m k.
Arguments Set_Add {key} key_eqb set keys.
Arguments Set_Discard {key} key_eqb set k.
Arguments Set_Has {key} key_eqb set k.
Arguments Set_keys {key} set.

(** *** The output of a container *)

(** What a loop over the elements has written when it started at index
    [i]: the outputs joined by the separator, after a separator when [i] is
    not 0. *)
Definition joined (sep : string) (i : nat) (outs : list string) : string :=
  match outs with
  | [] => EmptyString
  | _ => (if Nat.ltb 0 i then sep else EmptyString) ++ String.concat sep outs
  end.

(** What one entry of a map writes: the key, a space and the value; for a
    [Set], the key alone. *)
Definition entryOut
    (isPrintWide : Z -> bool) (MarshalText : value -> string * option error)
    (isSet : bool) (keyEnc elemEnc : encoderFunc)
    (kx : value * value) (o : string) : Prop :=
  if isSet then
    encodeValue isPrintWide MarshalText (fst kx) keyEnc false
      (mkState EmptyString) = (mkState o, Done tt)
  else
    exists ko vo : string,
      encodeValue isPrintWide MarshalText (fst kx) keyEnc false
        (mkState EmptyString) = (mkState ko, Done tt)
      /\ encodeValue isPrintWide MarshalText (snd kx) elemEnc false
           (mkState EmptyString) = (mkState vo, Done tt)
      /\ o = ko ++ " " ++ vo.

(** *** String literals

    A byte that is not a control character, and the body of a string
    literal read from left to right: a backslash takes the byte after it
    with it ([esc] tells that the byte before was such a backslash).  The
    body is well escaped when no double quote stands outside an escape and
    the last byte does not open one. *)
Definition printableByte (c : ascii) : bool :=
  let n := Z_of_byte c in (32 <=? n) && negb (n =? 127).

Fixpoint controlFree (s : string) : bool :=
  match s with
  | EmptyString => true
  | String c s' => printableByte c && controlFree s'
  end.

Fixpoint escaped (esc : bool) (s : string) : bool :=
  match s with
  | EmptyString => negb esc
  | String c s' =>
      if esc then escaped false s'
      else if Z_of_byte c =? 92 then escaped true s'
      else if Z_of_byte c =? 34 then false
      else escaped false s'
  end.

(** A byte that stands for itself in a literal, and a string of them. *)
Definition literalByte (c : ascii) : bool :=
  let n := Z_of_byte c in
  printableByte c && negb (n =? 34) && negb (n =? 92).

Fixpoint literalBytes (s : string) : bool :=
  match s with
  | EmptyString => true
  | String c s' => literalByte c && literalBytes s'
  end.

(** * Properties *)

(** ** The classifier *)

Lemma rtype_eqb_eq (a b : rtype) : rtype_eqb a b = true <-> a = b.
Proof.
  unfold rtype_eqb; destruct (rtype_eq_dec a b); split; congruence.
Qed.

Lemma rtype_eqb_refl (a : rtype) : rtype_eqb a a = true.
Proof. now apply rtype_eqb_eq. Qed.

Lemma rtype_eqb_neq (a b : rtype) : a <> b -> rtype_eqb a b = false.
Proof.
  unfold rtype_eqb; destruct (rtype_eq_dec a b); congruence.
Qed.

Lemma Kind_eqb_eq (a b : Kind) : Kind_eqb a b = true <-> a = b.
Proof.
  unfold Kind_eqb; destruct (Kind_eq_dec a b); split; congruence.
Qed.

Lemma Kind_eqb_neq (a b : Kind) : a <> b -> Kind_eqb a b = false.
Proof.
  unfold Kind_eqb; destruct (Kind_eq_dec a b); congruence.
Qed.

Lemma newTypeEncoder_unfold (t : rtype) (allowAddr : bool) :
  newTypeEncoder t allowAddr =
    if rtype_eqb t timeType then timeEncoder
    else if Kind_eqb (kindOf t) Ptr
            && match elemOf t with
               | Some e => rtype_eqb e timeType
               | None => false
               end
    then byKindOf t t
    else if Implements t then textMarshalerEncoder
    else if negb (Kind_eqb (kindOf t) Ptr) && allowAddr && Implements (PtrTo t)
    then newCondAddrEncoder addrTextMarshalerEncoder (byKindOf t t)
    else byKindOf t t.
Proof.
  assert (H : forall u,
    (fix byKind (u : rtype) {struct u} : encoderFunc :=
       match u with
       | Tbasic b => basicEncoder b
       | Tiface _ => interfaceEncoder
       | Tmap k e => mapEncoder (newTypeEncoder k true) (newTypeEncoder e true)
       | Tslice e =>
           if Kind_eqb (kindOf e) Uint8 then
             if rtype_eqb t uuidType then encodeUuid else encodeByteSlice
           else sliceEncoder (arrayEncoder (newTypeEncoder e true))
       | Tarray _ e => arrayEncoder (newTypeEncoder e true)
       | Tptr e => ptrEncoder (newTypeEncoder e true)
       | Tnamed _ _ u' => byKind u'
       | Tchan _ | Tfunc _ | Tstruct _ =>
           if rtype_eqb t listType then listEncoder else unsupportedTypeEncoder
       end) u = byKindOf t u).
  { induction u; simpl; auto. }
  rewrite <- H. destruct t; reflexivity.
Qed.

Lemma kind_not_listType (t : rtype) :
  kindOf t <> Struct -> rtype_eqb t listType = false.
Proof.
  intros Hk. apply rtype_eqb_neq. intros ->. now apply Hk.
Qed.

(** The recursion agrees with the switch on [t.Kind()] of the source. *)
Lemma byKindOf_kindSwitch (t u : rtype) :
  kindOf t = kindOf u -> elemOf t = elemOf u -> keyOf t = keyOf u ->
  byKindOf t u = kindSwitch t.
Proof.
  induction u; intros Hk He Hkey; simpl in *; auto.
  - unfold kindSwitch, basicEncoder. rewrite Hk.
    destruct b; simpl; try reflexivity;
      rewrite kind_not_listType; try reflexivity; rewrite Hk; discriminate.
  - unfold kindSwitch, newArrayEncoder. now rewrite Hk, He.
  - unfold kindSwitch, newSliceEncoder, newArrayEncoder. now rewrite Hk, He.
  - unfold kindSwitch, newMapEncoder. now rewrite Hk, He, Hkey.
  - unfold kindSwitch, newPtrEncoder. now rewrite Hk, He.
  - unfold kindSwitch. now rewrite Hk.
  - unfold kindSwitch. now rewrite Hk.
  - unfold kindSwitch. now rewrite Hk.
  - unfold kindSwitch. now rewrite Hk.
Qed.

(** [newTypeEncoder] satisfies the equation that defines it in the
    source. *)
Lemma newTypeEncoder_eq (t : rtype) (allowAddr : bool) :
  newTypeEncoder t allowAddr =
    if rtype_eqb t timeType then timeEncoder
    else if Kind_eqb (kindOf t) Ptr
            && match elemOf t with
               | Some e => rtype_eqb e timeType
               | None => false
               end
    then newPtrEncoder t
    else if Implements t then textMarshalerEncoder
    else if negb (Kind_eqb (kindOf t) Ptr) && allowAddr && Implements (PtrTo t)
    then newCondAddrEncoder addrTextMarshalerEncoder (newTypeEncoder t false)
    else kindSwitch t.
Proof.
  rewrite (newTypeEncoder_unfold t false), !newTypeEncoder_unfold.
  rewrite (byKindOf_kindSwitch t t) by reflexivity.
  destruct (rtype_eqb t timeType); [reflexivity|].
  destruct (Kind_eqb (kindOf t) Ptr) eqn:Hp; simpl.
  - apply Kind_eqb_eq in Hp.
    destruct (elemOf t) as [e|] eqn:He;
      [destruct (rtype_eqb e timeType); [|now destruct (Implements t)]
      |now destruct (Implements t)].
    unfold kindSwitch. now rewrite Hp.
  - destruct (Implements t); [reflexivity|].
    destruct allowAddr; simpl; reflexivity.
Qed.

(** ** Running encoders *)

Section Run.

Variable isPrintWide : Z -> bool.
Variable MarshalText : value -> string * option error.

Lemma encodeValue_condAddr (v : value) (a b : encoderFunc) (addr : bool) :
  encodeValue isPrintWide MarshalText v (condAddrEncoder a b) addr =
    if addr then encodeValue isPrintWide MarshalText v a addr else encodeValue isPrintWide MarshalText v b addr.
Proof. destruct v; reflexivity. Qed.

(** A value that is not addressable, of a type that is not [time.Time],
    not a pointer and has no [MarshalText] on its value receiver, is
    encoded by the encoder of its kind. *)
Lemma encodeValue_top (v : value) (t : rtype) :
  rtype_eqb t timeType = false -> kindOf t <> Ptr -> Implements t = false ->
  encodeValue isPrintWide MarshalText v (typeEncoder t) false = encodeValue isPrintWide MarshalText v (kindSwitch t) false.
Proof.
  intros Ht Hk Hi. unfold typeEncoder.
  rewrite newTypeEncoder_eq, Ht, (Kind_eqb_neq _ _ Hk), Hi. cbn [negb andb].
  destruct (Implements (PtrTo t)); [|reflexivity].
  unfold newCondAddrEncoder. rewrite encodeValue_condAddr.
  rewrite newTypeEncoder_eq, Ht, (Kind_eqb_neq _ _ Hk), Hi. reflexivity.
Qed.

(** The same, for a value in any position, when the pointer receiver has
    no [MarshalText] either. *)
Lemma typeEncoder_kindSwitch (t : rtype) :
  rtype_eqb t timeType = false -> kindOf t <> Ptr ->
  Implements t = false -> Implements (PtrTo t) = false ->
  typeEncoder t = kindSwitch t.
Proof.
  intros Ht Hk Hi Hp. unfold typeEncoder.
  rewrite newTypeEncoder_eq, Ht, (Kind_eqb_neq _ _ Hk), Hi, Hp.
  now rewrite andb_false_r.
Qed.

Lemma kind_not_timeType (t : rtype) :
  kindOf t <> Struct -> rtype_eqb t timeType = false.
Proof.
  intros Hk. apply rtype_eqb_neq. intros ->. now apply Hk.
Qed.

(** What [Marshal] returns, from the run of the encoder of the value. *)
Lemma Marshal_run (v : value) (e : encodeState) (r : result unit) :
  encodeValue isPrintWide MarshalText v (valueEncoder v) false (mkState EmptyString) = (e, r) ->
  Marshal isPrintWide MarshalText (Some v) =
    match r with
    | Done _ => Done (Buffer_Bytes e, None)
    | Panic (PanicError err) => Done (None, Some err)
    | Panic p => Panic p
    end.
Proof.
  intros H. unfold Marshal, marshal, reflectValue. simpl ValueOf.
  rewrite H. destruct r as [[]|[]]; reflexivity.
Qed.

End Run.

(** ** The tests of the repository

    The model gives the outputs that the tests of the package expect (for a
    map and a set, with the entries in the order of the expected output). *)

Example TestPrimitives :
  let M := Marshal cyrillic testMarshalText in
  M None = Done (Some "nil", None)
  /\ M (Some (bool_ false)) = Done (Some "false", None)
  /\ M (Some (bool_ true)) = Done (Some "true", None)
  /\ M (Some (Vint (Tbasic Bint16) (-32768))) = Done (Some "-32768", None)
  /\ M (Some (Vint (Tbasic Bint64) (-9000000000000000000)))
     = Done (Some "-9000000000000000000", None)
  /\ M (Some (Vuint (Tbasic Buint64) 9223372036854775807))
     = Done (Some "9223372036854775807", None)
  /\ M (Some (float32_ false 13170115 (-22))) = Done (Some "3.14", None)
  /\ M (Some (float64_ false 4937794711068115 780))
     = Done (Some "3.14e+250", None)
  /\ M (Some (string_ ("Russian for hello is " ++ dq ++ "привет" ++ dq ++ ".")))
     = Done (Some (dq ++ "Russian for hello is \" ++ dq ++ "привет\" ++ dq
                      ++ "." ++ dq), None)
  /\ M (Some (K "foo/bar")) = Done (Some ":foo/bar", None)
  /\ M (Some (K ":wow")) = Done (Some ":wow", None)
  /\ M (Some (S_ "foo/bar")) = Done (Some "foo/bar", None)
  /\ M (Some (Vptr (Tptr (Tbasic Bint)) (Some (int_ 33))))
     = Done (Some "33", None)
  /\ M (Some aTime)
     = Done (Some ("#inst " ++ dq ++ "2014-03-14T15:59:59.123456789Z" ++ dq), None)
  /\ M (Some (Vptr (Tptr timeType) (Some aTime)))
     = Done (Some ("#inst " ++ dq ++ "2014-03-14T15:59:59.123456789Z" ++ dq), None)
  /\ M (Some (Vptr (Tptr timeType) None)) = Done (Some "nil", None)
  /\ M (Some aUuid)
     = Done (Some ("#uuid " ++ dq ++ "7594599c-2df6-412f-8ca0-8ef31448d923" ++ dq),
             None)
  /\ M (Some (Vptr (Tptr uuidType) None)) = Done (Some "nil", None).
Proof. cbv zeta. repeat split; vm_compute; reflexivity. Qed.

Example TestUnsupportedType :
  Marshal narrowOnly testMarshalText (Some (Vopaque (Tchan (Tbasic Bint))))
  = Done (None, Some (UnsupportedTypeError (Tchan (Tbasic Bint))))
  /\ Error (UnsupportedTypeError (Tchan (Tbasic Bint)))
     = "edn: unsupported type: chan int".
Proof. split; reflexivity. Qed.

Example TestMaps :
  let M := Marshal narrowOnly testMarshalText in
  M (Some (Vmap (Tmap (Tbasic Bint) (Tbasic Bstring)) None))
  = Done (Some "{}", None)
  /\ M (Some (Vmap (Tmap (Tbasic Buint8) (Tbasic Bfloat32))
                (Some [(Vuint (Tbasic Buint8) 65, float32_ false 13170115 (-22))])))
     = Done (Some "{65 3.14}", None)
  /\ M (Some (Vmap ednMap
          (Some [(any (string_ "x"), any (int_ (-42)));
                 (any (K "y"),
                  any (Vmap ednMap
                         (Some [(any (int_ 1), any (S_ "foo"));
                                (Viface emptyInterface None,
                                 any (Vmap (Tmap (Tbasic Bbool) (Tbasic Bfloat32))
                                        (Some [(bool_ true,
                                                float32_ false 13421773 (-27));
                                               (bool_ false,
                                                float32_ false 13170115 (-22))])))])))])))
     = Done (Some ("{" ++ dq ++ "x" ++ dq
                       ++ " -42, :y {1 foo, nil {true 0.1, false 3.14}}}"), None).
Proof. cbv zeta. repeat split; vm_compute; reflexivity. Qed.

Example TestSlicesAndArrays :
  let M := Marshal narrowOnly testMarshalText in
  M (Some (Vslice (Tslice (Tbasic Bint)) (Some [int_ (-1111)])))
  = Done (Some "[-1111]", None)
  /\ M (Some (Vslice (Tslice vector)
                (Some [Vslice vector
                         (Some [any (int_ (-1));
                                any (Vslice vector (Some [any (int_ 0)]));
                                any (Vmap ednMap
                                       (Some [(any (K "answer"), any (int_ 42))]))])])))
     = Done (Some "[[-1 [0] {:answer 42}]]", None)
  /\ M (Some (Varray (Tarray 4 emptyInterface)
                [any (string_ "a");
                 any (Vslice vector (Some [Viface emptyInterface None;
                                           Viface emptyInterface None]));
                 any (float64_ false 4589115141219035 (-160));
                 any (int_ 5)]))
     = Done (Some ("[" ++ dq ++ "a" ++ dq ++ " [nil nil] 3.14e-33 5]"), None)
  /\ M (Some abcArray) = Done (Some "[65 66 67]", None).
Proof. cbv zeta. repeat split; vm_compute; reflexivity. Qed.

Example TestSets :
  Marshal narrowOnly testMarshalText
    (Some (Vmap setType
             (Some [(any (int_ 2), bool_ true); (any (K ":yolo"), bool_ true);
                    (any (float64_ true 7070651414971679 (-51)), bool_ true);
                    (any (string_ "yo"), bool_ true)])))
  = Done (Some ("#{2 :yolo -3.14 " ++ dq ++ "yo" ++ dq ++ "}"), None).
Proof. vm_compute; reflexivity. Qed.

Example TestLists :
  let M := Marshal narrowOnly testMarshalText in
  M (Some (Vptr (Tptr listType) None)) = Done (Some "nil", None)
  /\ M (Some (Vlist [])) = Done (Some "()", None)
  /\ M (Some (Vlist [Some (int_ 1); Some (K "two")]))
     = Done (Some "(1 :two)", None)
  /\ M (Some (Vptr (Tptr listType)
                (Some (Vlist [Some (K "f");
                              Some (Vslice vector (Some [any (string_ "d");
                                                         any (string_ "e")]));
                              Some (S_ "c");
                              Some (Vmap setType
                                      (Some [(any (string_ "b"), bool_ true)]));
                              Some (string_ "a")]))))
     = Done (Some ("(:f [" ++ dq ++ "d" ++ dq ++ " " ++ dq ++ "e" ++ dq
                       ++ "] c #{" ++ dq ++ "b" ++ dq ++ "} " ++ dq ++ "a" ++ dq
                       ++ ")"), None).
Proof. cbv zeta. repeat split; vm_compute; reflexivity. Qed.

Example TestCustomTextMarshal :
  Marshal narrowOnly testMarshalText (Some (Vstruct coolness [bool_ true]))
  = Done (Some (dq ++ "cool=true" ++ dq), None).
Proof. reflexivity. Qed.

(** The first values of [TestEncoder], one per line in the sink. *)
Example TestEncoder :
  EncodeAll narrowOnly testMarshalText bufferSink [] (NewEncoder [])
    [Some (float64_ false 7205759403792794 (-56)); Some (string_ "hello");
     Some (int_ 42); None; Some (bool_ true)]
  = Done ([mkState ("true" ++ str1 newline)],
          mkEncoder ["0.1" ++ str1 newline;
                     dq ++ "hello" ++ dq ++ str1 newline;
                     "42" ++ str1 newline;
                     "nil" ++ str1 newline;
                     "true" ++ str1 newline] None,
          [None; None; None; None; None]).
Proof. vm_compute; reflexivity. Qed.

(** ** Floats that are not finite *)

(** C1. A float32 or float64 that is NaN, +Inf or -Inf makes [Marshal] fail
    with an [UnsupportedValueError] whose [Str] is the text of the value
    (NaN, +Inf, -Inf); no bytes are returned, and where the float is part of
    a larger value its encoder panics with that error and writes nothing. *)
Theorem C1_nonfinite_float_unsupported
    (isPrintWide : Z -> bool) (MarshalText : value -> string * option error)
    (t : rtype) (bits : Z) (f : spec_float) :
  (kindOf t = Float32 /\ bits = 32) \/ (kindOf t = Float64 /\ bits = 64) ->
  Implements t = false ->
  IsInfOrNaN f = true ->
  let str := match f with
             | S754_nan => "NaN"
             | S754_infinity true => "-Inf"
             | _ => "+Inf"
             end in
  let failure := UnsupportedValueError (Vfloat t f) str in
  Marshal isPrintWide MarshalText (Some (Vfloat t f)) = Done (None, Some failure)
  /\ Error failure = "edn: unsupported value: " ++ str
  /\ forall (e : encodeState) (addr : bool),
       encodeValue isPrintWide MarshalText (Vfloat t f) (floatEncoder bits) addr e
       = (e, Panic (PanicError failure)).
Proof.
  intros Hk Hi Hf str failure.
  assert (Hstr : strconv.FormatFloat f bits = str).
  { destruct Hk as [[_ ->]|[_ ->]]; destruct f as [| [] | |]; try discriminate;
      reflexivity. }
  assert (Hrun : forall e addr,
    encodeValue isPrintWide MarshalText (Vfloat t f) (floatEncoder bits) addr e
    = (e, Panic (PanicError failure))).
  { intros e addr. simpl. unfold bind, when. rewrite Hf, Hstr. reflexivity. }
  split; [|split; [reflexivity|exact Hrun]].
  assert (Hsw : kindSwitch t = floatEncoder bits).
  { unfold kindSwitch. destruct Hk as [[-> ->]|[-> ->]]; reflexivity. }
  rewrite (Marshal_run _ _ _ (mkState EmptyString) (Panic (PanicError failure)));
    [reflexivity|].
  change (valueEncoder (Vfloat t f)) with (typeEncoder t).
  rewrite encodeValue_top, Hsw; auto.
  - apply kind_not_timeType. destruct Hk as [[-> _]|[-> _]]; discriminate.
  - destruct Hk as [[-> _]|[-> _]]; discriminate.
Qed.

Lemma C1_witness :
  Marshal narrowOnly testMarshalText
    (Some (Vfloat (Tbasic Bfloat64) (S754_infinity false)))
  = Done (None,
          Some (UnsupportedValueError
                  (Vfloat (Tbasic Bfloat64) (S754_infinity false)) "+Inf")).
Proof.
  apply (C1_nonfinite_float_unsupported narrowOnly testMarshalText
           (Tbasic Bfloat64) 64 (S754_infinity false)).
  - right. split; reflexivity.
  - reflexivity.
  - reflexivity.
Defined.

(** ** Failures of [Marshal] *)

(** C2. When [Marshal] returns an error, the byte slice it returns is nil:
    the error is the one that an encoder panicked with, which ended the
    encoding of the whole value, and what was written before it is not
    returned. *)
Theorem C2_failure_returns_no_bytes
    (isPrintWide : Z -> bool) (MarshalText : value -> string * option error)
    (v : iface) (bs : option string) (err : error) :
  Marshal isPrintWide MarshalText v = Done (bs, Some err) ->
  bs = None
  /\ exists e' : encodeState,
       reflectValue isPrintWide MarshalText (ValueOf v) (mkState EmptyString)
       = (e', Panic (PanicError err)).
Proof.
  unfold Marshal, marshal.
  destruct (reflectValue isPrintWide MarshalText (ValueOf v) (mkState EmptyString))
    as [e' [[]|[err'|msg|msg]]]; intros H; try discriminate.
  inversion H; subst. split; [reflexivity|]. now exists e'.
Qed.

Lemma C2_witness :
  None = (None : option string)
  /\ exists e' : encodeState,
       reflectValue narrowOnly testMarshalText (ValueOf (Some twoAndNaN))
         (mkState EmptyString)
       = (e', Panic (PanicError
                (UnsupportedValueError (Vfloat (Tbasic Bfloat64) S754_nan) "NaN"))).
Proof.
  apply (C2_failure_returns_no_bytes narrowOnly testMarshalText
           (Some twoAndNaN) None).
  reflexivity.
Defined.

(** The bytes written before the failure stay in the buffer that is given
    up. *)
Example partial_output_is_dropped :
  reflectValue narrowOnly testMarshalText twoAndNaN (mkState EmptyString)
  = (mkState "[2 ",
     Panic (PanicError
              (UnsupportedValueError (Vfloat (Tbasic Bfloat64) S754_nan) "NaN")))
  /\ Marshal narrowOnly testMarshalText (Some twoAndNaN)
     = Done (None,
             Some (UnsupportedValueError (Vfloat (Tbasic Bfloat64) S754_nan) "NaN")).
Proof. split; reflexivity. Qed.

(** ** Keywords *)

Lemma HasPrefix_colon (s : string) :
  HasPrefix s ":" = true -> exists s', s = String ":" s'.
Proof.
  unfold HasPrefix. destruct s as [|c s']; cbn -[ascii_dec]; [easy|].
  destruct (ascii_dec ":" c) as [<-|]; [|easy].
  intros _. now exists s'.
Qed.

Lemma HasPrefix_cons_colon (s : string) : HasPrefix (String ":" s) ":" = true.
Proof.
  unfold HasPrefix. cbn -[ascii_dec].
  destruct (ascii_dec ":" ":") as [_|Hne]; [now destruct s|now elim Hne].
Qed.

Lemma Marshal_keyword
    (isPrintWide : Z -> bool) (MarshalText : value -> string * option error)
    (s : string) :
  Marshal isPrintWide MarshalText (Some (K s))
  = Done (Some (if HasPrefix s ":" then s else ":" ++ s), None).
Proof.
  rewrite (Marshal_run _ _ _
             (mkState (if HasPrefix s ":" then s else ":" ++ s)) (Done tt)).
  - destruct (HasPrefix s ":") eqn:Hp; [|reflexivity].
    apply HasPrefix_colon in Hp as [s' ->]. reflexivity.
  - change (valueEncoder (K s)) with stringEncoder. unfold K.
    cbn -[HasPrefix String.append]. unfold bind, when, ret.
    destruct (HasPrefix s ":"); reflexivity.
Qed.

(** C5. A [Keyword] whose name does not start with a colon is written with
    one colon before the name; a [Keyword] whose name starts with a colon is
    written as it is.  So what is written for a keyword is also what is
    written for the keyword of that name. *)
Theorem C5_keyword_colon_once
    (isPrintWide : Z -> bool) (MarshalText : value -> string * option error)
    (s : string) :
  (HasPrefix s ":" = false ->
     Marshal isPrintWide MarshalText (Some (K s))
     = Done (Some (":" ++ s), None))
  /\ (HasPrefix s ":" = true ->
        Marshal isPrintWide MarshalText (Some (K s))
        = Done (Some s, None))
  /\ (forall out : string,
        Marshal isPrintWide MarshalText (Some (K s))
        = Done (Some out, None) ->
        Marshal isPrintWide MarshalText (Some (K out))
        = Done (Some out, None)).
Proof.
  split; [|split].
  - intros Hp. now rewrite Marshal_keyword, Hp.
  - intros Hp. now rewrite Marshal_keyword, Hp.
  - intros out. rewrite !Marshal_keyword.
    destruct (HasPrefix s ":") eqn:Hp; intros Hout; inversion Hout; subst out.
    + now rewrite Hp.
    + change (":" ++ s) with (String ":" s). now rewrite HasPrefix_cons_colon.
Qed.

Lemma C5_witness :
  Marshal narrowOnly testMarshalText (Some (K "foo/bar"))
  = Done (Some ":foo/bar", None)
  /\ Marshal narrowOnly testMarshalText (Some (K ":wow"))
     = Done (Some ":wow", None).
Proof.
  split.
  - apply (C5_keyword_colon_once narrowOnly testMarshalText "foo/bar").
    reflexivity.
  - apply (C5_keyword_colon_once narrowOnly testMarshalText ":wow").
    reflexivity.
Defined.

(** ** Floats and integers *)

(** C10. The float64 2 and the int 2 are written with the same bytes: the
    literal of the float is the digit alone, with no point and no
    exponent. *)
Theorem C10_float_and_int_share_literal
    (isPrintWide : Z -> bool) (MarshalText : value -> string * option error) :
  exists f : spec_float,
    f = float64OfInt 2
    /\ Marshal isPrintWide MarshalText (Some (Vfloat (Tbasic Bfloat64) f))
       = Done (Some "2", None)
    /\ Marshal isPrintWide MarshalText (Some (Vint (Tbasic Bint) 2))
       = Marshal isPrintWide MarshalText (Some (Vfloat (Tbasic Bfloat64) f)).
Proof.
  exists (float64OfInt 2). repeat split; reflexivity.
Qed.

(** ** Byte slices *)

Lemma append_assoc (a b c : string) : (a ++ b) ++ c = a ++ (b ++ c).
Proof. induction a as [|x a IH]; simpl; [reflexivity|now rewrite IH]. Qed.

Lemma byte_of_Z_of_byte (c : ascii) : byte_of_Z (Z_of_byte c) = c.
Proof.
  unfold byte_of_Z, Z_of_byte.
  assert (H := N_ascii_bounded c).
  rewrite Z.mod_small by lia.
  now rewrite N2Z.id, ascii_N_embedding.
Qed.

(** [v.Bytes()] of the slice made from a string gives the string back. *)
Lemma bytesOf_byteSlice (s : string) :
  bytesOf (map (fun c => Vuint (Tbasic Buint8) (Z_of_byte c)) (bytes_of_string s))
  = Some s.
Proof.
  induction s as [|c s IH]; simpl; [reflexivity|].
  now rewrite IH, byte_of_Z_of_byte.
Qed.

(** Induction on a string three bytes at a time, as [base64.Encode]
    reads it. *)
Lemma string_ind3 (P : string -> Prop) :
  P EmptyString ->
  (forall a, P (String a EmptyString)) ->
  (forall a b, P (String a (String b EmptyString))) ->
  (forall a b c r, P r -> P (String a (String b (String c r)))) ->
  forall s, P s.
Proof.
  intros H0 H1 H2 H3. fix IH 1.
  intros [|a [|b [|c r]]]; [exact H0|apply H1|apply H2|apply H3, IH].
Qed.

Lemma get_In (s : string) : forall (k : nat) (c : ascii),
  String.get k s = Some c -> In c (bytes_of_string s).
Proof.
  induction s as [|x s IH]; intros [|k] c H; simpl in *; try discriminate.
  - left. congruence.
  - right. eauto.
Qed.

Lemma get_Some (s : string) : forall k : nat,
  (k < String.length s)%nat -> exists c, String.get k s = Some c.
Proof.
  induction s as [|x s IH]; intros [|k] H; simpl in *; try lia.
  - now exists x.
  - apply IH. lia.
Qed.

(** Every character that [enc] returns is one of the 64 of the standard
    alphabet. *)
Lemma enc_in_alphabet (n : Z) :
  In (base64.enc n) (bytes_of_string base64.encodeStd).
Proof.
  unfold base64.enc.
  assert (Hb : 0 <= Z.land n 63 < 64).
  { change 63 with (Z.ones 6). rewrite Z.land_ones by lia.
    apply Z.mod_pos_bound. lia. }
  destruct (get_Some base64.encodeStd (Z.to_nat (Z.land n 63))) as [c Hc].
  { change (String.length base64.encodeStd) with 64%nat. lia. }
  rewrite Hc. eapply get_In; eauto.
Qed.

Lemma Encode_alphabet (s : string) :
  Forall base64Char (bytes_of_string (base64.Encode s)).
Proof.
  induction s using string_ind3; simpl;
    repeat (apply Forall_cons || apply Forall_nil);
    try (left; apply enc_in_alphabet); try (right; reflexivity).
  assumption.
Qed.

Lemma Encode_length (s : string) :
  String.length (base64.Encode s) = base64.EncodedLen (String.length s).
Proof.
  unfold base64.EncodedLen.
  induction s using string_ind3; try reflexivity.
  cbn [base64.Encode String.length]. rewrite IHs.
  replace (S (S (S (String.length s))) + 2)%nat
    with ((String.length s + 2) + 1 * 3)%nat by lia.
  rewrite Nat.div_add by lia. lia.
Qed.

(** The run of [encodeByteSlice] on a slice of bytes that is not nil. *)
Lemma encodeByteSlice_run
    (isPrintWide : Z -> bool) (MarshalText : value -> string * option error)
    (t : rtype) (s : string) (addr : bool) (e : encodeState) :
  encodeValue isPrintWide MarshalText (byteSlice t s) encodeByteSlice addr e
  = (mkState (Bytes e ++ "#base64 " ++ dq ++ base64.Encode s ++ dq), Done tt).
Proof.
  unfold byteSlice. cbn [encodeValue]. rewrite bytesOf_byteSlice.
  unfold bind, ret, WriteByte, Write, WriteString. cbn [Bytes].
  destruct (Nat.ltb (String.length s) 1024); cbn [Bytes];
    now rewrite !append_assoc.
Qed.

(** C7. [Marshal([]byte("any + old & data"))] is the literal of the README
    and of the tests.  Every byte slice that is not nil is written as
    [#base64], a space, and between double quotes the base64 of the bytes:
    characters of the standard alphabet and the padding [=] only (so no line
    break), four for every three bytes.  A nil byte slice is written
    [nil]. *)
Theorem C7_byte_slice_is_base64
    (isPrintWide : Z -> bool) (MarshalText : value -> string * option error) :
  Marshal isPrintWide MarshalText (Some (byteSlice byteSliceType "any + old & data"))
  = Done (Some ("#base64 " ++ dq ++ "YW55ICsgb2xkICYgZGF0YQ==" ++ dq), None)
  /\ (forall s : string,
        Marshal isPrintWide MarshalText (Some (byteSlice byteSliceType s))
        = Done (Some ("#base64 " ++ dq ++ base64.Encode s ++ dq), None)
        /\ Forall base64Char (bytes_of_string (base64.Encode s))
        /\ String.length (base64.Encode s)
           = (((String.length s + 2) / 3) * 4)%nat)
  /\ Marshal isPrintWide MarshalText (Some (Vslice byteSliceType None))
     = Done (Some "nil", None).
Proof.
  assert (Hgen : forall s : string,
    Marshal isPrintWide MarshalText (Some (byteSlice byteSliceType s))
    = Done (Some ("#base64 " ++ dq ++ base64.Encode s ++ dq), None)).
  { intros s.
    rewrite (Marshal_run _ _ _
      (mkState ("#base64 " ++ dq ++ base64.Encode s ++ dq)) (Done tt));
      [reflexivity|].
    change (valueEncoder (byteSlice byteSliceType s)) with encodeByteSlice.
    now rewrite encodeByteSlice_run. }
  split; [|split].
  - now rewrite Hgen.
  - intros s. split; [apply Hgen|split].
    + apply Encode_alphabet.
    + apply Encode_length.
  - reflexivity.
Qed.

Lemma kind_Slice_elem (t : rtype) :
  kindOf t = Slice -> exists e, elemOf t = Some e.
Proof.
  induction t as [b| | | | | | | | |]; simpl; intros H;
    try discriminate H; eauto.
  destruct b; discriminate H.
Qed.

Lemma kind_Map_key_elem (t : rtype) :
  kindOf t = Map -> exists k e, keyOf t = Some k /\ elemOf t = Some e.
Proof.
  induction t as [b| | | | | | | | |]; simpl; intros H;
    try discriminate H; eauto.
  destruct b; discriminate H.
Qed.

(** ** Sequences of bytes *)

(** C3, as stated, fails for arrays: [[3]byte] is a sequence of fixed length
    whose elements are single bytes and is not the UUID type, and it is
    written as the sequence of its numbers, not as a [#base64] literal. *)
Lemma C3_counterexample :
  kindOf (Tarray 3 (Tbasic Buint8)) = Array
  /\ kindOf (Tbasic Buint8) = Uint8
  /\ Tarray 3 (Tbasic Buint8) <> uuidType
  /\ typeEncoder (Tarray 3 (Tbasic Buint8)) = arrayEncoder uintEncoder
  /\ Marshal narrowOnly testMarshalText (Some abcArray)
     = Done (Some "[65 66 67]", None)
  /\ HasPrefix "[65 66 67]" "#base64 " = false.
Proof.
  repeat split; try reflexivity. discriminate.
Qed.

(** C3, amended.  A slice type whose elements have kind uint8 and that has
    no [MarshalText] gets the encoder of byte slices, which writes a
    [#base64] literal (and [nil] for a nil slice), unless it is the type
    [uuid.UUID], which gets the encoder of UUIDs; an array type whose
    elements have kind uint8 gets the encoder of arrays, like any other
    array. *)
Theorem C3_byte_slices_not_arrays
    (isPrintWide : Z -> bool) (MarshalText : value -> string * option error)
    (t e : rtype) :
  kindOf t = Slice -> elemOf t = Some e -> kindOf e = Uint8 ->
  Implements t = false -> Implements (PtrTo t) = false ->
  typeEncoder t = (if rtype_eqb t uuidType then encodeUuid else encodeByteSlice)
  /\ (t <> uuidType ->
      (forall s : string,
         Marshal isPrintWide MarshalText (Some (byteSlice t s))
         = Done (Some ("#base64 " ++ dq ++ base64.Encode s ++ dq), None))
      /\ Marshal isPrintWide MarshalText (Some (Vslice t None))
         = Done (Some "nil", None))
  /\ (forall s : string,
        Marshal isPrintWide MarshalText (Some (byteSlice uuidType s))
        = Done (Some ("#uuid " ++ strconv.Quote isPrintWide (uuid.String_ s)),
                None))
  /\ (forall (n : nat) (a : rtype),
        kindOf a = Uint8 ->
        typeEncoder (Tarray n a) = arrayEncoder (typeEncoder a)).
Proof.
  intros Hk He Hu Hi Hp.
  assert (Henc : typeEncoder t
                 = if rtype_eqb t uuidType then encodeUuid else encodeByteSlice).
  { rewrite typeEncoder_kindSwitch; auto.
    - unfold kindSwitch, newSliceEncoder. rewrite Hk, He, Hu. reflexivity.
    - apply kind_not_timeType. rewrite Hk. discriminate.
    - rewrite Hk. discriminate. }
  split; [exact Henc|split; [|split]].
  - intros Hne. rewrite (rtype_eqb_neq _ _ Hne) in Henc. split.
    + intros s.
      rewrite (Marshal_run _ _ _
        (mkState ("#base64 " ++ dq ++ base64.Encode s ++ dq)) (Done tt));
        [reflexivity|].
      change (valueEncoder (byteSlice t s)) with (typeEncoder t).
      now rewrite Henc, encodeByteSlice_run.
    + rewrite (Marshal_run _ _ _ (mkState "nil") (Done tt)); [reflexivity|].
      change (valueEncoder (Vslice t None)) with (typeEncoder t).
      now rewrite Henc.
  - intros s.
    rewrite (Marshal_run _ _ _
      (mkState ("#uuid " ++ strconv.Quote isPrintWide (uuid.String_ s)))
      (Done tt)); [reflexivity|].
    change (valueEncoder (byteSlice uuidType s)) with encodeUuid.
    unfold byteSlice. cbn [encodeValue]. rewrite bytesOf_byteSlice.
    reflexivity.
  - intros n a Ha. unfold typeEncoder.
    rewrite newTypeEncoder_unfold. reflexivity.
Qed.

Lemma C3_witness :
  typeEncoder byteSliceType = encodeByteSlice
  /\ typeEncoder uuidType = encodeUuid.
Proof.
  split.
  - apply (C3_byte_slices_not_arrays narrowOnly testMarshalText
             byteSliceType (Tbasic Buint8)); reflexivity.
  - apply (C3_byte_slices_not_arrays narrowOnly testMarshalText
             uuidType (Tbasic Buint8)); reflexivity.
Defined.

(** ** Text marshalers *)

(** C4, as stated, fails: the bytes that [MarshalText] returns are not taken
    as escaped already.  For the bytes a, backslash, b the output is not
    these three bytes between quotes: the backslash is escaped once more. *)
Lemma C4_counterexample :
  Implements rawText = true
  /\ rawMarshalText (Vstruct rawText []) = ("a\b", None)
  /\ Marshal narrowOnly rawMarshalText (Some (Vstruct rawText []))
     = Done (Some (dq ++ "a\\b" ++ dq), None)
  /\ Marshal narrowOnly rawMarshalText (Some (Vstruct rawText []))
     <> Done (Some (dq ++ "a\b" ++ dq), None).
Proof.
  repeat split; try reflexivity. discriminate.
Qed.

(** C4, amended.  For a value whose type implements [TextMarshaler] (and is
    not [time.Time] or a pointer to it, which have their own encoder) and
    whose [MarshalText] returns bytes and no error, the encoder writes the
    bytes as [fmt.Sprintf] with the verb [%#v] quotes them: between double
    quotes and escaped by [strconv.Quote], whatever they are. *)
Theorem C4_text_marshaler_output_is_quoted
    (isPrintWide : Z -> bool) (MarshalText : value -> string * option error)
    (v : value) (t : rtype) (b : string) :
  typeOf v = Some t ->
  Implements t = true ->
  t <> timeType -> elemOf t <> Some timeType ->
  concrete v = true ->
  MarshalText v = (b, None) ->
  Marshal isPrintWide MarshalText (Some v)
  = Done (Some (strconv.Quote isPrintWide b), None)
  /\ forall (e : encodeState) (addr : bool),
       encodeValue isPrintWide MarshalText v textMarshalerEncoder addr e
       = (mkState (Bytes e ++ strconv.Quote isPrintWide b), Done tt).
Proof.
  intros Ht Hi Hnt Hne Hc Hm.
  assert (Henc : typeEncoder t = textMarshalerEncoder).
  { unfold typeEncoder. rewrite newTypeEncoder_eq, (rtype_eqb_neq _ _ Hnt), Hi.
    destruct (elemOf t) as [a|] eqn:Ha.
    - rewrite (rtype_eqb_neq a timeType) by congruence.
      now rewrite andb_false_r.
    - now rewrite andb_false_r. }
  assert (Hrun : forall e addr,
    encodeValue isPrintWide MarshalText v textMarshalerEncoder addr e
    = (mkState (Bytes e ++ strconv.Quote isPrintWide b), Done tt)).
  { intros e addr.
    assert (Hnil : Kind_eqb (Value_Kind v) Ptr
                   && match v with Vptr _ None => true | _ => false end = false).
    { destruct v as [| | | | | | | ? [?|] | | | | | | |]; try discriminate Hc;
        now rewrite ?andb_false_r. }
    assert (Has : asTextMarshaler v e = (e, Done v)).
    { unfold asTextMarshaler. destruct v; try discriminate Hc;
        rewrite Ht, Hi; reflexivity. }
    assert (Hbody :
      (if Kind_eqb (Value_Kind v) Ptr
          && match v with Vptr _ None => true | _ => false end
       then WriteString "nil"
       else bind (asTextMarshaler v) (fun m => marshalTextOf isPrintWide MarshalText v m)) e
      = (mkState (Bytes e ++ strconv.Quote isPrintWide b), Done tt)).
    { rewrite Hnil. unfold bind. rewrite Has.
      unfold marshalTextOf. rewrite Hm. reflexivity. }
    destruct v; exact Hbody. }
  split; [|exact Hrun].
  rewrite (Marshal_run _ _ _ (mkState (strconv.Quote isPrintWide b)) (Done tt)).
  - reflexivity.
  - assert (Hv : IsValid v = true) by (now destruct v).
    unfold valueEncoder. rewrite Hv, Ht, Henc. apply Hrun.
Qed.

Lemma C4_witness :
  Marshal narrowOnly testMarshalText
    (Some (Vstruct coolness [Vbool (Tbasic Bbool) true]))
  = Done (Some (dq ++ "cool=true" ++ dq), None).
Proof.
  apply (C4_text_marshaler_output_is_quoted narrowOnly testMarshalText
           (Vstruct coolness [Vbool (Tbasic Bbool) true]) coolness "cool=true");
    try reflexivity; discriminate.
Defined.

(** ** Empty containers *)

(** C6. A slice (of elements that are not bytes) is written [[]] when it is
    nil and when it has no element, and so is an array of length 0; a map is
    written [{}] when it is nil and when it has no entry; a [Set] is written
    [#{}] in both cases.  The types are those that the encoders of slices
    and of maps are built for: types with no [MarshalText]. *)
Theorem C6_empty_containers
    (isPrintWide : Z -> bool) (MarshalText : value -> string * option error) :
  (forall t e : rtype,
     kindOf t = Slice -> elemOf t = Some e -> kindOf e <> Uint8 ->
     Implements t = false ->
     Marshal isPrintWide MarshalText (Some (Vslice t None))
     = Done (Some "[]", None)
     /\ Marshal isPrintWide MarshalText (Some (Vslice t (Some [])))
        = Done (Some "[]", None))
  /\ (forall t : rtype,
        kindOf t = Map -> Implements t = false -> t <> setType ->
        Marshal isPrintWide MarshalText (Some (Vmap t None))
        = Done (Some "{}", None)
        /\ Marshal isPrintWide MarshalText (Some (Vmap t (Some [])))
           = Done (Some "{}", None))
  /\ Marshal isPrintWide MarshalText (Some (Vmap setType None))
     = Done (Some "#{}", None)
  /\ Marshal isPrintWide MarshalText (Some (Vmap setType (Some [])))
     = Done (Some "#{}", None)
  /\ (forall a : rtype,
        Marshal isPrintWide MarshalText (Some (Varray (Tarray 0 a) []))
        = Done (Some "[]", None)).
Proof.
  split; [|split; [|split; [|split]]]; try reflexivity.
  - intros t e Hk He Hu Hi.
    assert (Hsw : kindSwitch t = sliceEncoder (arrayEncoder (typeEncoder e))).
    { unfold kindSwitch, newSliceEncoder, newArrayEncoder.
      now rewrite Hk, He, (Kind_eqb_neq _ _ Hu). }
    assert (Ht : rtype_eqb t timeType = false).
    { apply kind_not_timeType. rewrite Hk. discriminate. }
    assert (Hp : kindOf t <> Ptr) by (rewrite Hk; discriminate).
    split.
    + rewrite (Marshal_run _ _ _ (mkState "[]") (Done tt)); [reflexivity|].
      change (valueEncoder (Vslice t None)) with (typeEncoder t).
      now rewrite encodeValue_top, Hsw.
    + rewrite (Marshal_run _ _ _ (mkState "[]") (Done tt)); [reflexivity|].
      change (valueEncoder (Vslice t (Some []))) with (typeEncoder t).
      now rewrite encodeValue_top, Hsw.
  - intros t Hk Hi Hs.
    destruct (kind_Map_key_elem t Hk) as (k & e & Hkey & He).
    assert (Hsw : kindSwitch t = mapEncoder (typeEncoder k) (typeEncoder e)).
    { unfold kindSwitch, newMapEncoder. now rewrite Hk, Hkey, He. }
    assert (Ht : rtype_eqb t timeType = false).
    { apply kind_not_timeType. rewrite Hk. discriminate. }
    assert (Hp : kindOf t <> Ptr) by (rewrite Hk; discriminate).
    split.
    + rewrite (Marshal_run _ _ _ (mkState "{}") (Done tt)); [reflexivity|].
      change (valueEncoder (Vmap t None)) with (typeEncoder t).
      rewrite encodeValue_top, Hsw by assumption.
      cbn [encodeValue]. unfold bind, Value_Type. cbn -[rtype_eqb].
      rewrite (rtype_eqb_neq _ _ Hs). reflexivity.
    + rewrite (Marshal_run _ _ _ (mkState "{}") (Done tt)); [reflexivity|].
      change (valueEncoder (Vmap t (Some []))) with (typeEncoder t).
      rewrite encodeValue_top, Hsw by assumption.
      cbn [encodeValue]. unfold bind, Value_Type. cbn -[rtype_eqb].
      rewrite (rtype_eqb_neq _ _ Hs). reflexivity.
Qed.

Lemma C6_witness :
  (Marshal narrowOnly testMarshalText (Some (Vslice (Tslice (Tbasic Bstring)) None))
   = Done (Some "[]", None)
   /\ Marshal narrowOnly testMarshalText
        (Some (Vslice (Tslice (Tbasic Bstring)) (Some [])))
      = Done (Some "[]", None))
  /\ (Marshal narrowOnly testMarshalText
        (Some (Vmap (Tmap (Tbasic Bint) (Tbasic Bstring)) None))
      = Done (Some "{}", None)
      /\ Marshal narrowOnly testMarshalText
           (Some (Vmap (Tmap (Tbasic Bint) (Tbasic Bstring)) (Some [])))
         = Done (Some "{}", None)).
Proof.
  split.
  - apply (C6_empty_containers narrowOnly testMarshalText)
      with (e := Tbasic Bstring); try reflexivity; discriminate.
  - apply (C6_empty_containers narrowOnly testMarshalText);
      try reflexivity; discriminate.
Defined.

(** ** The stream encoder *)

Section StreamProperties.

Variable isPrintWide : Z -> bool.
Variable MarshalText : value -> string * option error.
Variable Sink : Type.
Variable Sink_Write : Sink -> string -> Sink * (nat * option error).

(** An encoder with a stored error returns it at once, and nothing
    changes. *)
Lemma Encode_failed (pool : statePool) (enc : Encoder Sink) (v : iface)
    (failure : error) :
  err enc = Some failure ->
  Encode isPrintWide MarshalText Sink_Write pool enc v
  = Done (pool, enc, Some failure).
Proof. intros H. unfold Encode. now rewrite H. Qed.

Lemma EncodeAll_failed (vs : list iface) :
  forall (pool : statePool) (enc : Encoder Sink) (failure : error),
  err enc = Some failure ->
  EncodeAll isPrintWide MarshalText Sink_Write pool enc vs
  = Done (pool, enc, map (fun _ => Some failure) vs).
Proof.
  induction vs as [|v vs IH]; intros pool enc failure H; simpl.
  - reflexivity.
  - rewrite (Encode_failed _ _ _ _ H), (IH _ _ _ H). reflexivity.
Qed.

End StreamProperties.

Lemma newEncodeState_empty (pool : statePool) :
  newEncodeState pool = (fst (newEncodeState pool), mkState EmptyString).
Proof. destruct pool; reflexivity. Qed.

(** What [Encode] does for an encoder with no stored error, from the result
    of [marshal] and of the write to the sink. *)
Lemma Encode_unfold
    (isPrintWide : Z -> bool) (MarshalText : value -> string * option error)
    (Sink : Type) (Sink_Write : Sink -> string -> Sink * (nat * option error))
    (pool : statePool) (enc : Encoder Sink) (v : iface) :
  err enc = None ->
  Encode isPrintWide MarshalText Sink_Write pool enc v =
    let pool' := fst (newEncodeState pool) in
    match marshal isPrintWide MarshalText v (mkState EmptyString) with
    | (_, Panic p) => Panic p
    | (_, Done (Some failure)) => Done (pool', enc, Some failure)
    | (e, Done None) =>
        let e' := mkState (Bytes e ++ str1 newline) in
        let '(w', (_, werr)) := Sink_Write (w enc) (Bytes e') in
        Done (putEncodeState pool' e',
              match werr with
              | Some _ => mkEncoder w' werr
              | None => mkEncoder w' (err enc)
              end,
              werr)
    end.
Proof.
  intros H. unfold Encode. rewrite H, newEncodeState_empty. cbn [fst].
  destruct (marshal isPrintWide MarshalText v (mkState EmptyString))
    as [e [[failure|]|p]]; reflexivity.
Qed.

(** C8. When the write to the sink fails in [Encode], the error is stored in
    the encoder, and every later [Encode] returns this error at once: for
    any value, also one whose encoding would fail or panic, the result is
    the stored error, and the sink, the encoder and the pool are as
    before. *)
Theorem C8_sink_failure_is_permanent
    (isPrintWide : Z -> bool) (MarshalText : value -> string * option error)
    (Sink : Type) (Sink_Write : Sink -> string -> Sink * (nat * option error))
    (pool : statePool) (enc : Encoder Sink) (v : iface)
    (e : encodeState) (w' : Sink) (n : nat) (failure : error) :
  err enc = None ->
  marshal isPrintWide MarshalText v (mkState EmptyString) = (e, Done None) ->
  Sink_Write (w enc) (Bytes e ++ str1 newline) = (w', (n, Some failure)) ->
  let failed := mkEncoder w' (Some failure) in
  (exists pool',
     Encode isPrintWide MarshalText Sink_Write pool enc v
     = Done (pool', failed, Some failure))
  /\ (forall (pool2 : statePool) (v2 : iface),
        Encode isPrintWide MarshalText Sink_Write pool2 failed v2
        = Done (pool2, failed, Some failure))
  /\ (forall (pool2 : statePool) (vs : list iface),
        EncodeAll isPrintWide MarshalText Sink_Write pool2 failed vs
        = Done (pool2, failed, map (fun _ => Some failure) vs)).
Proof.
  intros Herr Hm Hw failed. split; [|split].
  - eexists. rewrite Encode_unfold by assumption.
    cbv zeta. rewrite Hm. cbn [Bytes]. rewrite Hw. reflexivity.
  - intros pool2 v2. now apply Encode_failed.
  - intros pool2 vs. now apply EncodeAll_failed.
Qed.

Lemma C8_witness :
  Encode narrowOnly testMarshalText closedPipe [mkState "42"]
    (mkEncoder [] (Some (errorString "io: read/write on closed pipe")))
    (Some (Vopaque (Tchan (Tbasic Bint))))
  = Done ([mkState "42"],
          mkEncoder [] (Some (errorString "io: read/write on closed pipe")),
          Some (errorString "io: read/write on closed pipe")).
Proof.
  apply (C8_sink_failure_is_permanent narrowOnly testMarshalText
           (list string) closedPipe [] (NewEncoder [])
           (Some (Vint (Tbasic Bint) 42)) (mkState "42") [] O
           (errorString "io: read/write on closed pipe"));
    reflexivity.
Defined.

(** C9. When the encoding of the value fails in [Encode], the error is
    returned and nothing else happens: nothing is written to the sink (not
    the newline either) and no error is stored, so the encoder is as
    before.  An [Encode] of a value that encodes, after it, writes the bytes
    of the value and a newline to the sink, and returns no error when the
    sink takes them. *)
Theorem C9_value_failure_does_not_poison
    (isPrintWide : Z -> bool) (MarshalText : value -> string * option error)
    (Sink : Type) (Sink_Write : Sink -> string -> Sink * (nat * option error))
    (pool : statePool) (enc : Encoder Sink) (v : iface)
    (e : encodeState) (failure : error) :
  err enc = None ->
  marshal isPrintWide MarshalText v (mkState EmptyString)
  = (e, Done (Some failure)) ->
  Encode isPrintWide MarshalText Sink_Write pool enc v
  = Done (fst (newEncodeState pool), enc, Some failure)
  /\ forall (pool2 : statePool) (v2 : iface) (e2 : encodeState)
            (w2 : Sink) (n : nat),
       marshal isPrintWide MarshalText v2 (mkState EmptyString)
       = (e2, Done None) ->
       Sink_Write (w enc) (Bytes e2 ++ str1 newline) = (w2, (n, None)) ->
       Encode isPrintWide MarshalText Sink_Write pool2 enc v2
       = Done (putEncodeState (fst (newEncodeState pool2))
                 (mkState (Bytes e2 ++ str1 newline)),
               mkEncoder w2 None, None).
Proof.
  intros Herr Hm. split.
  - rewrite Encode_unfold by assumption. cbv zeta. now rewrite Hm.
  - intros pool2 v2 e2 w2 n Hm2 Hw2.
    rewrite Encode_unfold by assumption.
    cbv zeta. rewrite Hm2. cbn [Bytes]. rewrite Hw2, Herr. reflexivity.
Qed.

Lemma C9_witness :
  Encode narrowOnly testMarshalText bufferSink [] (NewEncoder [])
    (Some (Vfloat (Tbasic Bfloat64) S754_nan))
  = Done ([], NewEncoder [],
          Some (UnsupportedValueError (Vfloat (Tbasic Bfloat64) S754_nan) "NaN"))
  /\ Encode narrowOnly testMarshalText bufferSink [] (NewEncoder [])
       (Some (Vint (Tbasic Bint) 42))
     = Done ([mkState ("42" ++ str1 newline)],
             mkEncoder ["42" ++ str1 newline] None, None).
Proof.
  destruct (C9_value_failure_does_not_poison narrowOnly testMarshalText
              (list string) bufferSink [] (NewEncoder [])
              (Some (Vfloat (Tbasic Bfloat64) S754_nan)) (mkState EmptyString)
              (UnsupportedValueError (Vfloat (Tbasic Bfloat64) S754_nan) "NaN")
              eq_refl eq_refl) as [H1 H2].
  split.
  - exact H1.
  - exact (H2 [] (Some (Vint (Tbasic Bint) 42)) (mkState "42")
              ["42" ++ str1 newline] 3%nat eq_refl eq_refl).
Defined.

(** ** Well-formed values never misuse reflect *)

(** Induction on a value, with the hypothesis for every value inside it. *)
Lemma value_nested_ind (P : value -> Prop) :
  P Vinvalid ->
  (forall t b, P (Vbool t b)) ->
  (forall t i, P (Vint t i)) ->
  (forall t u, P (Vuint t u)) ->
  (forall t f, P (Vfloat t f)) ->
  (forall t s, P (Vstring t s)) ->
  (forall t x, match x with Some y => P y | None => True end -> P (Viface t x)) ->
  (forall t p, match p with Some y => P y | None => True end -> P (Vptr t p)) ->
  (forall t s, match s with Some xs => Forall P xs | None => True end ->
               P (Vslice t s)) ->
  (forall t xs, Forall P xs -> P (Varray t xs)) ->
  (forall t m,
     match m with
     | Some kvs => Forall (fun kx => P (fst kx) /\ P (snd kx)) kvs
     | None => True
     end -> P (Vmap t m)) ->
  (forall t fs, P (Vstruct t fs)) ->
  (forall tm, P (Vtime tm)) ->
  (forall ns,
     Forall (fun n => match n with Some y => P y | None => True end) ns ->
     P (Vlist ns)) ->
  (forall t, P (Vopaque t)) ->
  forall v, P v.
Proof.
  intros Hinv Hbool Hint Huint Hfloat Hstr Hiface Hptr Hslice Harr Hmap
         Hstruct Htime Hlist Hop.
  fix IH 1. intros v.
  destruct v as [|t b|t i|t u|t f|t s|t x|t p|t s|t xs|t m|t fs|tm|ns|t].
  - exact Hinv.
  - apply Hbool.
  - apply Hint.
  - apply Huint.
  - apply Hfloat.
  - apply Hstr.
  - apply Hiface. destruct x as [y|]; [apply IH|exact I].
  - apply Hptr. destruct p as [y|]; [apply IH|exact I].
  - apply Hslice. destruct s as [xs|]; [|exact I].
    induction xs as [|x xs IHxs]; constructor; [apply IH|exact IHxs].
  - apply Harr.
    induction xs as [|x xs IHxs]; constructor; [apply IH|exact IHxs].
  - apply Hmap. destruct m as [kvs|]; [|exact I].
    induction kvs as [|[k x] kvs IHkvs]; constructor;
      [split; apply IH|exact IHkvs].
  - apply Hstruct.
  - apply Htime.
  - apply Hlist.
    induction ns as [|[y|] ns IHns]; constructor;
      [apply IH|exact IHns|exact I|exact IHns].
  - apply Hop.
Qed.

Lemma expected_bind {A B : Type} (c : M A) (k : A -> M B) (e : encodeState) :
  expected (c e) -> (forall a e', expected (k a e')) -> expected (bind c k e).
Proof.
  unfold bind, expected. destruct (c e) as [e' [a|p]]; simpl; intros Hc Hk.
  - apply Hk.
  - exact Hc.
Qed.

Lemma expected_when (b : bool) (c : M unit) (e : encodeState) :
  expected (c e) -> expected (when b c e).
Proof. destruct b; simpl; [trivial|intros _; exact I]. Qed.

Lemma wellFormed_typeOf (v : value) :
  wellFormed v -> exists t, typeOf v = Some t.
Proof. destruct v; simpl; intros H; try contradiction; eauto. Qed.

Lemma wellFormed_valueEncoder (v : value) (t : rtype) :
  typeOf v = Some t -> valueEncoder v = typeEncoder t.
Proof.
  intros H. unfold valueEncoder. rewrite H.
  destruct v; try reflexivity. discriminate H.
Qed.

Section Expected.

Variable isPrintWide : Z -> bool.
Variable MarshalText : value -> string * option error.

Lemma expected_marshalTextOf (v m : value) (t : rtype) (e : encodeState) :
  typeOf v = Some t -> expected (marshalTextOf isPrintWide MarshalText v m e).
Proof.
  intros Ht. unfold marshalTextOf.
  destruct (MarshalText m) as [b [failure|]].
  - unfold bind, ret, Value_Type. rewrite Ht. exact I.
  - exact I.
Qed.

(** [textMarshalerEncoder] on a value whose type implements
    [TextMarshaler]. *)
Lemma expected_textMarshalerEncoder (v : value) (t : rtype)
    (addr : bool) (e : encodeState) :
  wellFormed v -> typeOf v = Some t -> Implements t = true ->
  expected (encodeValue isPrintWide MarshalText v textMarshalerEncoder addr e).
Proof.
  intros Hwf Ht Hi.
  assert (Hm : forall m, expected (marshalTextOf isPrintWide MarshalText v m e)).
  { intros m. now apply expected_marshalTextOf with t. }
  destruct v as [|t' b|t' i|t' u|t' f|t' s|t' x|t' p|t' s|t' xs|t' m|t' fs|tm|ns|t'];
    cbn [encodeValue Value_Kind typeOf];
    try (rewrite andb_false_r; unfold bind, asTextMarshaler;
         cbn [typeOf] in *; injection Ht as <-; rewrite ?Hi; apply Hm).
  - contradiction.
  - (* an interface *)
    rewrite andb_false_r. destruct x as [y|].
    + destruct Hwf as (_ & Hy & _ & Himp). injection Ht as <-.
      destruct (Himp Hi) as (ty & Hty & Hity).
      unfold bind, asTextMarshaler. rewrite Hty, Hity. apply Hm.
    + reflexivity.
  - (* a pointer *)
    destruct p as [y|].
    + rewrite andb_false_r. unfold bind, asTextMarshaler.
      cbn [typeOf] in *. injection Ht as <-. rewrite Hi. apply Hm.
    + destruct Hwf as [Hkind _]. rewrite Hkind. exact I.
Qed.

(** [addrTextMarshalerEncoder] on an addressable value whose pointer
    implements [TextMarshaler]. *)
Lemma expected_addrTextMarshalerEncoder (v : value) (t : rtype)
    (e : encodeState) :
  typeOf v = Some t -> Implements (PtrTo t) = true ->
  expected (encodeValue isPrintWide MarshalText v addrTextMarshalerEncoder true e).
Proof.
  intros Ht Hi.
  assert (H : expected
    (bind (Value_Type v)
       (fun t => bind (asTextMarshaler (Vptr (PtrTo t) (Some v)))
                   (fun m => marshalTextOf isPrintWide MarshalText v m)) e)).
  { unfold Value_Type. rewrite Ht. unfold bind at 1. cbn [ret].
    unfold bind, asTextMarshaler. cbn [typeOf]. rewrite Hi.
    now apply expected_marshalTextOf with t. }
  destruct v; exact H.
Qed.

Lemma wellFormed_timeType (v : value) :
  wellFormed v -> typeOf v = Some timeType -> exists tm, v = Vtime tm.
Proof.
  intros Hwf Ht.
  destruct v; cbn [typeOf wellFormed] in *;
    try contradiction; try discriminate Ht;
    try (injection Ht as ->; cbn in Hwf;
         intuition (try discriminate; try congruence)).
  eauto.
Qed.

(** [timeEncoder] on a value of type [time.Time]. *)
Lemma expected_timeEncoder (v : value) (addr : bool) (e : encodeState) :
  wellFormed v -> typeOf v = Some timeType ->
  expected (encodeValue isPrintWide MarshalText v timeEncoder addr e).
Proof.
  intros Hwf Ht. destruct (wellFormed_timeType v Hwf Ht) as [tm ->]. exact I.
Qed.

(** The encoder of a type is what its parts say, once the switch on the
    kind is known to behave. *)
Lemma expected_dispatch (v : value) (t : rtype) :
  wellFormed v -> typeOf v = Some t ->
  (forall addr e,
     expected (encodeValue isPrintWide MarshalText v (kindSwitch t) addr e)) ->
  forall allowAddr addr e,
    expected (encodeValue isPrintWide MarshalText v
                (newTypeEncoder t allowAddr) addr e).
Proof.
  intros Hwf Ht Hsw allowAddr addr e.
  rewrite newTypeEncoder_eq.
  destruct (rtype_eqb t timeType) eqn:Htt.
  { apply rtype_eqb_eq in Htt. subst t. now apply expected_timeEncoder. }
  destruct (Kind_eqb (kindOf t) Ptr
            && match elemOf t with
               | Some e0 => rtype_eqb e0 timeType
               | None => false
               end) eqn:Hpt.
  { apply andb_true_iff in Hpt as [Hk _]. apply Kind_eqb_eq in Hk.
    replace (newPtrEncoder t) with (kindSwitch t); [apply Hsw|].
    unfold kindSwitch. now rewrite Hk. }
  destruct (Implements t) eqn:Hi.
  { now apply expected_textMarshalerEncoder with t. }
  destruct (negb (Kind_eqb (kindOf t) Ptr) && allowAddr && Implements (PtrTo t))
    eqn:Hc; [|apply Hsw].
  unfold newCondAddrEncoder. rewrite encodeValue_condAddr.
  destruct addr.
  - apply andb_true_iff in Hc as [_ Hp].
    now apply expected_addrTextMarshalerEncoder with t.
  - rewrite newTypeEncoder_eq, Htt, Hpt, Hi, andb_false_r. apply Hsw.
Qed.

Lemma kind_Ptr_elem (t : rtype) :
  kindOf t = Ptr -> exists e, elemOf t = Some e.
Proof.
  induction t as [b| | | | | | | | |]; simpl; intros H;
    try discriminate H; eauto.
  destruct b; discriminate H.
Qed.

Lemma kind_Array_elem (t : rtype) :
  kindOf t = Array -> exists e, elemOf t = Some e.
Proof.
  induction t as [b| | | | | | | | |]; simpl; intros H;
    try discriminate H; eauto.
  destruct b; discriminate H.
Qed.

(** A well-formed value of kind uint8 is a [Vuint]; so the elements of a
    well-formed slice of bytes are bytes. *)
Lemma wellFormed_Uint8 (v : value) (t : rtype) :
  wellFormed v -> typeOf v = Some t -> kindOf t = Uint8 ->
  exists t' u, v = Vuint t' u.
Proof.
  intros Hwf Ht Hk.
  destruct v; cbn [typeOf wellFormed] in *; try contradiction;
    try (injection Ht as <-; rewrite Hk in Hwf; cbn in Hwf;
         intuition (try discriminate; try congruence)); eauto.
  - injection Ht as <-. discriminate Hk.
  - injection Ht as <-. discriminate Hk.
Qed.

Lemma wellFormed_bytesOf (e0 : rtype) (xs : list value) :
  kindOf e0 = Uint8 ->
  (fix all (xs : list value) : Prop :=
     match xs with
     | [] => True
     | x :: xs' => (wellFormed x /\ typeOf x = Some e0) /\ all xs'
     end) xs ->
  exists s, bytesOf xs = Some s.
Proof.
  intros Hk. induction xs as [|x xs IH]; intros Hall.
  - now exists EmptyString.
  - destruct Hall as [[Hwf Ht] Hall]. destruct (IH Hall) as [s Hs].
    destruct (wellFormed_Uint8 x e0 Hwf Ht Hk) as (t' & u & ->).
    cbn [bytesOf]. rewrite Hs. eauto.
Qed.

End Expected.

(** For a goal about the loop of an encoder started at index 0: the
    statement for every index and state, ready for an induction on the
    list. *)
Ltac from_any_index :=
  match goal with
  | |- expected (?loop O ?l ?e) =>
      cut (forall (i : nat) (e' : encodeState), expected (loop i l e'));
      [let H := fresh in intros H; apply H|]
  end.

(** Every panic of the encoding of a well-formed value is an error of the
    package or the failed conversion of a nil interface: no method of
    [reflect] is called on a value of the wrong kind, for any encoder that
    [newTypeEncoder] builds for the type of the value. *)
Theorem wellFormed_expected
    (isPrintWide : Z -> bool) (MarshalText : value -> string * option error)
    (v : value) :
  wellFormed v ->
  forall (t : rtype), typeOf v = Some t ->
  forall (allowAddr addr : bool) (e : encodeState),
    expected (encodeValue isPrintWide MarshalText v
                (newTypeEncoder t allowAddr) addr e).
Proof.
  induction v as [|t b|t i|t u|t f|t s|t x IH|t p IH|t s IH|t xs IH|t m IH
                  |t fs|tm|ns IH|t] using value_nested_ind;
    intros Hwf t0 Ht allowAddr addr e;
    (apply expected_dispatch; [exact Hwf|exact Ht|]);
    clear allowAddr addr e; intros addr e;
    cbn [typeOf] in Ht; try (injection Ht as <-); cbn [wellFormed] in Hwf.
  - contradiction.
  - unfold kindSwitch. rewrite Hwf. cbn [encodeValue]. now destruct b.
  - unfold kindSwitch. destruct (kindOf t); try discriminate Hwf; exact I.
  - unfold kindSwitch. destruct (kindOf t); try discriminate Hwf; exact I.
  - unfold kindSwitch.
    destruct Hwf as [-> | ->]; cbn [encodeValue]; unfold bind, when;
      destruct (IsInfOrNaN f); exact I.
  - unfold kindSwitch. rewrite Hwf. cbn [encodeValue].
    unfold Value_Type. cbn [typeOf].
    apply expected_bind; [exact I|intros t' e1].
    destruct (rtype_eqb t' symbolType || rtype_eqb t' keywordType).
    + apply expected_bind; [apply expected_when; exact I|intros; exact I].
    + apply expected_bind; [exact I|intros; exact I].
  - (* interface *)
    destruct Hwf as [Hk Hx]. unfold kindSwitch. rewrite Hk.
    cbn [encodeValue]. destruct x as [y|]; [|exact I].
    destruct Hx as (Hy & _ & _).
    destruct (wellFormed_typeOf y Hy) as [ty Hty].
    rewrite (wellFormed_valueEncoder y ty Hty). now apply IH.
  - (* pointer *)
    destruct Hwf as [Hk Hp]. unfold kindSwitch, newPtrEncoder. rewrite Hk.
    destruct (kind_Ptr_elem t Hk) as [e0 He0]. rewrite He0.
    cbn [encodeValue]. destruct p as [y|]; [|exact I].
    destruct Hp as [Hy Hty]. rewrite He0 in Hty. now apply IH.
  - (* slice *)
    destruct Hwf as [Hk Hs]. unfold kindSwitch, newSliceEncoder. rewrite Hk.
    destruct (kind_Slice_elem t Hk) as [e0 He0]. rewrite He0 in *.
    destruct (Kind_eqb (kindOf e0) Uint8) eqn:Hu.
    + apply Kind_eqb_eq in Hu.
      assert (Hb : match s with
                   | Some xs => exists b, bytesOf xs = Some b
                   | None => True
                   end).
      { destruct s as [xs|]; [|exact I]. now apply wellFormed_bytesOf with e0. }
      destruct (rtype_eqb t uuidType); cbn [encodeValue];
        destruct s as [xs|]; try exact I;
        destruct Hb as [b Hb]; rewrite Hb;
        first [exact I
              |unfold bind, ret; cbn -[Nat.ltb base64.Encode String.append];
               destruct (Nat.ltb _ _); exact I].
    + unfold newArrayEncoder. rewrite He0. cbn [encodeValue].
      destruct s as [xs|]; [|exact I].
      apply expected_bind; [exact I|intros _ e1].
      apply expected_bind; [|intros; exact I].
      from_any_index. clear e1. revert IH Hs.
      induction xs as [|x xs IHxs]; intros IH Hs i e1; [exact I|].
      inversion IH as [|? ? IHx IHrest]; subst.
      destruct Hs as [[Hx Htx] Hs].
      cbn -[encodeValue bind when WriteByte].
      apply expected_bind; [apply expected_when; exact I|intros _ e2].
      apply expected_bind; [now apply IHx|intros _ e3].
      now apply IHxs.
  - (* array *)
    destruct Hwf as [Hk Hs]. unfold kindSwitch, newArrayEncoder. rewrite Hk.
    destruct (kind_Array_elem t Hk) as [e0 He0]. rewrite He0 in *.
    cbn [encodeValue].
    apply expected_bind; [exact I|intros _ e1].
    apply expected_bind; [|intros; exact I].
    from_any_index. clear e1. revert IH Hs.
    induction xs as [|x xs IHxs]; intros IH Hs i e1; [exact I|].
    inversion IH as [|? ? IHx IHrest]; subst.
    destruct Hs as [[Hx Htx] Hs].
    cbn -[encodeValue bind when WriteByte].
    apply expected_bind; [apply expected_when; exact I|intros _ e2].
    apply expected_bind; [now apply IHx|intros _ e3].
    now apply IHxs.
  - (* map *)
    destruct Hwf as [Hk Hm]. unfold kindSwitch, newMapEncoder. rewrite Hk.
    destruct (kind_Map_key_elem t Hk) as (k0 & e0 & Hk0 & He0).
    rewrite Hk0, He0 in *. cbn [encodeValue].
    unfold Value_Type. cbn [typeOf].
    apply expected_bind; [exact I|intros t' e1].
    apply expected_bind; [apply expected_when; exact I|intros _ e2].
    destruct m as [kvs|]; [|exact I].
    apply expected_bind; [exact I|intros _ e3].
    apply expected_bind; [|intros; exact I].
    from_any_index. clear e3. revert IH Hm.
    induction kvs as [|[k x] kvs IHkvs]; intros IH Hm i e3; [exact I|].
    inversion IH as [|? ? [IHk IHx] IHrest]; subst.
    destruct Hm as [(Hwk & Htk & Hwx & Htx) Hm].
    cbn -[encodeValue bind when WriteByte WriteString].
    apply expected_bind; [apply expected_when; exact I|intros _ e4].
    apply expected_bind; [now apply IHk|intros _ e5].
    apply expected_bind; [|intros _ e6; now apply IHkvs].
    apply expected_when.
    apply expected_bind; [exact I|intros _ e6]. now apply IHx.
  - (* struct *)
    destruct Hwf as (Hk & _ & Hl). unfold kindSwitch. rewrite Hk.
    rewrite (rtype_eqb_neq _ _ Hl). exact I.
  - (* time.Time *)
    exact I.
  - (* list.List *)
    change (kindSwitch listType) with listEncoder. cbn [encodeValue].
    apply expected_bind; [exact I|intros _ e1].
    apply expected_bind; [|intros; exact I].
    from_any_index. clear e1. revert IH Hwf.
    induction ns as [|n ns IHns]; intros IH Hwf i e1; [exact I|].
    inversion IH as [|? ? IHn IHrest]; subst.
    destruct Hwf as [Hn Hwf].
    cbn -[encodeValue bind when WriteByte WriteString valueEncoder].
    apply expected_bind; [apply expected_when; exact I|intros _ e2].
    apply expected_bind; [|intros _ e3; now apply IHns].
    destruct n as [y|]; [|exact I].
    destruct Hn as [Hy _].
    destruct (wellFormed_typeOf y Hy) as [ty Hty].
    rewrite (wellFormed_valueEncoder y ty Hty). now apply IHn.
  - (* chan, func, complex, unsafe.Pointer *)
    unfold kindSwitch.
    rewrite (kind_not_listType t)
      by (intros Hk; rewrite Hk in Hwf; discriminate Hwf).
    destruct (kindOf t); try discriminate Hwf; exact I.
Qed.

(** X26. So [Marshal] of a well-formed value returns bytes, or returns one of
    the three errors of the package, or panics on a nil [TextMarshaler]. *)
Corollary Marshal_wellFormed
    (isPrintWide : Z -> bool) (MarshalText : value -> string * option error)
    (v : value) :
  wellFormed v ->
  match Marshal isPrintWide MarshalText (Some v) with
  | Done (_, None) => True
  | Done (bs, Some failure) => bs = None /\ expectedPanic (PanicError failure)
  | Panic p => p = PanicRuntime nilTextMarshaler
  end.
Proof.
  intros Hwf. destruct (wellFormed_typeOf v Hwf) as [t Ht].
  assert (H := wellFormed_expected isPrintWide MarshalText v Hwf t Ht
                 true false (mkState EmptyString)).
  unfold Marshal, marshal, reflectValue. cbn [ValueOf].
  rewrite (wellFormed_valueEncoder v t Ht). unfold typeEncoder.
  unfold expected in H.
  destruct (encodeValue isPrintWide MarshalText v (newTypeEncoder t true) false
              (mkState EmptyString)) as [e' [[]|[failure|msg|msg]]];
    cbn [snd] in H; cbn.
  - exact I.
  - now split.
  - now rewrite H.
  - contradiction.
Qed.

Example test_values_wellFormed :
  wellFormed abcArray /\ wellFormed twoAndNaN /\ wellFormed aUuid
  /\ wellFormed (Vstruct coolness [bool_ true])
  /\ wellFormed (Vmap setType (Some [(any (int_ 2), bool_ true);
                                     (any (K ":yolo"), bool_ true)])).
Proof.
  cbn. intuition (try discriminate; try reflexivity).
Qed.

(** * Further properties *)

(** ** The buffer is only appended to *)

Lemma append_empty_r (a : string) : a ++ EmptyString = a.
Proof. induction a as [|x a IH]; simpl; [reflexivity|now rewrite IH]. Qed.

Lemma length_append (a b : string) :
  String.length (a ++ b) = (String.length a + String.length b)%nat.
Proof. induction a as [|x a IH]; simpl; [reflexivity|now rewrite IH]. Qed.

Lemma appends_ret {A : Type} (a : A) : appends (ret a).
Proof. intros [b]. unfold ret. cbn. now rewrite append_empty_r. Qed.

Lemma appends_panic {A : Type} (p : panicValue) : appends (@panic A p).
Proof. intros [b]. unfold panic. cbn. now rewrite append_empty_r. Qed.

Lemma appends_WriteString (s : string) : appends (WriteString s).
Proof. intros [b]. reflexivity. Qed.

Lemma appends_bind {A B : Type} (c : M A) (k : A -> M B) :
  appends c -> (forall a, appends (k a)) -> appends (bind c k).
Proof.
  intros Hc Hk e. unfold bind. rewrite (Hc e).
  destruct (c (mkState EmptyString)) as [e0 [a|p]]; cbn [fst snd].
  - rewrite (Hk a (mkState (Bytes e ++ Bytes e0))), (Hk a e0). cbn [Bytes].
    now rewrite append_assoc.
  - reflexivity.
Qed.

Lemma appends_when (b : bool) (c : M unit) : appends c -> appends (when b c).
Proof. destruct b; simpl; [trivial|intros _; apply appends_ret]. Qed.

Lemma appends_if {A : Type} (b : bool) (c d : M A) :
  appends c -> appends d -> appends (if b then c else d).
Proof. now destruct b. Qed.

Section Appends.

Variable isPrintWide : Z -> bool.
Variable MarshalText : value -> string * option error.

Lemma appends_e_string (s : string) : appends (e_string isPrintWide s).
Proof.
  intros [b]. unfold e_string, bind, Len, WriteString, ret. cbn.
  rewrite length_append. repeat f_equal. cbn [String.length]. lia.
Qed.

Lemma appends_e_stringBytes (s : string) :
  appends (e_stringBytes isPrintWide s).
Proof. exact (appends_e_string s). Qed.

Lemma appends_Value_Type (v : value) : appends (Value_Type v).
Proof.
  unfold Value_Type. destruct (typeOf v); [apply appends_ret|apply appends_panic].
Qed.

Lemma appends_asTextMarshaler (v : value) : appends (asTextMarshaler v).
Proof.
  unfold asTextMarshaler.
  destruct v as [| | | | | |t [x|]| | | | | | | |];
    try apply appends_panic;
    cbv zeta;
    match goal with
    | |- appends (match typeOf ?m with _ => _ end) =>
        destruct (typeOf m) as [t'|];
        [destruct (Implements t'); [apply appends_ret|apply appends_panic]
        |apply appends_panic]
    end.
Qed.

Lemma appends_marshalTextOf (v m : value) :
  appends (marshalTextOf isPrintWide MarshalText v m).
Proof.
  unfold marshalTextOf. destruct (MarshalText m) as [b [failure|]].
  - apply appends_bind; [apply appends_ret|intros [err|]].
    + apply appends_bind; [apply appends_Value_Type|intros; apply appends_panic].
    + apply appends_ret.
  - apply appends_bind.
    + apply appends_bind; [apply appends_e_stringBytes|intros; apply appends_ret].
    + intros [err|].
      * apply appends_bind; [apply appends_Value_Type|intros; apply appends_panic].
      * apply appends_ret.
Qed.

End Appends.

(** The steps that the proof of the frame property repeats. *)
Ltac appends_step :=
  first
    [ apply appends_ret
    | apply appends_panic
    | apply appends_WriteString
    | apply appends_e_string
    | apply appends_e_stringBytes
    | apply appends_Value_Type
    | apply appends_asTextMarshaler
    | apply appends_marshalTextOf
    | apply appends_when
    | apply appends_bind; [|intros ?]
    | apply appends_if ].

Lemma encodeValue_sliceEncoder
    (isPrintWide : Z -> bool) (MarshalText : value -> string * option error)
    (v : value) (a : encoderFunc) (addr : bool) :
  encodeValue isPrintWide MarshalText v (sliceEncoder a) addr =
    match v with
    | Vslice _ None => WriteString "[]"
    | Vslice _ (Some _) => encodeValue isPrintWide MarshalText v a addr
    | _ => mismatch "reflect.Value.IsNil" v
    end.
Proof. destruct v as [| | | | | | | |t [xs|]| | | | | |]; reflexivity. Qed.

Ltac appends_loop :=
  match goal with
  | |- appends (?loop O ?l) =>
      cut (forall i : nat, appends (loop i l));
      [let H := fresh in intros H; apply H|]
  end.

Ltac appends_shallow :=
  repeat first
    [ appends_step
    | match goal with
      | |- appends (mismatch _ _) => apply appends_panic
      | |- appends (e_error _) => apply appends_panic
      | |- appends (WriteByte _) => apply appends_WriteString
      | |- appends (Write _) => apply appends_WriteString
      | |- appends (match ?x with _ => _ end) => destruct x
      | |- appends (if ?x then _ else _) => destruct x
      end ].

(** The frame property of the encoders, by induction on the value and on
    the encoder. *)
Lemma encodeValue_appends
    (isPrintWide : Z -> bool) (MarshalText : value -> string * option error)
    (v : value) :
  forall (f : encoderFunc) (addr : bool) (e : encodeState),
    encodeValue isPrintWide MarshalText v f addr e
    = (mkState
         (Bytes e
          ++ Bytes (fst (encodeValue isPrintWide MarshalText v f addr
                           (mkState EmptyString)))),
       snd (encodeValue isPrintWide MarshalText v f addr (mkState EmptyString))).
Proof.
  change (forall f addr,
            appends (encodeValue isPrintWide MarshalText v f addr)).
  induction v as [|t b|t i|t u|t fl|t s|t x IH|t p IH|t s IH|t xs IH|t m IH
                  |t fs|tm|ns IH|t] using value_nested_ind;
    intros f;
    induction f as [| | | | | | | | | | |k IHk el IHel| | |a IHa|el IHel
                    |el IHel|a IHa b' IHb|];
    intros addr;
    try (rewrite encodeValue_condAddr; apply appends_if; [apply IHa|apply IHb]);
    try (rewrite encodeValue_sliceEncoder);
    try (cbn [encodeValue]; appends_shallow; fail).
  - (* interface *)
    cbn [encodeValue]. destruct x as [y|]; [apply IH|apply appends_WriteString].
  - (* pointer *)
    cbn [encodeValue]. destruct p as [y|]; [apply IH|apply appends_WriteString].
  - (* slice, sliceEncoder *)
    destruct s as [xs|]; [apply IHa|apply appends_WriteString].
  - (* slice, arrayEncoder *)
    cbn [encodeValue]. destruct s as [xs|]; [|appends_shallow].
    apply appends_bind; [apply appends_WriteString|intros _].
    apply appends_bind; [|intros _; apply appends_WriteString].
    appends_loop. clear IHel. induction IH as [|x xs Hx _ IHxs]; intros i;
      [apply appends_ret|].
    cbn -[encodeValue bind when WriteByte].
    apply appends_bind; [apply appends_when, appends_WriteString|intros _].
    apply appends_bind; [apply Hx|intros _; apply IHxs].
  - (* array *)
    cbn [encodeValue].
    apply appends_bind; [apply appends_WriteString|intros _].
    apply appends_bind; [|intros _; apply appends_WriteString].
    appends_loop. clear IHel. induction IH as [|x xs Hx _ IHxs]; intros i;
      [apply appends_ret|].
    cbn -[encodeValue bind when WriteByte].
    apply appends_bind; [apply appends_when, appends_WriteString|intros _].
    apply appends_bind; [apply Hx|intros _; apply IHxs].
  - (* map *)
    cbn [encodeValue].
    apply appends_bind; [apply appends_Value_Type|intros t'].
    apply appends_bind; [apply appends_when, appends_WriteString|intros _].
    destruct m as [kvs|]; [|apply appends_WriteString].
    apply appends_bind; [apply appends_WriteString|intros _].
    apply appends_bind; [|intros _; apply appends_WriteString].
    appends_loop. clear IHk IHel.
    induction IH as [|[k0 x0] kvs [Hk Hx] _ IHkvs]; intros i;
      [apply appends_ret|].
    cbn -[encodeValue bind when WriteByte WriteString].
    apply appends_bind; [apply appends_when, appends_WriteString|intros _].
    apply appends_bind; [apply Hk|intros _].
    apply appends_bind; [|intros _; apply IHkvs].
    apply appends_when.
    apply appends_bind; [apply appends_WriteString|intros _; apply Hx].
  - (* list *)
    cbn [encodeValue].
    apply appends_bind; [apply appends_WriteString|intros _].
    apply appends_bind; [|intros _; apply appends_WriteString].
    appends_loop. induction IH as [|n ns Hn _ IHns]; intros i;
      [apply appends_ret|].
    cbn -[encodeValue bind when WriteByte WriteString valueEncoder].
    apply appends_bind; [apply appends_when, appends_WriteString|intros _].
    apply appends_bind; [|intros _; apply IHns].
    destruct n as [y|]; [apply Hn|apply appends_WriteString].
Qed.

(** X1. An encoder only appends to the buffer: it does not read or change the
    bytes that are there, and what it appends and how it ends (done, or the
    panic) do not depend on them. Running it from a state [e] leaves the bytes
    of [e] followed by the bytes of its run from the empty state, with the
    same result. *)
Theorem encoders_only_append
    (isPrintWide : Z -> bool) (MarshalText : value -> string * option error)
    (v : value) (f : encoderFunc) (addr : bool) (e : encodeState) :
  exists (out : string) (r : result unit),
    encodeValue isPrintWide MarshalText v f addr (mkState EmptyString)
    = (mkState out, r)
    /\ encodeValue isPrintWide MarshalText v f addr e
       = (mkState (Bytes e ++ out), r).
Proof.
  destruct (encodeValue isPrintWide MarshalText v f addr (mkState EmptyString))
    as [[out] r] eqn:H.
  exists out, r. split; [reflexivity|].
  rewrite encodeValue_appends, H. reflexivity.
Qed.

(** ** How the encoders of containers compose *)

Lemma joined_cons (sep : string) (i : nat) (o : string) (outs : list string) :
  joined sep i (o :: outs)
  = (if Nat.ltb 0 i then sep else EmptyString) ++ o ++ joined sep (S i) outs.
Proof.
  unfold joined. destruct outs as [|o' outs]; cbn [String.concat Nat.ltb Nat.leb].
  - now rewrite append_empty_r.
  - reflexivity.
Qed.

Section Compose.

Variable isPrintWide : Z -> bool.
Variable MarshalText : value -> string * option error.

(** An encoder that writes [o] from the empty state writes [o] after the
    bytes of any state. *)
Lemma encodeValue_from (v : value) (f : encoderFunc) (addr : bool)
    (o : string) (r : result unit) (e : encodeState) :
  encodeValue isPrintWide MarshalText v f addr (mkState EmptyString)
  = (mkState o, r) ->
  encodeValue isPrintWide MarshalText v f addr e = (mkState (Bytes e ++ o), r).
Proof.
  intros H. rewrite encodeValue_appends, H. reflexivity.
Qed.

(** The elements of an array or slice, all encoded. *)
Lemma elements_joined (el : encoderFunc) (addr : bool)
    (xs : list value) (outs : list string) :
  Forall2 (fun x o =>
             encodeValue isPrintWide MarshalText x el addr (mkState EmptyString)
             = (mkState o, Done tt)) xs outs ->
  forall (i : nat) (e : encodeState),
    (fix loop (i : nat) (xs : list value) {struct xs} : M unit :=
       match xs with
       | [] => ret tt
       | x :: xs' =>
           when (Nat.ltb 0 i) (WriteByte " ") ;;
           encodeValue isPrintWide MarshalText x el addr ;;
           loop (S i) xs'
       end) i xs e
    = (mkState (Bytes e ++ joined " " i outs), Done tt).
Proof.
  induction 1 as [|x o xs outs Hx _ IH]; intros i e.
  - destruct e as [b]. cbn. now rewrite append_empty_r.
  - rewrite joined_cons. unfold bind at 1.
    assert (Hsep : when (Nat.ltb 0 i) (WriteByte " ") e
                   = (mkState (Bytes e ++ (if Nat.ltb 0 i then " " else "")),
                      Done tt)).
    { destruct (Nat.ltb 0 i); destruct e as [b]; cbn;
        [reflexivity|now rewrite append_empty_r]. }
    rewrite Hsep. unfold bind at 1.
    rewrite (encodeValue_from x el addr o (Done tt) _ Hx).
    rewrite IH. cbn [Bytes]. now rewrite !append_assoc.
Qed.

(** The elements of an array or slice up to one whose encoder panics. *)
Lemma elements_panic (el : encoderFunc) (addr : bool)
    (pre : list value) (outs : list string) (x : value) (post : list value)
    (o : string) (p : panicValue) :
  Forall2 (fun x o =>
             encodeValue isPrintWide MarshalText x el addr (mkState EmptyString)
             = (mkState o, Done tt)) pre outs ->
  encodeValue isPrintWide MarshalText x el addr (mkState EmptyString)
  = (mkState o, Panic p) ->
  forall (i : nat) (e : encodeState),
    snd ((fix loop (i : nat) (xs : list value) {struct xs} : M unit :=
            match xs with
            | [] => ret tt
            | x :: xs' =>
                when (Nat.ltb 0 i) (WriteByte " ") ;;
                encodeValue isPrintWide MarshalText x el addr ;;
                loop (S i) xs'
            end) i (pre ++ x :: post)%list e)
    = Panic p.
Proof.
  intros Hpre Hx. induction Hpre as [|y oy pre outs Hy _ IH]; intros i e.
  - cbn [app]. unfold bind at 1.
    destruct (when (Nat.ltb 0 i) (WriteByte " ") e) as [e1 [[]|p1]] eqn:Hw.
    + unfold bind at 1.
      rewrite (encodeValue_from x el addr o (Panic p) _ Hx). reflexivity.
    + destruct (Nat.ltb 0 i); discriminate Hw.
  - cbn [app]. unfold bind at 1.
    destruct (when (Nat.ltb 0 i) (WriteByte " ") e) as [e1 [[]|p1]] eqn:Hw.
    + unfold bind at 1.
      rewrite (encodeValue_from y el addr oy (Done tt) _ Hy). apply IH.
    + destruct (Nat.ltb 0 i); discriminate Hw.
Qed.

End Compose.

Lemma joined_0 (sep : string) (outs : list string) :
  joined sep 0 outs = String.concat sep outs.
Proof. now destruct outs. Qed.

Lemma sliceEncoder_of (t e0 : rtype) :
  kindOf t = Slice -> elemOf t = Some e0 -> kindOf e0 <> Uint8 ->
  kindSwitch t = sliceEncoder (arrayEncoder (typeEncoder e0)).
Proof.
  intros Hk He Hu. unfold kindSwitch, newSliceEncoder, newArrayEncoder.
  now rewrite Hk, He, (Kind_eqb_neq _ _ Hu).
Qed.

(** X2. A slice whose elements all encode is written as their outputs between
    brackets, one space between two of them. The elements are encoded as
    addressable values. *)
Theorem Marshal_slice_joins_elements
    (isPrintWide : Z -> bool) (MarshalText : value -> string * option error)
    (t e0 : rtype) (xs : list value) (outs : list string) :
  kindOf t = Slice -> elemOf t = Some e0 -> kindOf e0 <> Uint8 ->
  Implements t = false ->
  Forall2 (fun x o =>
             encodeValue isPrintWide MarshalText x (typeEncoder e0) true
               (mkState EmptyString)
             = (mkState o, Done tt)) xs outs ->
  Marshal isPrintWide MarshalText (Some (Vslice t (Some xs)))
  = Done (Some ("[" ++ String.concat " " outs ++ "]"), None).
Proof.
  intros Hk He Hu Hi Hxs.
  rewrite (Marshal_run _ _ _
             (mkState ("[" ++ String.concat " " outs ++ "]")) (Done tt));
    [reflexivity|].
  change (valueEncoder (Vslice t (Some xs))) with (typeEncoder t).
  rewrite encodeValue_top, (sliceEncoder_of t e0 Hk He Hu);
    [|apply kind_not_timeType; rewrite Hk; discriminate
     |rewrite Hk; discriminate|exact Hi].
  rewrite encodeValue_sliceEncoder. cbn [encodeValue].
  unfold bind at 1. cbn [WriteByte WriteString]. unfold bind at 1.
  rewrite (elements_joined isPrintWide MarshalText _ true xs outs Hxs).
  cbn. now rewrite joined_0.
Qed.

(** X3. A slice with an element whose encoder panics with an error, after
    elements that encode: [Marshal] returns this error and no bytes, whatever
    comes after the element. *)
Theorem Marshal_slice_first_failure
    (isPrintWide : Z -> bool) (MarshalText : value -> string * option error)
    (t e0 : rtype) (pre : list value) (outs : list string)
    (x : value) (post : list value) (o : string) (failure : error) :
  kindOf t = Slice -> elemOf t = Some e0 -> kindOf e0 <> Uint8 ->
  Implements t = false ->
  Forall2 (fun x o =>
             encodeValue isPrintWide MarshalText x (typeEncoder e0) true
               (mkState EmptyString)
             = (mkState o, Done tt)) pre outs ->
  encodeValue isPrintWide MarshalText x (typeEncoder e0) true
    (mkState EmptyString)
  = (mkState o, Panic (PanicError failure)) ->
  Marshal isPrintWide MarshalText (Some (Vslice t (Some (pre ++ x :: post)%list)))
  = Done (None, Some failure).
Proof.
  intros Hk He Hu Hi Hpre Hx.
  assert (Hrun : snd (encodeValue isPrintWide MarshalText
                        (Vslice t (Some (pre ++ x :: post)%list))
                        (typeEncoder t) false (mkState EmptyString))
                 = Panic (PanicError failure)).
  { rewrite encodeValue_top, (sliceEncoder_of t e0 Hk He Hu);
      [|apply kind_not_timeType; rewrite Hk; discriminate
       |rewrite Hk; discriminate|exact Hi].
    rewrite encodeValue_sliceEncoder. cbn [encodeValue].
    unfold bind at 1. cbn [WriteByte WriteString]. unfold bind at 1.
    assert (H := elements_panic isPrintWide MarshalText _ true pre outs x post
                   o _ Hpre Hx 0%nat (mkState (Bytes (mkState "") ++ str1 "["))).
    match goal with
    | H : snd ?a = _ |- snd (let (e', r) := ?b in _) = _ =>
        change b with a; destruct a as [e' r]
    end.
    cbn [snd] in H. now subst r. }
  destruct (encodeValue isPrintWide MarshalText
              (Vslice t (Some (pre ++ x :: post)%list))
              (typeEncoder t) false (mkState EmptyString)) as [e' r] eqn:Hr.
  cbn [snd] in Hrun. subst r.
  now rewrite (Marshal_run _ _ _ e' (Panic (PanicError failure))).
Qed.

Section ComposeMore.

Variable isPrintWide : Z -> bool.
Variable MarshalText : value -> string * option error.

(** What [Marshal] returns without error is what the encoder of the value
    wrote, from the empty state. *)
Lemma Marshal_Done_run (n : iface) (bs : option string) :
  Marshal isPrintWide MarshalText n = Done (bs, None) ->
  reflectValue isPrintWide MarshalText (ValueOf n) (mkState EmptyString)
  = (mkState (bytesOrEmpty bs), Done tt).
Proof.
  unfold Marshal, marshal.
  destruct (reflectValue isPrintWide MarshalText (ValueOf n)
              (mkState EmptyString)) as [[b] [[]|[failure|msg|msg]]];
    intros H; try discriminate H.
  injection H as <-. unfold Buffer_Bytes. cbn [Bytes]. now destruct b.
Qed.

(** The encoder of [interface{}] on a slot that holds what [n] is. *)
Lemma interfaceEncoder_run (t : rtype) (n : iface) (addr : bool) :
  encodeValue isPrintWide MarshalText (Viface t n) interfaceEncoder addr
  = reflectValue isPrintWide MarshalText (ValueOf n).
Proof. destruct n as [x|]; reflexivity. Qed.

Lemma when_sep (b : bool) (sep : string) (e : encodeState) :
  when b (WriteString sep) e
  = (mkState (Bytes e ++ (if b then sep else EmptyString)), Done tt).
Proof.
  destruct b; destruct e as [s]; cbn; [reflexivity|now rewrite append_empty_r].
Qed.

Lemma entries_joined (isSet : bool) (sep : string)
    (keyEnc elemEnc : encoderFunc)
    (kvs : list (value * value)) (outs : list string) :
  Forall2 (entryOut isPrintWide MarshalText isSet keyEnc elemEnc) kvs outs ->
  forall (i : nat) (e : encodeState),
    (fix range (i : nat) (kvs : list (value * value)) {struct kvs} : M unit :=
       match kvs with
       | [] => ret tt
       | (k, x) :: kvs' =>
           when (Nat.ltb 0 i) (WriteString sep) ;;
           encodeValue isPrintWide MarshalText k keyEnc false ;;
           when (negb isSet)
             (WriteByte " " ;;
              encodeValue isPrintWide MarshalText x elemEnc false) ;;
           range (S i) kvs'
       end) i kvs e
    = (mkState (Bytes e ++ joined sep i outs), Done tt).
Proof.
  induction 1 as [|[k x] o kvs outs Hkx _ IH]; intros i e.
  - destruct e as [b]. cbn. now rewrite append_empty_r.
  - rewrite joined_cons. unfold bind at 1. rewrite when_sep.
    unfold bind at 1. unfold entryOut in Hkx. cbn [fst snd] in Hkx.
    destruct isSet; cbn [negb when].
    + rewrite (encodeValue_from isPrintWide MarshalText k keyEnc false o
                 (Done tt) _ Hkx).
      unfold bind at 1. cbn [ret]. rewrite IH. cbn [Bytes].
      now rewrite !append_assoc.
    + destruct Hkx as (ko & vo & Hk & Hx & ->).
      rewrite (encodeValue_from isPrintWide MarshalText k keyEnc false ko
                 (Done tt) _ Hk).
      unfold bind at 1. unfold bind at 1. cbn [WriteByte WriteString Bytes].
      rewrite (encodeValue_from isPrintWide MarshalText x elemEnc false vo
                 (Done tt) _ Hx).
      rewrite IH. cbn [Bytes]. now rewrite !append_assoc.
Qed.

(** The values of the nodes of a list, all encoded. *)
Lemma nodes_joined (ns : list iface) (bss : list (option string)) :
  Forall2 (fun n bs => Marshal isPrintWide MarshalText n = Done (bs, None))
    ns bss ->
  forall (i : nat) (e : encodeState),
    (fix loop (i : nat) (ns : list (option value)) {struct ns} : M unit :=
       match ns with
       | [] => ret tt
       | n :: ns' =>
           when (Nat.ltb 0 i) (WriteByte " ") ;;
           match n with
           | None => WriteString "nil"
           | Some x =>
               encodeValue isPrintWide MarshalText x (valueEncoder x) false
           end ;;
           loop (S i) ns'
       end) i ns e
    = (mkState (Bytes e ++ joined " " i (map bytesOrEmpty bss)), Done tt).
Proof.
  induction 1 as [|n bs ns bss Hn _ IH]; intros i e.
  - destruct e as [b]. cbn. now rewrite append_empty_r.
  - cbn [map]. rewrite joined_cons. unfold bind at 1.
    unfold WriteByte. rewrite when_sep. unfold bind at 1.
    apply Marshal_Done_run in Hn.
    destruct n as [x|].
    + unfold reflectValue in Hn. cbn [ValueOf] in Hn.
      rewrite (encodeValue_from isPrintWide MarshalText x _ false _
                 (Done tt) _ Hn).
      rewrite IH. cbn [Bytes]. now rewrite !append_assoc.
    + cbn in Hn. injection Hn as Hn. rewrite <- Hn.
      cbn [WriteString]. rewrite IH. cbn [Bytes]. now rewrite !append_assoc.
Qed.

(** The run of [mapEncoder] on a map that is not nil whose entries all
    encode. *)
Lemma mapEncoder_run (keyEnc elemEnc : encoderFunc) (t : rtype)
    (kvs : list (value * value)) (outs : list string)
    (addr : bool) (e : encodeState) :
  Forall2 (entryOut isPrintWide MarshalText (rtype_eqb t setType) keyEnc elemEnc) kvs outs ->
  encodeValue isPrintWide MarshalText (Vmap t (Some kvs))
    (mapEncoder keyEnc elemEnc) addr e
  = (mkState
       (Bytes e ++ (if rtype_eqb t setType then "#" else "") ++ "{"
        ++ String.concat (if rtype_eqb t setType then " " else ", ") outs
        ++ "}"),
     Done tt).
Proof.
  intros Hkvs. cbn [encodeValue]. unfold Value_Type. cbn [typeOf].
  unfold bind at 1. cbn [ret].
  set (isSet := rtype_eqb t setType) in *.
  unfold bind at 1. change (WriteByte "#") with (WriteString "#").
  rewrite when_sep. unfold bind at 1.
  change (WriteByte "{" (mkState (Bytes e ++ (if isSet then "#" else ""))))
    with (mkState ((Bytes e ++ (if isSet then "#" else "")) ++ "{"), Done tt).
  cbv iota. unfold bind at 1.
  rewrite (entries_joined isSet (if isSet then " " else ", ") keyEnc elemEnc
             kvs outs Hkvs).
  rewrite joined_0. unfold WriteByte, WriteString. cbn [Bytes].
  now rewrite !append_assoc.
Qed.

End ComposeMore.

(** X4. A map that is not a [Set], whose keys and values all encode: the
    entries in the order of iteration, each the key, a space and the value,
    with a comma and a space between two entries, between braces. Keys and
    values are encoded as values that are not addressable. *)
Theorem Marshal_map_joins_entries
    (isPrintWide : Z -> bool) (MarshalText : value -> string * option error)
    (t k0 e0 : rtype) (kvs : list (value * value)) (outs : list string) :
  kindOf t = Map -> keyOf t = Some k0 -> elemOf t = Some e0 ->
  Implements t = false -> t <> setType ->
  Forall2 (entryOut isPrintWide MarshalText false
             (typeEncoder k0) (typeEncoder e0)) kvs outs ->
  Marshal isPrintWide MarshalText (Some (Vmap t (Some kvs)))
  = Done (Some ("{" ++ String.concat ", " outs ++ "}"), None).
Proof.
  intros Hk Hkey He Hi Hs Hkvs.
  rewrite (Marshal_run _ _ _
             (mkState ("{" ++ String.concat ", " outs ++ "}")) (Done tt));
    [reflexivity|].
  change (valueEncoder (Vmap t (Some kvs))) with (typeEncoder t).
  rewrite encodeValue_top;
    [|apply kind_not_timeType; rewrite Hk; discriminate
     |rewrite Hk; discriminate|exact Hi].
  replace (kindSwitch t) with (mapEncoder (typeEncoder k0) (typeEncoder e0))
    by (unfold kindSwitch, newMapEncoder; now rewrite Hk, Hkey, He).
  rewrite (mapEncoder_run isPrintWide MarshalText _ _ t kvs outs);
    rewrite (rtype_eqb_neq _ _ Hs); [reflexivity|exact Hkvs].
Qed.

(** X5. A [Set] whose keys all encode: the keys between [#{] and [}], one
    space between two of them. The values of the map are not encoded, whatever
    they are. *)
Theorem Marshal_set_joins_keys
    (isPrintWide : Z -> bool) (MarshalText : value -> string * option error)
    (entries : list (iface * value)) (bss : list (option string)) :
  Forall2 (fun kx bs =>
             Marshal isPrintWide MarshalText (fst kx) = Done (bs, None))
    entries bss ->
  Marshal isPrintWide MarshalText
    (Some (Vmap setType
             (Some (map (fun kx => (Viface emptyInterface (fst kx), snd kx))
                        entries))))
  = Done (Some ("#{" ++ String.concat " " (map bytesOrEmpty bss) ++ "}"), None).
Proof.
  intros Hks.
  rewrite (Marshal_run _ _ _
             (mkState ("#{" ++ String.concat " " (map bytesOrEmpty bss) ++ "}"))
             (Done tt)); [reflexivity|].
  match goal with
  | |- context [valueEncoder ?v] =>
      change (valueEncoder v) with (mapEncoder interfaceEncoder boolEncoder)
  end.
  rewrite (mapEncoder_run isPrintWide MarshalText _ _ setType _
             (map bytesOrEmpty bss)); [reflexivity|].
  rewrite rtype_eqb_refl.
  clear -Hks. induction Hks as [|[n x] bs entries bss Hn _ IH];
    cbn [map]; constructor; [|exact IH].
  unfold entryOut. cbn [fst]. rewrite interfaceEncoder_run.
  now apply Marshal_Done_run.
Qed.

(** X6. A [list.List] whose values all encode: what [Marshal] returns for each
    value, front to back, between parentheses, one space between two of them. *)
Theorem Marshal_list_joins_values
    (isPrintWide : Z -> bool) (MarshalText : value -> string * option error)
    (ns : list iface) (bss : list (option string)) :
  Forall2 (fun n bs => Marshal isPrintWide MarshalText n = Done (bs, None))
    ns bss ->
  Marshal isPrintWide MarshalText (Some (Vlist ns))
  = Done (Some ("(" ++ String.concat " " (map bytesOrEmpty bss) ++ ")"), None).
Proof.
  intros Hns.
  rewrite (Marshal_run _ _ _
             (mkState ("(" ++ String.concat " " (map bytesOrEmpty bss) ++ ")"))
             (Done tt)); [reflexivity|].
  change (valueEncoder (Vlist ns)) with listEncoder.
  cbn [encodeValue]. unfold bind at 1. cbn [WriteByte WriteString].
  unfold bind at 1.
  rewrite (nodes_joined isPrintWide MarshalText ns bss Hns).
  cbn. now rewrite joined_0.
Qed.

(** X7. A slice of [interface{}] whose values all encode: what [Marshal]
    returns for each value, in order, between brackets, one space between two
    of them; a nil interface is written as [Marshal(nil)] is. *)
Theorem Marshal_vector_joins_values
    (isPrintWide : Z -> bool) (MarshalText : value -> string * option error)
    (t : rtype) (ns : list iface) (bss : list (option string)) :
  kindOf t = Slice -> elemOf t = Some emptyInterface -> Implements t = false ->
  Forall2 (fun n bs => Marshal isPrintWide MarshalText n = Done (bs, None))
    ns bss ->
  Marshal isPrintWide MarshalText
    (Some (Vslice t (Some (map (Viface emptyInterface) ns))))
  = Done (Some ("[" ++ String.concat " " (map bytesOrEmpty bss) ++ "]"), None).
Proof.
  intros Hk He Hi Hns.
  rewrite (Marshal_run _ _ _
             (mkState ("[" ++ String.concat " " (map bytesOrEmpty bss) ++ "]"))
             (Done tt)); [reflexivity|].
  match goal with
  | |- context [valueEncoder ?v] => change (valueEncoder v) with (typeEncoder t)
  end.
  rewrite encodeValue_top, (sliceEncoder_of t emptyInterface Hk He);
    [|discriminate|apply kind_not_timeType; rewrite Hk; discriminate
     |rewrite Hk; discriminate|exact Hi].
  rewrite encodeValue_sliceEncoder. cbn [encodeValue].
  unfold bind at 1. cbn [WriteByte WriteString]. unfold bind at 1.
  rewrite (elements_joined isPrintWide MarshalText _ true _
             (map bytesOrEmpty bss)).
  - cbn. now rewrite joined_0.
  - clear -Hns. induction Hns as [|n bs ns bss Hn _ IH];
      cbn [map]; constructor; [|exact IH].
    change (typeEncoder emptyInterface) with interfaceEncoder.
    rewrite interfaceEncoder_run. now apply Marshal_Done_run.
Qed.

Lemma Marshal_slice_joins_elements_witness :
  Marshal narrowOnly testMarshalText
    (Some (Vslice (Tslice (Tbasic Bint)) (Some [int_ 1; int_ 2; int_ 3])))
  = Done (Some "[1 2 3]", None).
Proof.
  apply (Marshal_slice_joins_elements narrowOnly testMarshalText
           (Tslice (Tbasic Bint)) (Tbasic Bint)
           [int_ 1; int_ 2; int_ 3] ["1"; "2"; "3"]);
    try reflexivity; try discriminate.
  repeat constructor.
Defined.

Lemma Marshal_slice_first_failure_witness :
  Marshal narrowOnly testMarshalText
    (Some (Vslice (Tslice (Tbasic Bfloat64))
             (Some [Vfloat (Tbasic Bfloat64) (float64OfInt 2);
                    Vfloat (Tbasic Bfloat64) S754_nan;
                    Vfloat (Tbasic Bfloat64) (float64OfInt 3)])))
  = Done (None,
          Some (UnsupportedValueError (Vfloat (Tbasic Bfloat64) S754_nan) "NaN")).
Proof.
  apply (Marshal_slice_first_failure narrowOnly testMarshalText
           (Tslice (Tbasic Bfloat64)) (Tbasic Bfloat64)
           [Vfloat (Tbasic Bfloat64) (float64OfInt 2)] ["2"]
           (Vfloat (Tbasic Bfloat64) S754_nan)
           [Vfloat (Tbasic Bfloat64) (float64OfInt 3)] EmptyString);
    try reflexivity; try discriminate.
  repeat constructor.
Defined.

Lemma Marshal_map_joins_entries_witness :
  Marshal narrowOnly testMarshalText
    (Some (Vmap (Tmap (Tbasic Bstring) (Tbasic Bint))
             (Some [(string_ "a", int_ 1); (string_ "b", int_ 2)])))
  = Done (Some ("{" ++ dq ++ "a" ++ dq ++ " 1, " ++ dq ++ "b" ++ dq ++ " 2}"),
          None).
Proof.
  apply (Marshal_map_joins_entries narrowOnly testMarshalText
           (Tmap (Tbasic Bstring) (Tbasic Bint)) (Tbasic Bstring) (Tbasic Bint)
           [(string_ "a", int_ 1); (string_ "b", int_ 2)]
           [dq ++ "a" ++ dq ++ " 1"; dq ++ "b" ++ dq ++ " 2"]);
    try reflexivity; try discriminate.
  constructor; [|constructor; [|constructor]].
  - exists (dq ++ "a" ++ dq), "1". repeat split.
  - exists (dq ++ "b" ++ dq), "2". repeat split.
Defined.

Lemma Marshal_set_joins_keys_witness :
  Marshal narrowOnly testMarshalText
    (Some (Vmap setType
             (Some [(any (int_ 2), bool_ true);
                    (any (K "yolo"), bool_ false)])))
  = Done (Some "#{2 :yolo}", None).
Proof.
  apply (Marshal_set_joins_keys narrowOnly testMarshalText
           [(Some (int_ 2), bool_ true); (Some (K "yolo"), bool_ false)]
           [Some "2"; Some ":yolo"]).
  repeat constructor.
Defined.

Lemma Marshal_list_joins_values_witness :
  Marshal narrowOnly testMarshalText
    (Some (Vlist [Some (int_ 1); None; Some (S_ "x")]))
  = Done (Some "(1 nil x)", None).
Proof.
  apply (Marshal_list_joins_values narrowOnly testMarshalText
           [Some (int_ 1); None; Some (S_ "x")]
           [Some "1"; Some "nil"; Some "x"]).
  repeat constructor.
Defined.

Lemma Marshal_vector_joins_values_witness :
  Marshal narrowOnly testMarshalText
    (Some (Vslice vector (Some [any (int_ 1); Viface emptyInterface None])))
  = Done (Some "[1 nil]", None).
Proof.
  apply (Marshal_vector_joins_values narrowOnly testMarshalText vector
           [Some (int_ 1); None] [Some "1"; Some "nil"]);
    try reflexivity.
  repeat constructor.
Defined.

(** ** Which encoder a value gets *)

(** X8. A nil pointer is written [nil], whatever its type: also when the
    pointer type implements [TextMarshaler], whose [MarshalText] is then not
    called (the result is the same for every table of methods). *)
Theorem Marshal_nil_pointer
    (isPrintWide : Z -> bool) (MarshalText : value -> string * option error)
    (t : rtype) :
  kindOf t = Ptr ->
  Marshal isPrintWide MarshalText (Some (Vptr t None)) = Done (Some "nil", None).
Proof.
  intros Hk.
  rewrite (Marshal_run _ _ _ (mkState "nil") (Done tt)); [reflexivity|].
  change (valueEncoder (Vptr t None)) with (typeEncoder t).
  unfold typeEncoder. rewrite newTypeEncoder_eq.
  rewrite (kind_not_timeType t) by (rewrite Hk; discriminate).
  assert (Hsw : kindSwitch t = newPtrEncoder t)
    by (unfold kindSwitch; now rewrite Hk).
  assert (Hp : encodeValue isPrintWide MarshalText (Vptr t None)
                 (newPtrEncoder t) false (mkState EmptyString)
               = (mkState "nil", Done tt)).
  { unfold newPtrEncoder. destruct (kind_Ptr_elem t Hk) as [e0 ->].
    reflexivity. }
  destruct (Kind_eqb (kindOf t) Ptr
            && match elemOf t with
               | Some e => rtype_eqb e timeType
               | None => false
               end); [exact Hp|].
  destruct (Implements t).
  - cbn [encodeValue Value_Kind typeOf]. rewrite Hk. reflexivity.
  - replace (Kind_eqb (kindOf t) Ptr) with true
      by (symmetry; now apply Kind_eqb_eq).
    cbn [negb andb]. now rewrite Hsw.
Qed.

(** X9. A value of a kind with no encoder (a struct that is not [time.Time] or
    [list.List], a channel, a function, a complex number, an unsafe pointer),
    of a type with no [MarshalText] on its value receiver, makes [Marshal]
    fail with an [UnsupportedTypeError] that holds the type. *)
Theorem Marshal_unsupported_type
    (isPrintWide : Z -> bool) (MarshalText : value -> string * option error)
    (v : value) (t : rtype) :
  typeOf v = Some t ->
  unsupportedKind (kindOf t) = true ->
  t <> timeType -> t <> listType -> Implements t = false ->
  Marshal isPrintWide MarshalText (Some v)
  = Done (None, Some (UnsupportedTypeError t)).
Proof.
  intros Ht Hk Hnt Hnl Hi.
  rewrite (Marshal_run _ _ _ (mkState EmptyString)
             (Panic (PanicError (UnsupportedTypeError t)))); [reflexivity|].
  rewrite (wellFormed_valueEncoder v t Ht).
  rewrite encodeValue_top;
    [|now apply rtype_eqb_neq|intros Hp; rewrite Hp in Hk; discriminate Hk
     |exact Hi].
  assert (Hsw : kindSwitch t = unsupportedTypeEncoder).
  { unfold kindSwitch. rewrite (rtype_eqb_neq _ _ Hnl).
    destruct (kindOf t); try discriminate Hk; reflexivity. }
  rewrite Hsw.
  assert (H : @bind rtype unit (Value_Type v)
                (fun t => e_error (UnsupportedTypeError t))
                (mkState EmptyString)
              = (mkState EmptyString,
                 Panic (PanicError (UnsupportedTypeError t)))).
  { unfold bind, Value_Type. rewrite Ht. reflexivity. }
  destruct v; exact H.
Qed.

Lemma Marshal_unsupported_type_witness :
  Marshal narrowOnly testMarshalText (Some (Vopaque (Tbasic Bcomplex128)))
  = Done (None, Some (UnsupportedTypeError (Tbasic Bcomplex128))).
Proof.
  apply (Marshal_unsupported_type narrowOnly testMarshalText
           (Vopaque (Tbasic Bcomplex128)) (Tbasic Bcomplex128));
    try reflexivity; discriminate.
Defined.

Lemma Marshal_nil_pointer_witness :
  Marshal narrowOnly testMarshalText (Some (Vptr (Tptr coolness) None))
  = Done (Some "nil", None).
Proof.
  apply (Marshal_nil_pointer narrowOnly testMarshalText (Tptr coolness)).
  reflexivity.
Defined.

(** X11. When [MarshalText] returns an error, [Marshal] returns a
    [MarshalerError] with the type of the value and this error, and no bytes;
    the bytes that [MarshalText] returned with the error are not used. *)
Theorem Marshal_text_marshaler_failure
    (isPrintWide : Z -> bool) (MarshalText : value -> string * option error)
    (v : value) (t : rtype) (b : string) (failure : error) :
  typeOf v = Some t ->
  Implements t = true ->
  t <> timeType -> elemOf t <> Some timeType ->
  concrete v = true ->
  MarshalText v = (b, Some failure) ->
  Marshal isPrintWide MarshalText (Some v)
  = Done (None, Some (MarshalerError t failure)).
Proof.
  intros Ht Hi Hnt Hne Hc Hm.
  assert (Henc : typeEncoder t = textMarshalerEncoder).
  { unfold typeEncoder. rewrite newTypeEncoder_eq, (rtype_eqb_neq _ _ Hnt), Hi.
    destruct (elemOf t) as [a|] eqn:Ha.
    - rewrite (rtype_eqb_neq a timeType) by congruence.
      now rewrite andb_false_r.
    - now rewrite andb_false_r. }
  rewrite (Marshal_run _ _ _ (mkState EmptyString)
             (Panic (PanicError (MarshalerError t failure)))); [reflexivity|].
  rewrite (wellFormed_valueEncoder v t Ht), Henc.
  assert (Hnil : Kind_eqb (Value_Kind v) Ptr
                 && match v with Vptr _ None => true | _ => false end = false).
  { destruct v as [| | | | | | | ? [?|] | | | | | | |]; try discriminate Hc;
      now rewrite ?andb_false_r. }
  assert (Has : asTextMarshaler v (mkState EmptyString)
                = (mkState EmptyString, Done v)).
  { unfold asTextMarshaler. destruct v; try discriminate Hc;
      rewrite Ht, Hi; reflexivity. }
  assert (Hbody :
    (if Kind_eqb (Value_Kind v) Ptr
        && match v with Vptr _ None => true | _ => false end
     then WriteString "nil"
     else bind (asTextMarshaler v)
            (fun m => marshalTextOf isPrintWide MarshalText v m))
      (mkState EmptyString)
    = (mkState EmptyString, Panic (PanicError (MarshalerError t failure)))).
  { rewrite Hnil. unfold bind. rewrite Has.
    unfold marshalTextOf. rewrite Hm. unfold bind, ret, Value_Type.
    rewrite Ht. reflexivity. }
  destruct v; exact Hbody.
Qed.

Lemma Marshal_text_marshaler_failure_witness :
  Marshal narrowOnly testMarshalText (Some (Vstruct coolness []))
  = Done (None,
          Some (MarshalerError coolness
                  (errorString "MarshalText: not a coolness"))).
Proof.
  apply (Marshal_text_marshaler_failure narrowOnly testMarshalText
           (Vstruct coolness []) coolness EmptyString);
    try reflexivity; discriminate.
Defined.

(** X12. A nil interface in a slice whose element type is an interface with
    [MarshalText]: the conversion to [TextMarshaler] is a run-time error,
    which [marshal] does not turn into an error, so [Marshal] panics. In a
    slice of [interface{}] the nil interface is written [nil]. *)
Theorem Marshal_nil_TextMarshaler_panics
    (isPrintWide : Z -> bool) (MarshalText : value -> string * option error)
    (t : rtype) :
  kindOf t = Interface -> Implements t = true ->
  Marshal isPrintWide MarshalText
    (Some (Vslice (Tslice t) (Some [Viface t None])))
  = Panic (PanicRuntime nilTextMarshaler)
  /\ Marshal isPrintWide MarshalText
       (Some (Vslice (Tslice emptyInterface)
                (Some [Viface emptyInterface None])))
     = Done (Some "[nil]", None).
Proof.
  intros Hk Hi. split; [|reflexivity].
  assert (Henc : typeEncoder t = textMarshalerEncoder).
  { unfold typeEncoder. rewrite newTypeEncoder_eq, Hi.
    rewrite (kind_not_timeType t) by (rewrite Hk; discriminate).
    rewrite (Kind_eqb_neq (kindOf t) Ptr) by (rewrite Hk; discriminate).
    reflexivity. }
  rewrite (Marshal_run _ _ _ (mkState "[")
             (Panic (PanicRuntime nilTextMarshaler))); [reflexivity|].
  match goal with
  | |- context [valueEncoder ?v] =>
      change (valueEncoder v) with (typeEncoder (Tslice t))
  end.
  unfold typeEncoder at 1. rewrite newTypeEncoder_unfold.
  cbn -[newTypeEncoder encodeValue]. rewrite Hk.
  cbn -[newTypeEncoder encodeValue].
  change (newTypeEncoder t true) with (typeEncoder t). rewrite Henc.
  cbn [encodeValue]. unfold bind at 1. cbn [WriteByte WriteString].
  unfold bind at 1. unfold bind at 1. cbn [when Nat.ltb Nat.leb ret].
  unfold bind at 1. cbn [Value_Kind typeOf]. rewrite Hk. reflexivity.
Qed.

Lemma Marshal_nil_TextMarshaler_panics_witness :
  Marshal narrowOnly testMarshalText
    (Some (Vslice (Tslice (Tiface ["MarshalText"]))
             (Some [Viface (Tiface ["MarshalText"]) None])))
  = Panic (PanicRuntime nilTextMarshaler).
Proof.
  apply (Marshal_nil_TextMarshaler_panics narrowOnly testMarshalText
           (Tiface ["MarshalText"])); reflexivity.
Defined.

(** ** Addressable values and pointer receivers *)




(** X14. A [MarshalText] on the pointer receiver is used for the values that
    are addressable only. For a type [t] that is not a pointer and has
    [MarshalText] on its pointer receiver only: an element of a slice is
    written as the quoted bytes that [MarshalText] returns for the pointer to
    it; the same value given to [Marshal] itself is not addressable and is
    encoded by the encoder of its kind. *)
Theorem pointer_receiver_needs_addressable
    (isPrintWide : Z -> bool) (MarshalText : value -> string * option error)
    (t : rtype) (x : value) (b : string) :
  typeOf x = Some t ->
  kindOf t <> Ptr -> kindOf t <> Uint8 -> t <> timeType ->
  Implements t = false -> Implements (PtrTo t) = true ->
  MarshalText (Vptr (PtrTo t) (Some x)) = (b, None) ->
  Marshal isPrintWide MarshalText (Some (Vslice (Tslice t) (Some [x])))
  = Done (Some ("[" ++ strconv.Quote isPrintWide b ++ "]"), None)
  /\ encodeValue isPrintWide MarshalText x (valueEncoder x) false
     = encodeValue isPrintWide MarshalText x (kindSwitch t) false.
Proof.
  intros Ht Hp Hu Hnt Hi Hpi Hm.
  assert (Htt : rtype_eqb t timeType = false) by now apply rtype_eqb_neq.
  split.
  - assert (Henc : typeEncoder t
                   = condAddrEncoder addrTextMarshalerEncoder
                       (newTypeEncoder t false)).
    { unfold typeEncoder. rewrite newTypeEncoder_eq at 1.
      now rewrite Htt, (Kind_eqb_neq _ _ Hp), Hi, Hpi. }
    rewrite (Marshal_run _ _ _
               (mkState ("[" ++ strconv.Quote isPrintWide b ++ "]")) (Done tt));
      [reflexivity|].
    match goal with
    | |- context [valueEncoder ?v] =>
        change (valueEncoder v) with (typeEncoder (Tslice t))
    end.
    unfold typeEncoder at 1. rewrite newTypeEncoder_unfold.
    cbn -[newTypeEncoder encodeValue]. rewrite (Kind_eqb_neq _ _ Hu).
    change (newTypeEncoder t true) with (typeEncoder t). rewrite Henc.
    rewrite encodeValue_sliceEncoder. cbn [encodeValue].
    unfold bind at 1. cbn [WriteByte WriteString].
    unfold bind at 1. unfold bind at 1. cbn [when Nat.ltb Nat.leb ret].
    unfold bind at 1. rewrite encodeValue_condAddr.
    assert (Hrun : forall e,
      encodeValue isPrintWide MarshalText x addrTextMarshalerEncoder true e
      = (mkState (Bytes e ++ strconv.Quote isPrintWide b), Done tt)).
    { intros e.
      assert (H : bind (Value_Type x)
        (fun t => bind (asTextMarshaler (Vptr (PtrTo t) (Some x)))
                    (fun m => marshalTextOf isPrintWide MarshalText x m)) e
        = (mkState (Bytes e ++ strconv.Quote isPrintWide b), Done tt)).
      { unfold Value_Type. rewrite Ht. unfold bind at 1. cbn [ret].
        unfold bind, asTextMarshaler. cbn [typeOf]. rewrite Hpi.
        unfold marshalTextOf. cbn [ret]. rewrite Hm. reflexivity. }
      destruct x; exact H. }
    rewrite Hrun. reflexivity.
  - rewrite (wellFormed_valueEncoder x t Ht).
    now apply encodeValue_top.
Qed.

(** A slice of one struct whose type has [MarshalText] on the pointer
    receiver. *)
Lemma pointer_receiver_needs_addressable_witness :
  Marshal narrowOnly (fun _ => ("p", None))
    (Some (Vslice (Tslice (Tnamed "main.T" (Some PtrRecv) (Tstruct "")))
             (Some [Vstruct (Tnamed "main.T" (Some PtrRecv) (Tstruct "")) []])))
  = Done (Some ("[" ++ dq ++ "p" ++ dq ++ "]"), None).
Proof.
  apply (pointer_receiver_needs_addressable narrowOnly (fun _ => ("p", None))
           (Tnamed "main.T" (Some PtrRecv) (Tstruct ""))
           (Vstruct (Tnamed "main.T" (Some PtrRecv) (Tstruct "")) []) "p");
    try reflexivity; discriminate.
Defined.

(** ** Pointers are transparent *)

(** An encoder with no [condAddrEncoder] among its parts does the same on
    an addressable value and on one that is not. *)
Lemma addrFree_irrelevant
    (isPrintWide : Z -> bool) (MarshalText : value -> string * option error)
    (f : encoderFunc) :
  addrFree f = true ->
  forall (v : value) (a a' : bool),
    encodeValue isPrintWide MarshalText v f a
    = encodeValue isPrintWide MarshalText v f a'.
Proof.
  induction f as [| | | | | | | | | | |k IHk el IHel| | |ar IHa|el IHel
                  |el IHel|ca IHa cb IHb|];
    intros Hf v a a'; try discriminate Hf;
    try (destruct v; reflexivity).
  - (* sliceEncoder *)
    rewrite !encodeValue_sliceEncoder.
    destruct v as [| | | | | | | |t [xs|]| | | | | |]; try reflexivity.
    now apply IHa.
  - (* arrayEncoder *)
    cbn [addrFree] in Hf.
    destruct v as [| | | | | | | |t [xs|]|t xs| | | | |]; try reflexivity.
    cbn [encodeValue]. f_equal.
    match goal with
    | |- (fun _ : unit => ?l1 O xs ;; _) = (fun _ : unit => ?l2 O xs ;; _) =>
        cut (forall i : nat, l1 i xs = l2 i xs);
        [intros H; now rewrite H|]
    end.
    induction xs as [|x xs IHxs]; intros i; [reflexivity|].
    cbn -[encodeValue bind when WriteByte].
    rewrite (IHel Hf x a a'), IHxs. reflexivity.
Qed.

(** The encoder of a type with no [MarshalText] on a pointer receiver in
    any of its parts has no [condAddrEncoder]. *)
Lemma noPtrRecv_addrFree (u : rtype) :
  (forall t : rtype, noPtrRecv u = true -> addrFree (byKindOf t u) = true)
  /\ (noPtrRecv u = true -> addrFree (newTypeEncoder u true) = true).
Proof.
  assert (Hnew : forall u : rtype,
            noPtrRecv u = true -> addrFree (byKindOf u u) = true ->
            addrFree (newTypeEncoder u true) = true).
  { intros u0 Hn Hb. rewrite newTypeEncoder_unfold.
    destruct (rtype_eqb u0 timeType); [reflexivity|].
    destruct (Kind_eqb (kindOf u0) Ptr
              && match elemOf u0 with
                 | Some e => rtype_eqb e timeType
                 | None => false
                 end); [exact Hb|].
    destruct (Implements u0) eqn:Hi; [reflexivity|].
    replace (Implements (PtrTo u0)) with false; [now rewrite andb_false_r|].
    destruct u0 as [| | | | | | | | |n [[]|] u0]; try reflexivity;
      discriminate. }
  induction u as [b|n e IHe|e IHe|k IHk e IHe|e IHe|e IHe|sg|ms|fs|n mt u IHu].
  - split; [intros t _|intros Hn; apply Hnew; [exact Hn|]];
      cbn [byKindOf]; unfold basicEncoder;
      destruct (basic_kind b); reflexivity.
  - split; [intros t Hn|intros Hn; apply Hnew; [exact Hn|]];
      cbn [byKindOf addrFree]; now apply IHe.
  - split; [intros t Hn|intros Hn; apply Hnew; [exact Hn|]];
      cbn [byKindOf];
      destruct (Kind_eqb (kindOf e) Uint8);
      try (match goal with |- context [rtype_eqb ?a ?b] =>
             destruct (rtype_eqb a b) end; reflexivity);
      cbn [addrFree]; now apply IHe.
  - assert (Hk : noPtrRecv (Tmap k e) = true -> noPtrRecv k = true
                 /\ noPtrRecv e = true)
      by (cbn [noPtrRecv]; intros H; now apply andb_prop in H).
    split; [intros t Hn|intros Hn; apply Hnew; [exact Hn|]];
      cbn [byKindOf addrFree]; destruct (Hk Hn) as [H1 H2];
      unfold typeEncoder;
      now rewrite (proj2 IHk H1), (proj2 IHe H2).
  - split; [intros t Hn|intros Hn; apply Hnew; [exact Hn|]];
      cbn [byKindOf addrFree]; now apply IHe.
  - split; [intros t Hn|intros Hn; apply Hnew; [exact Hn|]];
      cbn [byKindOf];
      match goal with |- context [rtype_eqb ?a ?b] =>
        destruct (rtype_eqb a b) end; reflexivity.
  - split; [intros t Hn|intros Hn; apply Hnew; [exact Hn|]];
      cbn [byKindOf];
      match goal with |- context [rtype_eqb ?a ?b] =>
        destruct (rtype_eqb a b) end; reflexivity.
  - split; [intros t Hn|intros Hn; apply Hnew; [exact Hn|]]; reflexivity.
  - split; [intros t Hn|intros Hn; apply Hnew; [exact Hn|]];
      cbn [byKindOf];
      match goal with |- context [rtype_eqb ?a ?b] =>
        destruct (rtype_eqb a b) end; reflexivity.
  - assert (Hu : noPtrRecv (Tnamed n mt u) = true -> noPtrRecv u = true)
      by (cbn [noPtrRecv]; destruct mt as [[]|]; easy).
    split; [intros t Hn|intros Hn; apply Hnew; [exact Hn|]];
      cbn [byKindOf]; apply IHu; now apply Hu.
Qed.

(** X15. A pointer is encoded as what it points to. For a value whose type has
    no [MarshalText] of its own and none on a pointer receiver in its parts,
    [Marshal] of a pointer to the value returns what [Marshal] of the value
    returns (the bytes, the error or the panic), and so does a pointer to this
    pointer. *)
Theorem Marshal_pointer_transparent
    (isPrintWide : Z -> bool) (MarshalText : value -> string * option error)
    (t : rtype) (x : value) :
  typeOf x = Some t ->
  noPtrRecv t = true ->
  Implements (PtrTo t) = false ->
  Marshal isPrintWide MarshalText (Some (Vptr (PtrTo t) (Some x)))
  = Marshal isPrintWide MarshalText (Some x)
  /\ Marshal isPrintWide MarshalText
       (Some (Vptr (PtrTo (PtrTo t)) (Some (Vptr (PtrTo t) (Some x)))))
     = Marshal isPrintWide MarshalText (Some x).
Proof.
  intros Ht Hn Hi.
  assert (Hx : valueEncoder x = typeEncoder t)
    by now apply wellFormed_valueEncoder.
  assert (Hp : typeEncoder (PtrTo t) = ptrEncoder (typeEncoder t)).
  { unfold typeEncoder at 1. rewrite newTypeEncoder_eq.
    unfold PtrTo in *. rewrite Hi.
    replace (rtype_eqb (Tptr t) timeType) with false by reflexivity.
    cbn [kindOf elemOf]. unfold kindSwitch, newPtrEncoder.
    cbn [kindOf elemOf negb andb Kind_eqb].
    now destruct (Kind_eqb Ptr Ptr && rtype_eqb t timeType). }
  assert (Hpp : typeEncoder (PtrTo (PtrTo t))
                = ptrEncoder (typeEncoder (PtrTo t))).
  { unfold typeEncoder at 1. rewrite newTypeEncoder_eq.
    replace (rtype_eqb (PtrTo (PtrTo t)) timeType) with false by reflexivity.
    unfold PtrTo. cbn [kindOf elemOf Implements].
    replace (rtype_eqb (Tptr t) timeType) with false by reflexivity.
    rewrite andb_false_r. unfold kindSwitch, newPtrEncoder.
    cbn [kindOf elemOf negb andb]. reflexivity. }
  assert (Hrun : encodeValue isPrintWide MarshalText (Vptr (PtrTo t) (Some x))
                   (typeEncoder (PtrTo t)) false
                 = encodeValue isPrintWide MarshalText x (typeEncoder t) false).
  { rewrite Hp. cbn [encodeValue].
    apply addrFree_irrelevant. now apply noPtrRecv_addrFree. }
  unfold Marshal, marshal, reflectValue. cbn [ValueOf].
  split.
  - change (valueEncoder (Vptr (PtrTo t) (Some x)))
      with (typeEncoder (PtrTo t)).
    now rewrite Hrun, Hx.
  - change (valueEncoder (Vptr (PtrTo (PtrTo t))
                            (Some (Vptr (PtrTo t) (Some x)))))
      with (typeEncoder (PtrTo (PtrTo t))).
    rewrite Hpp, Hx. cbn [encodeValue].
    rewrite <- Hrun. rewrite Hp. cbn [encodeValue].
    reflexivity.
Qed.

Lemma Marshal_pointer_transparent_witness :
  Marshal narrowOnly testMarshalText
    (Some (Vptr (PtrTo (Tslice (Tbasic Bint)))
             (Some (Vslice (Tslice (Tbasic Bint)) (Some [int_ 1; int_ 2])))))
  = Marshal narrowOnly testMarshalText
      (Some (Vslice (Tslice (Tbasic Bint)) (Some [int_ 1; int_ 2]))).
Proof.
  apply (Marshal_pointer_transparent narrowOnly testMarshalText
           (Tslice (Tbasic Bint))
           (Vslice (Tslice (Tbasic Bint)) (Some [int_ 1; int_ 2])));
    reflexivity.
Defined.

(** ** The stream encoder and [Marshal] *)

Section StreamMarshal.

Variable isPrintWide : Z -> bool.
Variable MarshalText : value -> string * option error.

(** [Marshal] from the run of [marshal] on an empty state. *)
Lemma Marshal_marshal (v : iface) :
  Marshal isPrintWide MarshalText v =
    match marshal isPrintWide MarshalText v (mkState EmptyString) with
    | (_, Done (Some failure)) => Done (None, Some failure)
    | (e', Done None) => Done (Buffer_Bytes e', None)
    | (_, Panic p) => Panic p
    end.
Proof. reflexivity. Qed.

Lemma bytesOrEmpty_Buffer_Bytes (e : encodeState) :
  bytesOrEmpty (Buffer_Bytes e) = Bytes e.
Proof. unfold Buffer_Bytes. now destruct (Bytes e). Qed.

Variable Sink : Type.
Variable Sink_Write : Sink -> string -> Sink * (nat * option error).

(** [Encode] from what [Marshal] returns. *)
Lemma Encode_Marshal (pool : statePool) (enc : Encoder Sink) (v : iface) :
  err enc = None ->
  Encode isPrintWide MarshalText Sink_Write pool enc v =
    match Marshal isPrintWide MarshalText v with
    | Panic p => Panic p
    | Done (_, Some failure) =>
        Done (fst (newEncodeState pool), enc, Some failure)
    | Done (bs, None) =>
        let line := bytesOrEmpty bs ++ str1 newline in
        Done (putEncodeState (fst (newEncodeState pool)) (mkState line),
              mkEncoder (fst (Sink_Write (w enc) line))
                (snd (snd (Sink_Write (w enc) line))),
              snd (snd (Sink_Write (w enc) line)))
    end.
Proof.
  intros Herr. rewrite Encode_unfold by assumption. rewrite Marshal_marshal.
  cbv zeta.
  destruct (marshal isPrintWide MarshalText v (mkState EmptyString))
    as [e [[failure|]|p]]; try reflexivity.
  rewrite bytesOrEmpty_Buffer_Bytes. cbn [Bytes].
  destruct (Sink_Write (w enc) (Bytes e ++ str1 newline)) as [w' [n [werr|]]];
    cbn [fst snd]; [reflexivity|now rewrite Herr].
Qed.

End StreamMarshal.

(** X16. [Encode] is [Marshal] and one write. With no stored error, for any
    states in the pool: when [Marshal] of the value returns bytes, [Encode]
    hands the sink these bytes followed by a newline in a single [Write], and
    returns and stores the error of this [Write] (none when there is none);
    when [Marshal] returns an error, [Encode] returns it, and the sink and the
    encoder are as before; when [Marshal] panics, so does [Encode]. *)
Theorem Encode_is_Marshal_and_newline
    (isPrintWide : Z -> bool) (MarshalText : value -> string * option error)
    (Sink : Type) (Sink_Write : Sink -> string -> Sink * (nat * option error))
    (pool : statePool) (enc : Encoder Sink) (v : iface) :
  err enc = None ->
  match Marshal isPrintWide MarshalText v with
  | Done (bs, None) =>
      forall (w' : Sink) (n : nat) (werr : option error),
        Sink_Write (w enc) (bytesOrEmpty bs ++ str1 newline)
        = (w', (n, werr)) ->
        exists pool',
          Encode isPrintWide MarshalText Sink_Write pool enc v
          = Done (pool', mkEncoder w' werr, werr)
  | Done (_, Some failure) =>
      exists pool',
        Encode isPrintWide MarshalText Sink_Write pool enc v
        = Done (pool', enc, Some failure)
  | Panic p =>
      Encode isPrintWide MarshalText Sink_Write pool enc v = Panic p
  end.
Proof.
  intros Herr. rewrite Encode_Marshal by assumption.
  destruct (Marshal isPrintWide MarshalText v) as [[bs [failure|]]|p].
  - now eexists.
  - intros w' n werr Hw. cbv zeta. rewrite Hw. now eexists.
  - reflexivity.
Qed.

Lemma Encode_is_Marshal_and_newline_witness :
  exists pool',
    Encode narrowOnly testMarshalText bufferSink [mkState "stale"]
      (NewEncoder ["1" ++ str1 newline]) (Some (K "yolo"))
    = Done (pool', mkEncoder ["1" ++ str1 newline; ":yolo" ++ str1 newline] None,
            None).
Proof.
  exact (Encode_is_Marshal_and_newline narrowOnly testMarshalText
           (list string) bufferSink [mkState "stale"]
           (NewEncoder ["1" ++ str1 newline]) (Some (K "yolo")) eq_refl
           ["1" ++ str1 newline; ":yolo" ++ str1 newline] 6%nat None eq_refl).
Defined.

(** X17. A stream of values that all encode, written to a sink that takes
    every write: the sink receives, in the order of the values, one write per
    value with the bytes that [Marshal] returns for it and a newline, after
    what it held; no call returns an error and the encoder stores none. *)
Theorem EncodeAll_writes_lines
    (isPrintWide : Z -> bool) (MarshalText : value -> string * option error)
    (vs : list iface) (outs : list (option string)) :
  Forall2 (fun v bs => Marshal isPrintWide MarshalText v = Done (bs, None))
    vs outs ->
  forall (pool : statePool) (written : list string),
  exists pool',
    EncodeAll isPrintWide MarshalText bufferSink pool (NewEncoder written) vs
    = Done (pool',
            NewEncoder
              (written
               ++ map (fun bs => (bytesOrEmpty bs ++ str1 newline)%string)
                    outs)%list,
            map (fun _ => None) vs).
Proof.
  induction 1 as [|v bs vs outs Hv _ IH]; intros pool written.
  - exists pool. cbn. now rewrite app_nil_r.
  - cbn [EncodeAll]. rewrite Encode_Marshal by reflexivity. rewrite Hv.
    cbv zeta. cbn [bufferSink fst snd w NewEncoder].
    destruct (IH (putEncodeState (fst (newEncodeState pool))
                    (mkState (bytesOrEmpty bs ++ str1 newline)))
                 (written ++ [(bytesOrEmpty bs ++ str1 newline)%string])%list)
      as [pool' Hrun].
    exists pool'. unfold NewEncoder in Hrun. rewrite Hrun.
    cbn [map]. now rewrite <- app_assoc.
Qed.

Lemma EncodeAll_writes_lines_witness :
  exists pool',
    EncodeAll narrowOnly testMarshalText bufferSink [] (NewEncoder [])
      [Some (int_ 1); None; Some (S_ "foo")]
    = Done (pool',
            NewEncoder ["1" ++ str1 newline; "nil" ++ str1 newline;
                        "foo" ++ str1 newline],
            [None; None; None]).
Proof.
  apply (EncodeAll_writes_lines narrowOnly testMarshalText
           [Some (int_ 1); None; Some (S_ "foo")]
           [Some "1"; Some "nil"; Some "foo"]).
  repeat constructor.
Defined.

(** ** The type [Set] *)

Section SetProperties.

Variable key : Type.
Variable key_eqb : key -> key -> bool.
Hypothesis key_eqb_eq : forall a b : key, key_eqb a b = true <-> a = b.

Lemma key_eqb_refl (k : key) : key_eqb k k = true.
Proof. now apply key_eqb_eq. Qed.

Lemma key_eqb_neq (a b : key) : a <> b -> key_eqb a b = false.
Proof.
  intros H. destruct (key_eqb a b) eqn:E; [|reflexivity].
  now apply key_eqb_eq in E.
Qed.

Lemma Set_Has_keys (set : Set_ key) (k : key) :
  Set_Has key_eqb set k = true <-> In k (Set_keys set).
Proof.
  destruct set as [m|]; cbn [Set_Has Set_keys]; [|easy].
  induction m as [|[k' b] m IH]; cbn [mapaccess map fst In]; [easy|].
  destruct (key_eqb k' k) eqn:E.
  - apply key_eqb_eq in E. tauto.
  - rewrite IH. split; [tauto|]. intros [-> | H]; [|exact H].
    now rewrite key_eqb_refl in E.
Qed.

Lemma mapassign_keys (m : list (key * bool)) (k : key) (b : bool) (k' : key) :
  In k' (map fst (mapassign key_eqb m k b)) <-> In k' (map fst m) \/ k' = k.
Proof.
  induction m as [|[k0 b0] m IH]; cbn [mapassign map fst In].
  - split; [intros [-> | []]; now right|intros [[] | ->]; now left].
  - destruct (key_eqb k0 k) eqn:E; cbn [map fst In].
    + apply key_eqb_eq in E. subst k0. split; [tauto|].
      intros [H| ->]; [exact H|now left].
    + rewrite IH. tauto.
Qed.

Lemma mapassign_NoDup (m : list (key * bool)) (k : key) (b : bool) :
  NoDup (map fst m) -> NoDup (map fst (mapassign key_eqb m k b)).
Proof.
  induction m as [|[k0 b0] m IH]; cbn [mapassign map fst]; intros Hn.
  - constructor; [easy|constructor].
  - inversion Hn as [|? ? Hx Hm]; subst.
    destruct (key_eqb k0 k) eqn:E; cbn [map fst].
    + now constructor.
    + constructor; [|now apply IH].
      rewrite mapassign_keys. intros [H| ->]; [now apply Hx|].
      now rewrite key_eqb_refl in E.
Qed.

Lemma mapdelete_keys (m : list (key * bool)) (k k' : key) :
  NoDup (map fst m) ->
  In k' (map fst (mapdelete key_eqb m k)) <-> In k' (map fst m) /\ k' <> k.
Proof.
  induction m as [|[k0 b0] m IH]; cbn [mapdelete map fst In]; intros Hn.
  - tauto.
  - inversion Hn as [|? ? Hx Hm]; subst.
    destruct (key_eqb k0 k) eqn:E; cbn [map fst In].
    + apply key_eqb_eq in E. subst k0. split.
      * intros H. split; [now right|]. now intros ->.
      * intros [[H|H] Hne]; [now subst|exact H].
    + rewrite (IH Hm). split.
      * intros [-> | [H Hne]]; [|tauto]. split; [now left|].
        intros ->. now rewrite key_eqb_refl in E.
      * tauto.
Qed.

Lemma mapdelete_NoDup (m : list (key * bool)) (k : key) :
  NoDup (map fst m) -> NoDup (map fst (mapdelete key_eqb m k)).
Proof.
  induction m as [|[k0 b0] m IH]; cbn [mapdelete map fst]; intros Hn.
  - constructor.
  - inversion Hn as [|? ? Hx Hm]; subst.
    destruct (key_eqb k0 k) eqn:E; cbn [map fst]; [exact Hm|].
    constructor; [|now apply IH].
    rewrite (mapdelete_keys _ _ _ Hm). tauto.
Qed.

Lemma Set_Add_keys (keys : list key) :
  forall m : list (key * bool),
  exists m' : list (key * bool),
    Set_Add key_eqb (Some m) keys = Done (Some m')
    /\ (forall k : key, In k (map fst m') <-> In k (map fst m) \/ In k keys)
    /\ (NoDup (map fst m) -> NoDup (map fst m')).
Proof.
  induction keys as [|k keys IH]; intros m; cbn [Set_Add].
  - exists m. cbn [In]. repeat split; tauto.
  - destruct (IH (mapassign key_eqb m k true)) as [m' [Hrun [Hin Hnd]]].
    exists m'. split; [exact Hrun|]. split.
    + intros k'. rewrite Hin, mapassign_keys. cbn [In].
      split; [intros [[H|H]|H]|intros [H|[H|H]]]; auto.
    + intros Hn. now apply Hnd, mapassign_NoDup.
Qed.

End SetProperties.

(** X18. [Add] and [Has]. On a set that is not nil [Add] returns a set that
    has a key exactly when the set had it or it is one of the keys added
    (twice or more is as once), and keeps the keys distinct; on a nil set
    [Add] of one key or more panics, which is the assignment to an entry of a
    nil map. [Has] tells the presence of the key, not the boolean stored with
    it. *)
Theorem Set_Add_then_Has
    (key : Type) (key_eqb : key -> key -> bool)
    (key_eqb_eq : forall a b : key, key_eqb a b = true <-> a = b)
    (m : list (key * bool)) (keys : list key) :
  (exists m' : list (key * bool),
     Set_Add key_eqb (Some m) keys = Done (Some m')
     /\ (forall k : key,
           Set_Has key_eqb (Some m') k = true
           <-> Set_Has key_eqb (Some m) k = true \/ In k keys)
     /\ (NoDup (Set_keys (Some m)) -> NoDup (Set_keys (Some m'))))
  /\ (keys <> [] ->
      Set_Add key_eqb None keys
      = Panic (PanicRuntime "assignment to entry in nil map"))
  /\ (forall (k : key) (b : bool),
        Set_Has key_eqb (Some (m ++ [(k, b)])%list) k = true).
Proof.
  split; [|split].
  - destruct (Set_Add_keys key key_eqb key_eqb_eq keys m)
      as [m' [Hrun [Hin Hnd]]].
    exists m'. split; [exact Hrun|]. split; [|exact Hnd].
    intros k. rewrite !(Set_Has_keys key key_eqb key_eqb_eq).
    apply Hin.
  - destruct keys; [easy|reflexivity].
  - intros k b. apply (Set_Has_keys key key_eqb key_eqb_eq).
    cbn [Set_keys]. rewrite map_app. apply in_or_app. right. now left.
Qed.

Lemma Set_Add_then_Has_witness :
  (exists m' : list (Z * bool),
     Set_Add Z.eqb (Some [(1, true)]) [2; 1; 2] = Done (Some m')
     /\ (forall k : Z,
           Set_Has Z.eqb (Some m') k = true
           <-> Set_Has Z.eqb (Some [(1, true)]) k = true \/ In k [2; 1; 2])
     /\ (NoDup (Set_keys (Some [(1, true)])) -> NoDup (Set_keys (Some m'))))
  /\ Set_Add Z.eqb (Some [(1, true)]) [2; 1; 2]
     = Done (Some [(1, true); (2, true)]).
Proof.
  split.
  - exact (proj1 (Set_Add_then_Has Z Z.eqb Z.eqb_eq [(1, true)] [2; 1; 2])).
  - reflexivity.
Defined.

(** X19. [Discard] and [Has]. After [Discard] of a key the set has the keys
    that it had, this one apart, and the keys stay distinct; [Discard] of a
    key that is not in the set, or on a nil set, changes nothing. *)
Theorem Set_Discard_then_Has
    (key : Type) (key_eqb : key -> key -> bool)
    (key_eqb_eq : forall a b : key, key_eqb a b = true <-> a = b)
    (set : Set_ key) (k : key) :
  NoDup (Set_keys set) ->
  (forall k' : key,
     Set_Has key_eqb (Set_Discard key_eqb set k) k' = true
     <-> Set_Has key_eqb set k' = true /\ k' <> k)
  /\ NoDup (Set_keys (Set_Discard key_eqb set k))
  /\ (Set_Has key_eqb set k = false -> Set_Discard key_eqb set k = set).
Proof.
  intros Hn. split; [|split].
  - intros k'. rewrite !(Set_Has_keys key key_eqb key_eqb_eq).
    destruct set as [m|]; cbn [Set_Discard Set_keys] in *; [|easy].
    now apply mapdelete_keys.
  - destruct set as [m|]; cbn [Set_Discard Set_keys] in *; [|constructor].
    now apply mapdelete_NoDup.
  - destruct set as [m|]; cbn [Set_Discard Set_Has]; [|reflexivity].
    clear Hn. intros H. f_equal.
    induction m as [|[k0 b0] m IH]; cbn [mapdelete mapaccess] in *;
      [reflexivity|].
    destruct (key_eqb k0 k); [discriminate H|]. now rewrite IH.
Qed.

Lemma Set_Discard_then_Has_witness :
  (forall k' : Z,
     Set_Has Z.eqb (Set_Discard Z.eqb (Some [(1, true); (2, true)]) 1) k' = true
     <-> Set_Has Z.eqb (Some [(1, true); (2, true)]) k' = true /\ k' <> 1)
  /\ Set_Discard Z.eqb (Some [(1, true); (2, true)]) 1 = Some [(2, true)].
Proof.
  split.
  - apply (Set_Discard_then_Has Z Z.eqb Z.eqb_eq
             (Some [(1, true); (2, true)]) 1).
    cbn. repeat constructor; cbn; intuition lia.
  - reflexivity.
Defined.

(** ** Strings, symbols and integers *)

Lemma Z_of_byte_of_Z (c : ascii) : Z_of_byte c < 256.
Proof.
  unfold Z_of_byte. assert (H := N_ascii_bounded c). lia.
Qed.

Lemma quoteRune_plain (wide : Z -> bool) (c : ascii) (s : string) :
  plainChar c = true ->
  strconv.quoteRune wide (String c s) = (str1 c, 1%nat).
Proof.
  unfold plainChar. cbv zeta. intros H.
  apply andb_prop in H as [H H92]. apply andb_prop in H as [H H34].
  apply andb_prop in H as [H32 H127].
  apply Z.leb_le in H32. apply Z.ltb_lt in H127.
  apply negb_true_iff, Z.eqb_neq in H34, H92.
  unfold strconv.quoteRune.
  replace (utf8.RuneSelf <=? Z_of_byte c) with false
    by (symmetry; apply Z.leb_gt; unfold utf8.RuneSelf; lia).
  cbv iota beta zeta.
  replace (Z_of_byte c =? utf8.RuneError) with false
    by (symmetry; apply Z.eqb_neq; unfold utf8.RuneError; lia).
  rewrite andb_false_r.
  replace (Z_of_byte c =? 34) with false by (symmetry; now apply Z.eqb_neq).
  replace (Z_of_byte c =? 92) with false by (symmetry; now apply Z.eqb_neq).
  cbn [orb]. unfold strconv.IsPrint.
  replace (Z_of_byte c <=? 255) with true by (symmetry; apply Z.leb_le; lia).
  replace (32 <=? Z_of_byte c) with true by (symmetry; now apply Z.leb_le).
  replace (Z_of_byte c <? 127) with true by (symmetry; now apply Z.ltb_lt).
  cbn [andb]. unfold utf8.EncodeRune. cbv zeta.
  replace (Z_of_byte c <? 0) with false by (symmetry; apply Z.ltb_ge; lia).
  replace (utf8.MaxRune <? Z_of_byte c) with false
    by (symmetry; apply Z.ltb_ge; unfold utf8.MaxRune; lia).
  replace (55296 <=? Z_of_byte c) with false by (symmetry; apply Z.leb_gt; lia).
  cbn [orb andb].
  replace (Z_of_byte c <=? 127) with true by (symmetry; apply Z.leb_le; lia).
  now rewrite byte_of_Z_of_byte.
Qed.

Lemma quoteLoop_plain (wide : Z -> bool) (s : string) :
  plainASCII s = true ->
  forall fuel : nat, (String.length s <= fuel)%nat ->
  strconv.quoteLoop wide fuel s = s.
Proof.
  induction s as [|c s IH]; intros Hp fuel Hf.
  - now destruct fuel.
  - cbn [plainASCII] in Hp. apply andb_prop in Hp as [Hc Hs].
    destruct fuel as [|fuel]; [cbn [String.length] in Hf; lia|].
    cbn [strconv.quoteLoop]. rewrite (quoteRune_plain wide c s Hc).
    cbn [strconv.drop str1 String.append]. f_equal.
    apply IH; [exact Hs|cbn [String.length] in Hf; lia].
Qed.

Lemma Quote_plain (wide : Z -> bool) (s : string) :
  plainASCII s = true -> strconv.Quote wide s = dq ++ s ++ dq.
Proof.
  intros H. unfold strconv.Quote. now rewrite quoteLoop_plain.
Qed.

(** X20. A string of a type that is not [Symbol] or [Keyword] and has no
    [MarshalText] is written as [strconv.Quote] writes it; a string of
    printable ASCII characters with no double quote and no backslash is
    written as it is, between double quotes. A [Symbol] is written as it is,
    whatever its characters are: nothing is quoted, escaped or checked, and
    the empty symbol gives no bytes, for which [Marshal] returns a nil slice
    with no error. *)
Theorem Marshal_strings_and_symbols
    (isPrintWide : Z -> bool) (MarshalText : value -> string * option error)
    (t : rtype) (s : string) :
  kindOf t = String_ -> Implements t = false ->
  t <> symbolType -> t <> keywordType ->
  Marshal isPrintWide MarshalText (Some (Vstring t s))
  = Done (Some (strconv.Quote isPrintWide s), None)
  /\ (plainASCII s = true ->
      Marshal isPrintWide MarshalText (Some (Vstring t s))
      = Done (Some (dq ++ s ++ dq), None))
  /\ Marshal isPrintWide MarshalText (Some (S_ s))
     = Done (match s with EmptyString => None | _ => Some s end, None).
Proof.
  intros Hk Hi Hs Hkw.
  assert (H : Marshal isPrintWide MarshalText (Some (Vstring t s))
              = Done (Some (strconv.Quote isPrintWide s), None)).
  { rewrite (Marshal_run _ _ _ (mkState (strconv.Quote isPrintWide s))
               (Done tt)); [reflexivity|].
    change (valueEncoder (Vstring t s)) with (typeEncoder t).
    rewrite encodeValue_top;
      [|apply kind_not_timeType; rewrite Hk; discriminate
       |rewrite Hk; discriminate|exact Hi].
    unfold kindSwitch. rewrite Hk. cbn [encodeValue].
    unfold Value_Type. cbn [typeOf]. unfold bind at 1. cbn [ret].
    rewrite (rtype_eqb_neq _ _ Hs), (rtype_eqb_neq _ _ Hkw). cbn [orb].
    reflexivity. }
  split; [exact H|]. split.
  - intros Hp. now rewrite H, Quote_plain.
  - rewrite (Marshal_run _ _ _ (mkState s) (Done tt)); [now destruct s|].
    reflexivity.
Qed.

Lemma Marshal_strings_and_symbols_witness :
  Marshal narrowOnly testMarshalText
    (Some (Vstring (Tnamed "main.Name" None (Tbasic Bstring)) "Hello, EDN!"))
  = Done (Some (dq ++ "Hello, EDN!" ++ dq), None)
  /\ Marshal narrowOnly testMarshalText (Some (S_ "Hello, EDN!"))
     = Done (Some "Hello, EDN!", None).
Proof.
  assert (H := Marshal_strings_and_symbols narrowOnly testMarshalText
                 (Tnamed "main.Name" None (Tbasic Bstring)) "Hello, EDN!"
                 eq_refl eq_refl).
  split.
  - apply H; [discriminate|discriminate|reflexivity].
  - apply H; discriminate.
Defined.

Lemma FormatInt_not_empty (i : Z) : strconv.FormatInt i <> EmptyString.
Proof.
  unfold strconv.FormatInt, DecimalString.NilZero.string_of_int.
  assert (Hu : forall d : Decimal.uint,
            DecimalString.NilZero.string_of_uint d <> EmptyString)
    by (intros d; destruct d; discriminate).
  destruct (Z.to_int i) as [d|d]; [apply Hu|discriminate].
Qed.

Lemma parseInt_FormatInt (i : Z) : parseInt (strconv.FormatInt i) = Some i.
Proof.
  unfold parseInt, strconv.FormatInt.
  rewrite DecimalString.NilZero.isi.
  - now rewrite DecimalZ.of_to.
  - destruct i as [|p|p]; try discriminate.
    cbn [Z.to_int]. intros H. injection H as H.
    now apply DecimalPos.Unsigned.to_uint_nonnil in H.
  - destruct i as [|p|p]; try discriminate.
    cbn [Z.to_int]. intros H. injection H as H.
    now apply DecimalPos.Unsigned.to_uint_nonnil in H.
Qed.

(** X21. An integer, signed or not, of a type with no [MarshalText] is written
    as a decimal literal that reads back as the same integer; so two integers
    with the same bytes are the same. *)
Theorem Marshal_integer_round_trip
    (isPrintWide : Z -> bool) (MarshalText : value -> string * option error)
    (t : rtype) (i : Z) :
  Implements t = false ->
  (intKind (kindOf t) = true ->
     exists s : string,
       Marshal isPrintWide MarshalText (Some (Vint t i)) = Done (Some s, None)
       /\ parseInt s = Some i)
  /\ (uintKind (kindOf t) = true ->
        exists s : string,
          Marshal isPrintWide MarshalText (Some (Vuint t i))
          = Done (Some s, None)
          /\ parseInt s = Some i).
Proof.
  intros Hi.
  assert (Hb : Buffer_Bytes (mkState (strconv.FormatInt i))
               = Some (strconv.FormatInt i)).
  { unfold Buffer_Bytes. cbn [Bytes].
    assert (H := FormatInt_not_empty i).
    now destruct (strconv.FormatInt i). }
  split; intros Hk; exists (strconv.FormatInt i);
    (split; [|apply parseInt_FormatInt]).
  - rewrite (Marshal_run _ _ _ (mkState (strconv.FormatInt i)) (Done tt));
      [now rewrite Hb|].
    change (valueEncoder (Vint t i)) with (typeEncoder t).
    rewrite encodeValue_top;
      [|apply kind_not_timeType; intros H; now rewrite H in Hk
       |intros H; now rewrite H in Hk|exact Hi].
    unfold kindSwitch. destruct (kindOf t); try discriminate Hk; reflexivity.
  - rewrite (Marshal_run _ _ _ (mkState (strconv.FormatInt i)) (Done tt));
      [now rewrite Hb|].
    change (valueEncoder (Vuint t i)) with (typeEncoder t).
    rewrite encodeValue_top;
      [|apply kind_not_timeType; intros H; now rewrite H in Hk
       |intros H; now rewrite H in Hk|exact Hi].
    unfold kindSwitch. destruct (kindOf t); try discriminate Hk; reflexivity.
Qed.

Lemma Marshal_integer_round_trip_witness :
  exists s : string,
    Marshal narrowOnly testMarshalText (Some (Vint (Tbasic Bint64) (-93784)))
    = Done (Some s, None)
    /\ parseInt s = Some (-93784).
Proof.
  apply (Marshal_integer_round_trip narrowOnly testMarshalText
           (Tbasic Bint64) (-93784)); reflexivity.
Defined.

(** The slice [[]float64{2, NaN}] is well formed, and [Marshal] returns an
    error of the package for it. *)
Lemma Marshal_wellFormed_witness :
  match Marshal narrowOnly testMarshalText (Some twoAndNaN) with
  | Done (_, None) => True
  | Done (bs, Some failure) => bs = None /\ expectedPanic (PanicError failure)
  | Panic p => p = PanicRuntime nilTextMarshaler
  end.
Proof.
  apply (Marshal_wellFormed narrowOnly testMarshalText twoAndNaN).
  cbn. intuition (try discriminate; try reflexivity).
Defined.

(** ** UUIDs *)

Lemma plainASCII_app (a b : string) :
  plainASCII a = true -> plainASCII b = true -> plainASCII (a ++ b) = true.
Proof.
  induction a as [|c a IH]; cbn [plainASCII String.append]; [easy|].
  intros H Hb. apply andb_prop in H as [Hc Ha]. now rewrite Hc, IH.
Qed.

Lemma hex_plain (s : string) : plainASCII (uuid.hex s) = true.
Proof.
  induction s as [|b s IH]; [reflexivity|].
  cbn [uuid.hex plainASCII]. rewrite IH, andb_true_r.
  destruct b as [[] [] [] [] [] [] [] []]; reflexivity.
Qed.

Lemma hex_length (s : string) :
  String.length (uuid.hex s) = (2 * String.length s)%nat.
Proof.
  induction s as [|b s IH]; [reflexivity|].
  cbn [uuid.hex String.length]. rewrite IH. lia.
Qed.

Lemma String_plain (u : string) : plainASCII (uuid.String_ u) = true.
Proof.
  unfold uuid.String_.
  destruct (negb (Nat.eqb (String.length u) 16)); [reflexivity|].
  repeat (apply plainASCII_app; [first [apply hex_plain|reflexivity]|]).
  apply hex_plain.
Qed.

Lemma substring_length (s : string) :
  forall n m : nat, (n + m <= String.length s)%nat ->
  String.length (String.substring n m s) = m.
Proof.
  induction s as [|c s IH]; intros n m H; cbn [String.length] in H.
  - assert (n = O) by lia. assert (m = O) by lia. now subst.
  - destruct n as [|n]; cbn [String.substring].
    + destruct m as [|m]; [reflexivity|].
      cbn [String.length]. rewrite (IH O m); [reflexivity|lia].
    + apply IH. lia.
Qed.

(** X22. A UUID is written [#uuid] and, between double quotes, the 36
    characters of its usual form, as they are: hexadecimal digits and four
    hyphens. A UUID that has not 16 bytes, a nil one too, is written [#uuid]
    and an empty string: there is no error, and a nil UUID is not written
    [nil] as a nil byte slice is. *)
Theorem Marshal_uuid
    (isPrintWide : Z -> bool) (MarshalText : value -> string * option error)
    (s : string) :
  Marshal isPrintWide MarshalText (Some (byteSlice uuidType s))
  = Done (Some ("#uuid " ++ dq ++ uuid.String_ s ++ dq), None)
  /\ (String.length s = 16%nat ->
      String.length (uuid.String_ s) = 36%nat
      /\ plainASCII (uuid.String_ s) = true)
  /\ (String.length s <> 16%nat ->
      Marshal isPrintWide MarshalText (Some (byteSlice uuidType s))
      = Done (Some ("#uuid " ++ dq ++ dq), None))
  /\ Marshal isPrintWide MarshalText (Some (Vslice uuidType None))
     = Done (Some ("#uuid " ++ dq ++ dq), None).
Proof.
  assert (H : Marshal isPrintWide MarshalText (Some (byteSlice uuidType s))
              = Done (Some ("#uuid " ++ dq ++ uuid.String_ s ++ dq), None)).
  { rewrite (Marshal_run _ _ _
               (mkState ("#uuid " ++ dq ++ uuid.String_ s ++ dq)) (Done tt));
      [reflexivity|].
    change (valueEncoder (byteSlice uuidType s)) with encodeUuid.
    unfold byteSlice. cbn [encodeValue]. rewrite bytesOf_byteSlice.
    unfold bind at 1. cbn [WriteString]. unfold bind at 1. cbn [ret].
    unfold bind at 1. unfold e_string, Sprintf_sharp_v.
    rewrite (Quote_plain _ _ (String_plain s)).
    reflexivity. }
  split; [exact H|]. split; [|split].
  - intros Hl. split; [|apply String_plain].
    unfold uuid.String_. rewrite Hl. cbn [Nat.eqb negb].
    rewrite !length_append, !hex_length, !substring_length by lia.
    reflexivity.
  - intros Hl. rewrite H. unfold uuid.String_.
    replace (Nat.eqb (String.length s) 16) with false
      by (symmetry; now apply Nat.eqb_neq).
    reflexivity.
  - reflexivity.
Qed.

Lemma Marshal_uuid_witness :
  String.length (uuid.String_ "0123456789abcdef") = 36%nat
  /\ Marshal narrowOnly testMarshalText (Some (byteSlice uuidType "short"))
     = Done (Some ("#uuid " ++ dq ++ dq), None).
Proof.
  split.
  - exact (proj1 (proj1 (proj2 (Marshal_uuid narrowOnly testMarshalText
                                  "0123456789abcdef")) eq_refl)).
  - apply (proj1 (proj2 (proj2 (Marshal_uuid narrowOnly testMarshalText
                                  "short")))).
    discriminate.
Defined.

(** ** Arrays and [KMap] *)

(** X23. An array whose elements all encode is written as a slice is: the
    outputs of the elements between brackets, one space between two of them.
    The elements of an array given to [Marshal] are not addressable. *)
Theorem Marshal_array_joins_elements
    (isPrintWide : Z -> bool) (MarshalText : value -> string * option error)
    (t e0 : rtype) (xs : list value) (outs : list string) :
  kindOf t = Array -> elemOf t = Some e0 -> Implements t = false ->
  Forall2 (fun x o =>
             encodeValue isPrintWide MarshalText x (typeEncoder e0) false
               (mkState EmptyString)
             = (mkState o, Done tt)) xs outs ->
  Marshal isPrintWide MarshalText (Some (Varray t xs))
  = Done (Some ("[" ++ String.concat " " outs ++ "]"), None).
Proof.
  intros Hk He Hi Hxs.
  rewrite (Marshal_run _ _ _
             (mkState ("[" ++ String.concat " " outs ++ "]")) (Done tt));
    [reflexivity|].
  change (valueEncoder (Varray t xs)) with (typeEncoder t).
  rewrite encodeValue_top;
    [|apply kind_not_timeType; rewrite Hk; discriminate
     |rewrite Hk; discriminate|exact Hi].
  replace (kindSwitch t) with (arrayEncoder (typeEncoder e0))
    by (unfold kindSwitch, newArrayEncoder; now rewrite Hk, He).
  cbn [encodeValue].
  unfold bind at 1. cbn [WriteByte WriteString]. unfold bind at 1.
  rewrite (elements_joined isPrintWide MarshalText _ false xs outs Hxs).
  cbn. now rewrite joined_0.
Qed.

Lemma Marshal_array_joins_elements_witness :
  Marshal narrowOnly testMarshalText
    (Some (Varray (Tarray 2 (Tbasic Bbool)) [bool_ true; bool_ false]))
  = Done (Some "[true false]", None).
Proof.
  apply (Marshal_array_joins_elements narrowOnly testMarshalText
           (Tarray 2 (Tbasic Bbool)) (Tbasic Bbool)
           [bool_ true; bool_ false] ["true"; "false"]);
    try reflexivity.
  repeat constructor.
Defined.

(** X24. The keys of a [KMap] are written as the strings that they are,
    between double quotes, and not as keywords: a [KMap] is encoded as any map
    with string keys, since [keywordMapType] is not used by the encoder. *)
Theorem Marshal_KMap_keys_are_strings
    (isPrintWide : Z -> bool) (MarshalText : value -> string * option error)
    (entries : list (string * iface)) (bss : list (option string)) :
  Forall2 (fun kx bs =>
             Marshal isPrintWide MarshalText (snd kx) = Done (bs, None))
    entries bss ->
  Marshal isPrintWide MarshalText
    (Some (Vmap keywordMapType
             (Some (map (fun kx => (string_ (fst kx),
                                    Viface emptyInterface (snd kx)))
                        entries))))
  = Done (Some ("{"
                ++ String.concat ", "
                     (map (fun p => strconv.Quote isPrintWide (fst (fst p))
                                    ++ " " ++ bytesOrEmpty (snd p))
                          (combine entries bss))
                ++ "}"), None).
Proof.
  intros Hvs.
  match goal with
  | |- _ = Done (Some ?out, None) =>
      rewrite (Marshal_run _ _ _ (mkState out) (Done tt)); [reflexivity|]
  end.
  match goal with
  | |- context [valueEncoder ?v] =>
      change (valueEncoder v) with (mapEncoder stringEncoder interfaceEncoder)
  end.
  rewrite (mapEncoder_run isPrintWide MarshalText _ _ keywordMapType _
             (map (fun p => strconv.Quote isPrintWide (fst (fst p))
                            ++ " " ++ bytesOrEmpty (snd p))
                  (combine entries bss))); [reflexivity|].
  replace (rtype_eqb keywordMapType setType) with false by reflexivity.
  clear -Hvs. induction Hvs as [|[k x] bs entries bss Hx _ IH];
    cbn [map combine]; constructor; [|exact IH].
  unfold entryOut. cbn [fst snd] in *.
  exists (strconv.Quote isPrintWide k), (bytesOrEmpty bs).
  split; [reflexivity|]. split; [|reflexivity].
  rewrite interfaceEncoder_run. now apply Marshal_Done_run.
Qed.

Lemma Marshal_KMap_keys_are_strings_witness :
  Marshal narrowOnly testMarshalText
    (Some (Vmap keywordMapType
             (Some [(string_ "foo", any (int_ 123));
                    (string_ "bar", any (bool_ true))])))
  = Done (Some ("{" ++ dq ++ "foo" ++ dq ++ " 123, "
                ++ dq ++ "bar" ++ dq ++ " true}"), None).
Proof.
  apply (Marshal_KMap_keys_are_strings narrowOnly testMarshalText
           [("foo", Some (int_ 123)); ("bar", Some (bool_ true))]
           [Some "123"; Some "true"]).
  repeat constructor.
Defined.

(** ** What [string] and [stringBytes] write *)

Lemma Z_of_byte_byte_of_Z (z : Z) : Z_of_byte (byte_of_Z z) = z mod 256.
Proof.
  unfold Z_of_byte, byte_of_Z.
  assert (H := Z.mod_pos_bound z 256 ltac:(lia)).
  rewrite N_ascii_embedding by lia. lia.
Qed.

Lemma highBit_literal (z : Z) :
  Z.testbit z 7 = true -> literalByte (byte_of_Z z) = true.
Proof.
  intros H. unfold literalByte, printableByte. cbv zeta.
  rewrite Z_of_byte_byte_of_Z.
  assert (Hb := Z.mod_pos_bound z 256 ltac:(lia)).
  assert (Hm : Z.testbit (z mod 2 ^ 8) 7 = true)
    by (rewrite Z.mod_pow2_bits_low by lia; exact H).
  change (2 ^ 8) with 256 in Hm.
  apply Z.testbit_true in Hm; [|lia]. change (2 ^ 7) with 128 in Hm.
  assert (128 <= z mod 256).
  { destruct (Z_lt_le_dec (z mod 256) 128) as [Hlt|]; [|assumption].
    rewrite Z.div_small in Hm by lia. discriminate Hm. }
  repeat (apply andb_true_intro; split);
    first [apply Z.leb_le; lia | apply negb_true_iff, Z.eqb_neq; lia].
Qed.

Lemma lor_highBit (k x : Z) :
  Z.testbit k 7 = true -> literalByte (byte_of_Z (Z.lor k x)) = true.
Proof.
  intros H. apply highBit_literal. now rewrite Z.lor_spec, H.
Qed.

Lemma lowerhex_literal (x : Z) :
  literalByte (strconv.lowerhex (Z.land x 15)) = true.
Proof.
  change 15 with (Z.ones 4). rewrite Z.land_ones by lia.
  assert (H := Z.mod_pos_bound x (2 ^ 4) ltac:(lia)).
  change (2 ^ 4) with 16 in *.
  assert (Hc : x mod 16 = 0 \/ x mod 16 = 1 \/ x mod 16 = 2 \/ x mod 16 = 3
               \/ x mod 16 = 4 \/ x mod 16 = 5 \/ x mod 16 = 6 \/ x mod 16 = 7
               \/ x mod 16 = 8 \/ x mod 16 = 9 \/ x mod 16 = 10
               \/ x mod 16 = 11 \/ x mod 16 = 12 \/ x mod 16 = 13
               \/ x mod 16 = 14 \/ x mod 16 = 15) by lia.
  repeat (destruct Hc as [Hc|Hc]; [rewrite Hc; reflexivity|]).
  rewrite Hc; reflexivity.
Qed.

Lemma hexDigits_literal (n : nat) (r : Z) :
  literalBytes (strconv.hexDigits n r) = true.
Proof.
  induction n as [|n IH]; [reflexivity|].
  cbn [strconv.hexDigits literalBytes]. now rewrite lowerhex_literal, IH.
Qed.

Lemma literalByte_printable (c : ascii) :
  literalByte c = true -> printableByte c = true.
Proof.
  unfold literalByte. cbv zeta. intros H.
  apply andb_prop in H as [H _]. now apply andb_prop in H as [H _].
Qed.

Lemma literalBytes_controlFree (s : string) :
  literalBytes s = true -> controlFree s = true.
Proof.
  induction s as [|c s IH]; [reflexivity|].
  cbn [literalBytes controlFree]. intros H. apply andb_prop in H as [Hc Hs].
  now rewrite (literalByte_printable c Hc), IH.
Qed.

Lemma literalBytes_escaped (s rest : string) :
  literalBytes s = true -> escaped false (s ++ rest) = escaped false rest.
Proof.
  induction s as [|c s IH]; [reflexivity|].
  cbn [literalBytes String.append escaped]. intros H.
  apply andb_prop in H as [Hc Hs]. unfold literalByte in Hc. cbv zeta in Hc.
  apply andb_prop in Hc as [Hc H92]. apply andb_prop in Hc as [_ H34].
  apply negb_true_iff in H34, H92. rewrite H34, H92. now apply IH.
Qed.

Lemma controlFree_app (a b : string) :
  controlFree a = true -> controlFree b = true -> controlFree (a ++ b) = true.
Proof.
  induction a as [|c a IH]; cbn [controlFree String.append]; [easy|].
  intros H Hb. apply andb_prop in H as [Hc Ha]. now rewrite Hc, IH.
Qed.

(** A piece of a literal: bytes that stand for themselves, or a backslash,
    one byte, and bytes that stand for themselves. *)
Lemma piece_literal (out rest : string) :
  literalBytes out = true ->
  controlFree out = true /\ escaped false (out ++ rest) = escaped false rest.
Proof.
  intros H. split; [now apply literalBytes_controlFree
                   |now apply literalBytes_escaped].
Qed.

Lemma piece_escape (x : ascii) (tail rest : string) :
  printableByte x = true -> literalBytes tail = true ->
  controlFree (String "\" (String x tail)) = true
  /\ escaped false (String "\" (String x tail) ++ rest) = escaped false rest.
Proof.
  intros Hx Ht. split.
  - cbn [controlFree]. rewrite Hx, (literalBytes_controlFree tail Ht).
    reflexivity.
  - cbn [String.append escaped].
    replace (Z_of_byte "\" =? 92) with true by reflexivity.
    now apply literalBytes_escaped.
Qed.

Lemma EncodeRune_literal (wide : Z -> bool) (r : Z) :
  strconv.IsPrint wide r = true -> r <> 34 -> r <> 92 ->
  literalBytes (utf8.EncodeRune r) = true.
Proof.
  intros Hp H34 H92. unfold utf8.EncodeRune. cbv zeta.
  set (r' := if (r <? 0) || (utf8.MaxRune <? r)
                || ((55296 <=? r) && (r <=? 57343))
             then utf8.RuneError else r).
  destruct (r' <=? 127) eqn:H127.
  - apply Z.leb_le in H127.
    assert (Hr : r' = r /\ 0 <= r).
    { unfold r' in *.
      destruct ((r <? 0) || (utf8.MaxRune <? r)
                || ((55296 <=? r) && (r <=? 57343))) eqn:E.
      - unfold utf8.RuneError in H127. lia.
      - apply orb_false_iff in E as [E _]. apply orb_false_iff in E as [E _].
        apply Z.ltb_ge in E. now split. }
    destruct Hr as [-> Hr0].
    unfold strconv.IsPrint in Hp.
    replace (r <=? 255) with true in Hp by (symmetry; apply Z.leb_le; lia).
    replace (161 <=? r) with false in Hp by (symmetry; apply Z.leb_gt; lia).
    destruct ((32 <=? r) && (r <? 127)) eqn:E; [|discriminate Hp].
    apply andb_prop in E as [E1 E2]. apply Z.leb_le in E1. apply Z.ltb_lt in E2.
    cbn [str1 literalBytes]. rewrite andb_true_r.
    unfold literalByte, printableByte. cbv zeta.
    rewrite Z_of_byte_byte_of_Z, Z.mod_small by lia.
    repeat (apply andb_true_intro; split);
      first [apply Z.leb_le; lia | apply negb_true_iff, Z.eqb_neq; lia].
  - destruct (r' <=? 2047); [|destruct (r' <=? 65535)];
      cbn [str1 literalBytes];
      rewrite ?lor_highBit by reflexivity; reflexivity.
Qed.

Lemma quoteRune_piece (wide : Z -> bool) (s rest : string) :
  controlFree (fst (strconv.quoteRune wide s)) = true
  /\ escaped false (fst (strconv.quoteRune wide s) ++ rest)
     = escaped false rest.
Proof.
  unfold strconv.quoteRune. cbv zeta.
  set (c0 := match s with String b _ => Z_of_byte b | EmptyString => 0 end).
  destruct (if utf8.RuneSelf <=? c0 then utf8.DecodeRuneInString s
            else (c0, 1%nat)) as [r width].
  cbn [fst].
  assert (Hhex2 : forall x : ascii, printableByte x = true ->
            forall (n : nat) (z : Z),
            controlFree (String "\" (String x (strconv.hexDigits n z))) = true
            /\ escaped false
                 (String "\" (String x (strconv.hexDigits n z)) ++ rest)
               = escaped false rest).
  { intros x Hx n z. apply piece_escape; [exact Hx|apply hexDigits_literal]. }
  assert (Hesc : forall x : ascii, printableByte x = true ->
            controlFree (String "\" (str1 x)) = true
            /\ escaped false (String "\" (str1 x) ++ rest)
               = escaped false rest).
  { intros x Hx. now apply piece_escape. }
  destruct (Nat.eqb width 1 && (r =? utf8.RuneError));
    [now apply Hhex2|].
  destruct ((r =? 34) || (r =? 92)) eqn:Hq.
  { apply Hesc. apply orb_prop in Hq as [Hq|Hq]; apply Z.eqb_eq in Hq;
      subst r; reflexivity. }
  apply orb_false_iff in Hq as [H34 H92].
  apply Z.eqb_neq in H34, H92.
  destruct (strconv.IsPrint wide r) eqn:Hp.
  { apply piece_literal. now apply (EncodeRune_literal wide). }
  repeat match goal with
         | |- context [if ?b then _ else _] =>
             destruct b; [first [now apply Hesc | now apply Hhex2]|]
         end.
  now apply Hhex2.
Qed.

Lemma quoteLoop_literal (wide : Z -> bool) (fuel : nat) :
  forall s : string,
    controlFree (strconv.quoteLoop wide fuel s) = true
    /\ escaped false (strconv.quoteLoop wide fuel s) = true.
Proof.
  induction fuel as [|fuel IH]; intros s.
  - destruct s; split; reflexivity.
  - destruct s as [|c s]; [split; reflexivity|].
    cbn [strconv.quoteLoop].
    destruct (strconv.quoteRune wide (String c s)) as [out width] eqn:Hq.
    destruct (IH (strconv.drop width (String c s))) as [Hc He].
    destruct (quoteRune_piece wide (String c s)
                (strconv.quoteLoop wide fuel
                   (strconv.drop width (String c s)))) as [Hc1 He1].
    rewrite Hq in Hc1, He1. cbn [fst] in Hc1, He1.
    split; [now apply controlFree_app|now rewrite He1].
Qed.

(** X25. [string] and [stringBytes] append one string literal to the buffer,
    whatever the bytes of [s] are, and return its length and no error: a
    double quote, a body and a double quote, where the body has no control
    character (so no line break) and no double quote outside an escape, and
    does not end inside an escape. So the [err != nil] branches after their
    calls are never taken. *)
Theorem string_writes_one_literal
    (isPrintWide : Z -> bool) (s : string) (e : encodeState) :
  exists body : string,
    e_string isPrintWide s e
    = (mkState (Bytes e ++ dq ++ body ++ dq),
       Done ((String.length body + 2)%nat, None))
    /\ e_stringBytes isPrintWide s e = e_string isPrintWide s e
    /\ controlFree body = true
    /\ escaped false body = true.
Proof.
  exists (strconv.quoteLoop isPrintWide (String.length s) s).
  destruct (quoteLoop_literal isPrintWide (String.length s) s) as [Hc He].
  split; [|split; [reflexivity|split; assumption]].
  destruct e as [b]. unfold e_string, bind, Len, WriteString, ret,
    Sprintf_sharp_v, strconv.Quote.
  cbn [Bytes].
  match goal with
  | |- (_, Done (?n, None)) = (_, Done (?m, None)) =>
      replace n with m; [reflexivity|]
  end.
  rewrite !length_append. cbn [String.length dq str1]. lia.
Qed.

(** ** Times *)

Lemma string_of_uint_plain (d : Decimal.uint) :
  plainASCII (DecimalString.NilEmpty.string_of_uint d) = true.
Proof. induction d; cbn [DecimalString.NilEmpty.string_of_uint plainASCII];
  [reflexivity|..]; now rewrite IHd. Qed.

Lemma FormatInt_plain (i : Z) : plainASCII (strconv.FormatInt i) = true.
Proof.
  unfold strconv.FormatInt, DecimalString.NilZero.string_of_int,
    DecimalString.NilZero.string_of_uint.
  destruct (Z.to_int i) as [d|d]; cbn [plainASCII];
    (destruct d; [reflexivity|apply string_of_uint_plain..]).
Qed.

Lemma zeros_plain (n : nat) : plainASCII (strconv.zeros n) = true.
Proof. induction n as [|n IH]; [reflexivity|exact IH]. Qed.

Lemma trimZeros_plain (s : string) :
  plainASCII s = true -> plainASCII (strconv.trimZeros s) = true.
Proof.
  induction s as [|c s IH]; [reflexivity|].
  cbn [plainASCII strconv.trimZeros]. intros H.
  apply andb_prop in H as [Hc Hs]. specialize (IH Hs).
  destruct (strconv.trimZeros s) as [|c' t].
  - destruct (Ascii.eqb c "0"); [reflexivity|].
    cbn [str1 plainASCII]. now rewrite Hc.
  - cbn [plainASCII] in *. now rewrite Hc.
Qed.

Lemma pad_plain (width : nat) (n : Z) : plainASCII (time.pad width n) = true.
Proof.
  unfold time.pad. cbv zeta.
  apply plainASCII_app; [now destruct (n <? 0)|].
  apply plainASCII_app; [apply zeros_plain|apply FormatInt_plain].
Qed.

Lemma FormatRFC3339NanoUTC_plain (tm : time.Time) :
  plainASCII (time.FormatRFC3339NanoUTC tm) = true.
Proof.
  unfold time.FormatRFC3339NanoUTC.
  destruct (time.civil (time.unixSec tm / 86400)) as [[y mo] d]. cbv zeta.
  assert (Hf := trimZeros_plain _ (pad_plain 9 (time.nsec tm))).
  repeat (apply plainASCII_app; [first [apply pad_plain|reflexivity]|]).
  apply plainASCII_app; [|reflexivity].
  destruct (strconv.trimZeros (time.pad 9 (time.nsec tm)));
    [reflexivity|exact Hf].
Qed.

(** X10. A [time.Time] and a pointer to one are written as an [#inst] literal:
    [#inst], a space and, between double quotes and as they are, the
    characters of the time in UTC in the layout RFC3339Nano. Their own
    [MarshalText] is not used, whatever the table of methods is. *)
Theorem Marshal_time_is_inst
    (isPrintWide : Z -> bool) (MarshalText : value -> string * option error)
    (tm : time.Time) :
  Implements timeType = true
  /\ Marshal isPrintWide MarshalText (Some (Vtime tm))
     = Done (Some ("#inst " ++ dq ++ time.FormatRFC3339NanoUTC tm ++ dq), None)
  /\ Marshal isPrintWide MarshalText
       (Some (Vptr (Tptr timeType) (Some (Vtime tm))))
     = Marshal isPrintWide MarshalText (Some (Vtime tm)).
Proof.
  split; [reflexivity|]. split; [|reflexivity].
  rewrite <- (Quote_plain isPrintWide _ (FormatRFC3339NanoUTC_plain tm)).
  reflexivity.
Qed.
